(** * pyatoa [Inspector]: a shallow embedding of
    [pyatoa/core/seisflows/inspector.py] and the properties of its
    misfit bookkeeping.

    - Python floats are binary64 numbers: they are primitive floats
      here, so sums keep the order in which the code adds, and [<] is
      the comparison of the machine, false on NaN.  A division by an
      integer zero raises [ZeroDivisionError], as Python's [float] does.
    - Python dictionaries keep insertion order: they are association
      lists, whose keys are unique.  A loop [for k in d] that reads
      [d[k]] visits the pairs of [d] in order.
    - Exceptions are values of [exn].  A method that only reads returns
      a [result]; a method that mutates [self] is a state transformer
      [M Inspector], which keeps the mutations made before it raised.
    - The functions imported from other modules ([pyasdf], [obspy],
      other parts of [pyatoa]) are the fields of [Externals]. *)

From Stdlib Require Import Floats ZArith String Ascii List Bool Lia.
From Stdlib Require Import Permutation Sorted DecimalString.
Import ListNotations.
Local Open Scope string_scope.
Local Open Scope list_scope.
Set Warnings "-inexact-float,-register-all".

(* ================================================================== *)
(** ** Exceptions and results *)

Inductive exn : Type :=
| KeyError (key : string)
| IndexError
| ValueError
| TypeError
| ZeroDivisionError
| UnboundLocalError (name : string)
| AssertionError
| OSError
| FileNotFoundError.

Inductive result (A : Type) : Type :=
| Ok (a : A)
| Raise (e : exn).
Arguments Ok {A} a.
Arguments Raise {A} e.

Definition rbind {A B} (r : result A) (k : A -> result B) : result B :=
  match r with
  | Ok a => k a
  | Raise e => Raise e
  end.

(** A statement that runs on a mutable object of type [S]: the object
    after the statement, and its outcome. *)
Definition M (S A : Type) : Type := S -> S * result A.

Definition ret {S A} (a : A) : M S A := fun s => (s, Ok a).
Definition raise {S A} (e : exn) : M S A := fun s => (s, Raise e).
Definition bind {S A B} (m : M S A) (k : A -> M S B) : M S B :=
  fun s => match m s with
           | (s', Ok a) => k a s'
           | (s', Raise e) => (s', Raise e)
           end.
Definition lift {S A} (r : result A) : M S A := fun s => (s, r).
Definition read {S A} (f : S -> A) : M S A := fun s => (s, Ok (f s)).
Definition modify {S} (f : S -> S) : M S unit := fun s => (f s, Ok tt).

Declare Scope py_scope.
Delimit Scope py_scope with py.
Notation "x <- m ;; k" := (bind m (fun x => k))
  (at level 61, m at next level, right associativity) : py_scope.
Notation "m ;; k" := (bind m (fun _ => k))
  (at level 61, right associativity) : py_scope.
Notation "x <~ r ;; k" := (rbind r (fun x => k))
  (at level 61, r at next level, right associativity) : py_scope.
Notation "' pat <~ r ;; k" :=
  (rbind r (fun x => match x with pat => k end))
  (at level 61, pat pattern, r at next level, right associativity) : py_scope.
Local Open Scope py_scope.

(** [for x in xs: body(x)] *)
Fixpoint for_each {S A} (xs : list A) (body : A -> M S unit) : M S unit :=
  match xs with
  | [] => ret tt
  | x :: xs' => body x ;; for_each xs' body
  end.

(** A loop that only threads local variables. *)
Fixpoint foldM {A B} (f : B -> A -> result B) (xs : list A) (b : B)
  : result B :=
  match xs with
  | [] => Ok b
  | x :: xs' => b' <~ f b x ;; foldM f xs' b'
  end.

Definition when {S} (b : bool) (m : M S unit) : M S unit :=
  if b then m else ret tt.

(* ================================================================== *)
(** ** Numbers and strings *)

(** [float(z)] for a Python int: the nearest binary64 number. *)
Definition Z2float (z : Z) : float :=
  SF2Prim (binary_normalize prec emax z 0 false).

(** [x / n] with a float [x] and an int [n], for an [n] a float can
    hold (below 2^1024 in size), as every count of windows or events is;
    beyond that Python raises [OverflowError] where [Z2float] gives an
    infinity. *)
Definition truediv_int (x : float) (n : Z) : result float :=
  if (n =? 0)%Z then Raise ZeroDivisionError else Ok (x / Z2float n)%float.

(** Truth value of an optional float argument: [None] and [0.0] are false. *)
Definition truthy (o : option float) : bool :=
  match o with
  | Some f => negb (f =? 0)%float
  | None => false
  end.

(** [c in s] for a one-character string [c]. *)
Fixpoint str_contains (c : ascii) (s : string) : bool :=
  match s with
  | EmptyString => false
  | String a s' => Ascii.eqb a c || str_contains c s'
  end.

Definition has_dot (key : string) : bool := str_contains "."%char key.

(** [s.split(c)] *)
Fixpoint split_on (c : ascii) (s : string) : list string :=
  match s with
  | EmptyString => [EmptyString]
  | String a s' =>
      let r := split_on c s' in
      if Ascii.eqb a c then EmptyString :: r
      else match r with
           | [] => [String a EmptyString]
           | h :: t => String a h :: t
           end
  end.

(** [s.endswith(suffix)] *)
Definition endswith (s suffix : string) : bool :=
  let n := String.length s in
  let k := String.length suffix in
  (k <=? n)%nat && String.eqb (substring (n - k) k s) suffix.

(* ================================================================== *)
(** ** Dictionaries *)

Definition dict (V : Type) : Type := list (string * V).

Section Dict.
Context {V : Type}.

Fixpoint dict_get (k : string) (d : dict V) : option V :=
  match d with
  | [] => None
  | (k', v) :: d' => if String.eqb k k' then Some v else dict_get k d'
  end.

(** [k in d] *)
Definition dict_in (k : string) (d : dict V) : bool :=
  match dict_get k d with
  | Some _ => true
  | None => false
  end.

(** [d[k]] *)
Definition getitem (k : string) (d : dict V) : result V :=
  match dict_get k d with
  | Some v => Ok v
  | None => Raise (KeyError k)
  end.

(** [d[k] = v]: a present key keeps its place, a new one goes last. *)
Fixpoint dict_set (k : string) (v : V) (d : dict V) : dict V :=
  match d with
  | [] => [(k, v)]
  | (k', v') :: d' =>
      if String.eqb k k' then (k, v) :: d' else (k', v') :: dict_set k v d'
  end.

Fixpoint dict_remove (k : string) (d : dict V) : dict V :=
  match d with
  | [] => []
  | (k', v') :: d' =>
      if String.eqb k k' then d' else (k', v') :: dict_remove k d'
  end.

(** [del d[k]] *)
Definition delitem (k : string) : M (dict V) unit := fun d =>
  if dict_in k d then (dict_remove k d, Ok tt) else (d, Raise (KeyError k)).

Definition dict_keys (d : dict V) : list string := map fst d.

(** [d[k] = v] as a statement. *)
Definition setitem (k : string) (v : V) : M (dict V) unit :=
  modify (dict_set k v).
End Dict.

(** A statement [m] run on the object stored under [k]: [d[k]] is a
    reference, so what [m] did before raising stays in [d]. *)
Definition zoom {V A} (k : string) (m : M V A) : M (dict V) A := fun d =>
  match dict_get k d with
  | None => (d, Raise (KeyError k))
  | Some v => let '(v', r) := m v in (dict_set k v' d, r)
  end.

(** [{k: f(k) for k in ks}] *)
Definition dict_comp {V} (ks : list string) (f : string -> result V)
  : result (dict V) :=
  foldM (fun d k => v <~ f k ;; Ok (dict_set k v d)) ks [].

(* ================================================================== *)
(** ** The datasets the Inspector reads *)

(** What the code reads from one [pyasdf.ASDFDataSet]. *)
Record Origin : Type := {
  latitude : float;
  longitude : float;
  depth : float;
  time : string
}.

Record Event : Type := {
  preferred_origin : Origin;
  preferred_magnitude : float
}.

Record Coordinates : Type := {
  coord_latitude : float;
  coord_longitude : float;
  elevation_in_m : float
}.

(** The [parameters] of one entry of [auxiliary_data.AdjointSources]. *)
Record AdjointSource : Type := {
  station_id : string;
  misfit_value : float
}.

(** The [parameters] of one entry of [auxiliary_data.MisfitWindows]. *)
Record MisfitWindow : Type := {
  channel_id : string;
  dlnA : float;
  window_weight : float;
  max_cc_value : float;
  relative_starttime : float;
  relative_endtime : float;
  cc_shift_in_seconds : float
}.

Record ASDFDataSet : Type := {
  ds_events : list Event;
  get_all_coordinates : dict Coordinates;
  AdjointSources : dict (dict (list AdjointSource));
  MisfitWindows : dict (dict (list MisfitWindow))
}.

(** The functions the module imports from elsewhere.  None of them is in
    the sources at hand, so the embedding takes them as given. *)
Record Externals : Type := {
  (** [pyasdf.ASDFDataSet(dsfid)]: raises [OSError] on a file already open *)
  pyasdf_ASDFDataSet : string -> result ASDFDataSet;
  (** [pyatoa.utils.form.event_id] *)
  event_id : ASDFDataSet -> string;
  (** [pyatoa.utils.srcrcv.lonlat_utm(lon, lat, utm_zone, inverse=False)] *)
  lonlat_utm : float -> float -> Z -> float * float;
  (** [obspy.geodetics.gps2dist_azimuth(lat1, lon1, lat2, lon2)] *)
  gps2dist_azimuth : float -> float -> float -> float -> float * float * float;
  (** [count_misfit_windows(ds, model, step, count_by_stations=True)]:
      the number of misfit windows of each station *)
  count_misfit_windows : ASDFDataSet -> string -> string -> dict Z;
  (** [obspy.UTCDateTime(string)], as nanoseconds since the epoch *)
  UTCDateTime : string -> Z;
  (** the public methods inherited from [pyatoa.visuals.gadget.Gadget] *)
  gadget_methods : list string
}.

(* ================================================================== *)
(** ** The Inspector *)

(** A value of [srcrcv[key]]: a coordinate, the origin time of an event,
    or the distance and backazimuth from an event to a station. *)
Inductive srcrcv_val : Type :=
| VFloat (f : float)
| VStr (s : string)
| VDict (d : dict float).

(** [{"msft": ..., "nwin": ...}] *)
Record misfit_rec : Type := {
  msft : float;
  nwin : Z
}.

(** The seven parallel lists kept for each channel. *)
Record window_rec : Type := {
  cc_shift_sec : list float;
  dlna : list float;
  weight : list float;
  max_cc : list float;
  length_s : list float;
  rel_start : list float;
  rel_end : list float
}.

Definition srcrcv_t : Type := dict (dict srcrcv_val).
(** event -> model -> step -> station *)
Definition misfits_t : Type := dict (dict (dict (dict misfit_rec))).
(** event -> model -> step -> station -> channel *)
Definition windows_t : Type := dict (dict (dict (dict (dict window_rec)))).

Record Inspector : Type := {
  srcrcv : srcrcv_t;
  misfits : misfits_t;
  windows : windows_t;
  _utm : Z;
  _stations : option (list string);
  _events : option (list string);
  _str : option string;
  _models : option (list string);
  _steps : option (dict (list string));
  _iterations : Z
}.

(** The attributes as [__init__] leaves them before loading anything. *)
Definition new_Inspector (utm : Z) : Inspector := {|
  srcrcv := []; misfits := []; windows := []; _utm := utm;
  _stations := None; _events := None; _str := None;
  _models := None; _steps := None; _iterations := 0
|}.

(** The attribute names, in the order [__init__] creates them. *)
Definition vars_self : list string :=
  ["srcrcv"; "misfits"; "windows"; "_utm"; "_stations"; "_events"; "_str";
   "_models"; "_steps"; "_iterations"].

Definition with_srcrcv (x : srcrcv_t) (self : Inspector) : Inspector := {|
  srcrcv := x; misfits := misfits self; windows := windows self;
  _utm := _utm self; _stations := _stations self; _events := _events self;
  _str := _str self; _models := _models self; _steps := _steps self;
  _iterations := _iterations self |}.

Definition with_misfits (x : misfits_t) (self : Inspector) : Inspector := {|
  srcrcv := srcrcv self; misfits := x; windows := windows self;
  _utm := _utm self; _stations := _stations self; _events := _events self;
  _str := _str self; _models := _models self; _steps := _steps self;
  _iterations := _iterations self |}.

Definition with_windows (x : windows_t) (self : Inspector) : Inspector := {|
  srcrcv := srcrcv self; misfits := misfits self; windows := x;
  _utm := _utm self; _stations := _stations self; _events := _events self;
  _str := _str self; _models := _models self; _steps := _steps self;
  _iterations := _iterations self |}.

Definition with_str (x : string) (self : Inspector) : Inspector := {|
  srcrcv := srcrcv self; misfits := misfits self; windows := windows self;
  _utm := _utm self; _stations := _stations self; _events := _events self;
  _str := Some x; _models := _models self; _steps := _steps self;
  _iterations := _iterations self |}.

Definition with_stations_events (stations events : list string)
    (self : Inspector) : Inspector := {|
  srcrcv := srcrcv self; misfits := misfits self; windows := windows self;
  _utm := _utm self; _stations := Some stations; _events := Some events;
  _str := _str self; _models := _models self; _steps := _steps self;
  _iterations := _iterations self |}.

Definition with_models_steps (models : list string)
    (steps : dict (list string)) (iterations : Z)
    (self : Inspector) : Inspector := {|
  srcrcv := srcrcv self; misfits := misfits self; windows := windows self;
  _utm := _utm self; _stations := _stations self; _events := _events self;
  _str := _str self; _models := Some models; _steps := Some steps;
  _iterations := iterations |}.

(** A statement on [self.srcrcv], [self.misfits], [self.windows]. *)
Definition on_srcrcv {A} (m : M srcrcv_t A) : M Inspector A := fun self =>
  let '(x, r) := m (srcrcv self) in (with_srcrcv x self, r).
Definition on_misfits {A} (m : M misfits_t A) : M Inspector A := fun self =>
  let '(x, r) := m (misfits self) in (with_misfits x self, r).
Definition on_windows {A} (m : M windows_t A) : M Inspector A := fun self =>
  let '(x, r) := m (windows self) in (with_windows x self, r).

(** [obj is None] makes [len(obj)] and [for x in obj] raise. *)
Definition not_None {A} (o : option A) : result A :=
  match o with
  | Some a => Ok a
  | None => Raise TypeError
  end.

(** [l[0]] *)
Definition first {A} (l : list A) : result A :=
  match l with
  | x :: _ => Ok x
  | [] => Raise IndexError
  end.

(** Iterating [for k in d] with [d[k]] in the body visits the pairs of
    [d] in order.  [{k: f(k, d[k]) for k in d}]: *)
Definition dict_comp_items {V W} (d : dict V) (f : string -> V -> result W)
  : result (dict W) :=
  foldM (fun out '(k, v) => w <~ f k v ;; Ok (dict_set k w out)) d [].

(** [d[m][s] = g(d[m][s])] *)
Definition update2 {X} (m s : string) (g : X -> X) (d : dict (dict X))
  : result (dict (dict X)) :=
  dm <~ getitem m d ;;
  x <~ getitem s dm ;;
  Ok (dict_set m (dict_set s (g x) dm) d).

Definition nl : string := String (ascii_of_nat 10) EmptyString.
Definition tab : string := String (ascii_of_nat 9) EmptyString.

(** [f"{n}"] for a length. *)
Definition str_of_nat (n : nat) : string :=
  NilEmpty.string_of_uint (Nat.to_uint n).

(** [x in l] for strings. *)
Definition str_in (x : string) (l : list string) : bool :=
  existsb (String.eqb x) l.

(** The public methods the class itself defines, as [dir] lists them. *)
Definition class_methods : list string :=
  ["append"; "event_info"; "event_stats"; "exclude_events"; "get_misfits";
   "get_srcrcv"; "get_windows"; "load"; "measurements"; "misfit_values";
   "save"; "sort_by_model"; "sort_by_window"; "sort_misfits_by_station";
   "sum_misfits"; "window_values"; "write"].

(** [w_[choice]] *)
Definition window_getitem (choice : string) (w : window_rec)
  : result (list float) :=
  if choice =? "cc_shift_sec" then Ok (cc_shift_sec w)
  else if choice =? "dlna" then Ok (dlna w)
  else if choice =? "weight" then Ok (weight w)
  else if choice =? "max_cc" then Ok (max_cc w)
  else if choice =? "length_s" then Ok (length_s w)
  else if choice =? "rel_start" then Ok (rel_start w)
  else if choice =? "rel_end" then Ok (rel_end w)
  else Raise (KeyError choice).

(** A coordinate read where a number is needed. *)
Definition as_float (v : srcrcv_val) : result float :=
  match v with
  | VFloat f => Ok f
  | _ => Raise TypeError
  end.

Definition as_str (v : srcrcv_val) : result string :=
  match v with
  | VStr s => Ok s
  | _ => Raise TypeError
  end.

(** [try: m  except OSError: return 0  except KeyError: return 0] around
    a body that returns 1.  [FileNotFoundError] is a subclass of
    [OSError], so the first clause catches it as well. *)
Definition try_status {S} (m : M S unit) : M S Z := fun s =>
  match m s with
  | (s', Ok _) => (s', Ok 1%Z)
  | (s', Raise OSError) => (s', Ok 0%Z)
  | (s', Raise FileNotFoundError) => (s', Ok 0%Z)
  | (s', Raise (KeyError _)) => (s', Ok 0%Z)
  | (s', Raise e) => (s', Raise e)
  end.

(** [sorted(l)]: Python's sort is stable and compares with [<] only.
    Where [<] orders the items (for floats: no NaN among them) every
    stable sort gives the same list, and the insertion sort below is one.
    Once a NaN is compared the result of Python's sort depends on the
    comparisons its algorithm happens to make, which this definition
    does not follow; the statements on sorted values exclude NaN. *)
Section Sorted.
Context {A : Type} (lt : A -> A -> bool).

Fixpoint insert_sorted (x : A) (l : list A) : list A :=
  match l with
  | [] => [x]
  | y :: l' => if lt y x then y :: insert_sorted x l' else x :: y :: l'
  end.

Definition sorted (l : list A) : list A := fold_right insert_sorted [] l.
End Sorted.

(** [<] on tuples of three strings. *)
Definition info_lt (a b : string * string * string) : bool :=
  let '(e1, s1, c1) := a in
  let '(e2, s2, c2) := b in
  if e1 =? e2 then (if s1 =? s2 then String.ltb c1 c2 else String.ltb s1 s2)
  else String.ltb e1 e2.

(** [<] on the pairs [(value, (event, station, component))]. *)
Definition entry_lt (a b : float * (string * string * string)) : bool :=
  if (fst a =? fst b)%float then info_lt (snd a) (snd b)
  else (fst a <? fst b)%float.

(** The value [measurements] returns, by [choice]. *)
Inductive measurement : Type :=
| cum_win_len (d : dict (dict float))
| num_windows (d : dict (dict Z)).

(** A value of the mapping [sort_misfits_by_station] builds:
    [{"msft": ..., "nwin": ..., "nevents": ...}] *)
Record station_rec : Type := {
  sta_msft : float;
  sta_nwin : Z;
  nevents : Z
}.

(* ================================================================== *)
(** ** The methods of [Inspector] *)

Section Methods.
Variable ext : Externals.

(** [_get_str]: the summary text, from the sizes of the derived lists. *)
Definition _get_str : M Inspector unit := fun self =>
  match
    (events <~ not_None (_events self) ;;
     stations <~ not_None (_stations self) ;;
     models <~ not_None (_models self) ;;
     let variable_list :=
       filter (fun v => negb (prefix "_" v)) vars_self in
     let line := fun s => (tab ++ s ++ nl)%string in
     Ok ("INSPECTOR" ++ nl
         ++ "Attributes:" ++ nl
         ++ tab ++ "events: " ++ str_of_nat (length events) ++ nl
         ++ tab ++ "stations: " ++ str_of_nat (length stations) ++ nl
         ++ tab ++ "models: " ++ str_of_nat (length models) ++ nl
         ++ "Variables:" ++ nl
         ++ String.concat "" (map line variable_list)
         ++ "Methods:" ++ nl
         ++ String.concat "" (map line class_methods)
         ++ "Plotting (Gadget):" ++ nl
         ++ String.concat "" (map line (gadget_methods ext)))%string)
  with
  | Ok s => (with_str s self, Ok tt)
  | Raise e => (self, Raise e)
  end.

(** [_get_info] *)
Definition _get_info : M Inspector unit := fun self =>
  let '(events, stations) :=
    fold_left (fun '(events, stations) key =>
                 if has_dot key then (events, stations ++ [key])
                 else (events ++ [key], stations))
              (dict_keys (srcrcv self)) ([], []) in
  let self := with_stations_events stations events self in
  match
    (_event <~ first (dict_keys (misfits self)) ;;
     by_model <~ getitem _event (misfits self) ;;
     let models := dict_keys by_model in
     steps <~ dict_comp models
                (fun m => by_step <~ getitem m by_model ;;
                          Ok (dict_keys by_step)) ;;
     iterations <~ foldM (fun iterations m =>
                            l <~ getitem m steps ;;
                            Ok (iterations + Z.of_nat (length l))%Z)
                         models 0%Z ;;
     Ok (models, steps, iterations))
  with
  | Ok (models, steps, iterations) =>
      (with_models_steps models steps iterations self, Ok tt)
  | Raise e => (self, Raise e)
  end.

(** [misfit_values] *)
Definition misfit_values (model step : string) (self : Inspector)
  : result (list float) :=
  foldM (fun misfit '(event, by_model) =>
    foldM (fun misfit model_ =>
      if negb (model_ =? model) then Ok misfit
      else
        by_sta <~ (by_step <~ getitem model by_model ;;
                   getitem step by_step) ;;
        foldM (fun misfit step_ =>
          if negb (step_ =? step) then Ok misfit
          else
            foldM (fun misfit sta =>
                     r <~ getitem sta by_sta ;;
                     Ok (misfit ++ [msft r]))
                  (dict_keys by_sta) misfit)
          (dict_keys by_sta) misfit)
      (dict_keys by_model) misfit)
    (misfits self) [].

(** [get_srcrcv] *)
Definition get_srcrcv (ds : ASDFDataSet) : M Inspector unit :=
  let eid := event_id ext ds in
  ev <- lift (first (ds_events ds)) ;;
  utm <- read _utm ;;
  let o := preferred_origin ev in
  let '(ev_x, ev_y) := lonlat_utm ext (longitude o) (latitude o) utm in
  on_srcrcv (setitem eid [("lat", VFloat (latitude o));
                          ("lon", VFloat (longitude o));
                          ("depth_m", VFloat (depth o));
                          ("time", VStr (time o));
                          ("mag", VFloat (preferred_magnitude ev));
                          ("utm_x", VFloat ev_x);
                          ("utm_y", VFloat ev_y)]) ;;
  for_each (get_all_coordinates ds) (fun '(sta, sta_info) =>
    known <- read (fun self => dict_in sta (srcrcv self)) ;;
    when (negb known)
      (let '(sta_x, sta_y) :=
         lonlat_utm ext (coord_longitude sta_info)
                    (coord_latitude sta_info) utm in
       on_srcrcv (setitem sta
                    [("lat", VFloat (coord_latitude sta_info));
                     ("lon", VFloat (coord_longitude sta_info));
                     ("elv_m", VFloat (elevation_in_m sta_info));
                     ("utm_x", VFloat sta_x);
                     ("utm_y", VFloat sta_y)])) ;;
    let coord := fun (key field : string) (self : Inspector) =>
      (self, r <~ getitem key (srcrcv self) ;;
             v <~ getitem field r ;; as_float v) in
    lat1 <- coord eid "lat" ;;
    lon1 <- coord eid "lon" ;;
    lat2 <- coord sta "lat" ;;
    lon2 <- coord sta "lon" ;;
    let '(gcd, _, baz) := gps2dist_azimuth ext lat1 lon1 lat2 lon2 in
    on_srcrcv (zoom eid
      (setitem sta (VDict [("dist_km", (gcd * 0.001)%float);
                           ("baz", baz)])))).

(** The bodies of the two innermost loops of [get_misfits], on
    [self.misfits[eid][model][step]]: one adjoint source added to the
    record of its station, and the record of one station scaled. *)
Definition add_misfit (num_win : dict Z) (station : AdjointSource)
  : M (dict misfit_rec) unit :=
  let sta_id := station_id station in
  let misfit := misfit_value station in
  (fun d => if dict_in sta_id d then (d, Ok tt)
            else match getitem sta_id num_win with
                 | Ok n => (dict_set sta_id {| msft := 0; nwin := n |} d,
                            Ok tt)
                 | Raise e => (d, Raise e)
                 end) ;;
  zoom sta_id
    (modify (fun r => {| msft := (msft r + misfit)%float;
                         nwin := nwin r |})).

Definition scale_misfit : M misfit_rec unit := fun r =>
  match truediv_int (msft r) (2 * nwin r) with
  | Ok q => ({| msft := q; nwin := nwin r |}, Ok tt)
  | Raise e => (r, Raise e)
  end.

(** The body of the loop of [get_misfits] over the steps of [model]. *)
Definition get_misfits_step (ds : ASDFDataSet) (eid model : string)
    (item : string * list AdjointSource) : M Inspector unit :=
  let '(step, stations) := item in
  on_misfits (zoom eid (zoom model (setitem step []))) ;;
  let num_win := count_misfit_windows ext ds model step in
  for_each stations (fun station =>
    on_misfits (zoom eid (zoom model (zoom step
      (add_misfit num_win station))))) ;;
  sta_ids <- (fun self =>
                (self, by_model <~ getitem eid (misfits self) ;;
                       by_step <~ getitem model by_model ;;
                       by_sta <~ getitem step by_step ;;
                       Ok (dict_keys by_sta))) ;;
  for_each sta_ids (fun sta_id =>
    on_misfits (zoom eid (zoom model (zoom step
      (zoom sta_id scale_misfit))))).

(** The body of the loop over the models. *)
Definition get_misfits_model (ds : ASDFDataSet) (eid : string)
    (item : string * dict (list AdjointSource)) : M Inspector unit :=
  let '(model, steps) := item in
  on_misfits (zoom eid (setitem model [])) ;;
  for_each steps (get_misfits_step ds eid model).

(** [get_misfits] *)
Definition get_misfits (ds : ASDFDataSet) : M Inspector unit :=
  let eid := event_id ext ds in
  on_misfits (setitem eid []) ;;
  for_each (AdjointSources ds) (get_misfits_model ds eid).

Definition empty_window : window_rec := {|
  cc_shift_sec := []; dlna := []; weight := []; max_cc := [];
  length_s := []; rel_start := []; rel_end := [] |}.

(** The body of the loop of [get_windows] over the windows of one step,
    on [win = self.windows[eid][model][step]]. *)
Definition add_window (window : MisfitWindow)
  : M (dict (dict window_rec)) unit :=
  match split_on "."%char (channel_id window) with
  | [net; sta; loc; cha] =>
      let sta_id := (net ++ "." ++ sta)%string in
      let length := (relative_endtime window
                     - relative_starttime window)%float in
      (fun win => if dict_in sta_id win then (win, Ok tt)
                  else (dict_set sta_id [] win, Ok tt)) ;;
      zoom sta_id (fun chans =>
                     if dict_in cha chans then (chans, Ok tt)
                     else (dict_set cha empty_window chans, Ok tt)) ;;
      zoom sta_id (zoom cha (modify (fun w => {|
        cc_shift_sec := cc_shift_sec w ++ [cc_shift_in_seconds window];
        dlna := dlna w ++ [dlnA window];
        weight := weight w ++ [window_weight window];
        max_cc := max_cc w ++ [max_cc_value window];
        length_s := length_s w ++ [length];
        rel_start := rel_start w ++ [relative_starttime window];
        rel_end := rel_end w ++ [relative_endtime window] |})))
  | _ => raise ValueError
  end.

(** [get_windows] *)
Definition get_windows (ds : ASDFDataSet) : M Inspector unit :=
  let eid := event_id ext ds in
  on_windows (setitem eid []) ;;
  for_each (MisfitWindows ds) (fun '(model, steps) =>
    on_windows (zoom eid (setitem model [])) ;;
    for_each steps (fun '(step, wins) =>
      on_windows (zoom eid (zoom model (setitem step []))) ;;
      for_each wins (fun window =>
        on_windows (zoom eid (zoom model (zoom step
          (add_window window))))))).

(** [append] *)
Definition append (dsfid : string) (windows srcrcv misfits : bool)
  : M Inspector Z :=
  try_status
    (ds <- lift (pyasdf_ASDFDataSet ext dsfid) ;;
     when windows (get_windows ds) ;;
     when srcrcv (get_srcrcv ds) ;;
     when misfits (get_misfits ds)).
End Methods.

(* ================================================================== *)
(** ** Re-slicing and reductions *)

(** The comprehension of [sort_by_model] over the mapping [d] chosen:
    [{m: {s: {e: d[e][m][s] for e in d if m in d[e]}
          for s in self.steps[m]} for m in self.models}] *)
Definition sort_by_model_of {V} (d : dict (dict (dict V)))
    (self : Inspector) : result (dict (dict (dict V))) :=
  models <~ not_None (_models self) ;;
  dict_comp models (fun m =>
    steps <~ (all_steps <~ not_None (_steps self) ;; getitem m all_steps) ;;
    dict_comp steps (fun s =>
      foldM (fun view '(e, by_model) =>
               if dict_in m by_model
               then x <~ (by_step <~ getitem m by_model ;;
                          getitem s by_step) ;;
                    Ok (dict_set e x view)
               else Ok view)
            d [])).

(** [sort_by_model("misfits")] and [sort_by_model("windows")] *)
Definition sort_by_model_misfits (self : Inspector)
  : result (dict (dict (dict (dict misfit_rec)))) :=
  sort_by_model_of (misfits self) self.

Definition sort_by_model_windows (self : Inspector)
  : result (dict (dict (dict (dict (dict window_rec))))) :=
  sort_by_model_of (windows self) self.

(** What [sort_by_model] returns, by [choice]. *)
Inductive by_model_t : Type :=
| misfits_by_model (d : dict (dict (dict (dict misfit_rec))))
| windows_by_model (d : dict (dict (dict (dict (dict window_rec))))).

(** [sort_by_model] *)
Definition sort_by_model (choice : string) (self : Inspector)
  : result by_model_t :=
  if negb (str_in choice ["misfits"; "windows"]) then Raise AssertionError
  else if choice =? "misfits"
       then d <~ sort_by_model_misfits self ;; Ok (misfits_by_model d)
       else d <~ sort_by_model_windows self ;; Ok (windows_by_model d).

Definition info_t : Type := string * string * string.

(** The four nested loops of [sort_by_window], from the innermost: the
    values of one channel appended to [values], each with the same tuple
    appended to [info]. *)
Definition collect_channel (choice event sta : string)
    (acc : list float * list info_t) (item : string * window_rec)
  : result (list float * list info_t) :=
  let '(comp, w) := item in
  vals <~ window_getitem choice w ;;
  Ok (fold_left (fun '(values, info) value =>
                   (values ++ [value], info ++ [(event, sta, comp)]))
                vals acc).

Definition collect_station (choice event : string)
    (acc : list float * list info_t) (item : string * dict window_rec)
  : result (list float * list info_t) :=
  let '(sta, by_comp) := item in
  foldM (collect_channel choice event sta) by_comp acc.

Definition collect_event (choice : string)
    (acc : list float * list info_t)
    (item : string * dict (dict window_rec))
  : result (list float * list info_t) :=
  let '(event, by_sta) := item in
  foldM (collect_station choice event) by_sta acc.

Definition collect_windows (choice : string)
    (windows : dict (dict (dict window_rec)))
  : result (list float * list info_t) :=
  foldM (collect_event choice) windows ([], []).

(** [values, info = (list(_) for _ in zip( *l ))]: two lists, unless [l]
    is empty and the generator yields nothing to unpack. *)
Definition unzip_pairs {A B} (l : list (A * B)) : result (list A * list B) :=
  match l with
  | [] => Raise ValueError
  | _ => Ok (map fst l, map snd l)
  end.

(** [sort_by_window] *)
Definition sort_by_window (model step choice : string) (self : Inspector)
  : result (list float * list info_t) :=
  by_model <~ sort_by_model_windows self ;;
  windows <~ (by_step <~ getitem model by_model ;; getitem step by_step) ;;
  '(values, info) <~ collect_windows choice windows ;;
  unzip_pairs (sorted entry_lt (combine values info)).

(** In [sort_misfits_by_station] the right-hand side
    [self.misfits[event][model][sta]["msft"]] indexes the model with a
    station: it yields no number. *)
Definition station_under_model {X} (sta field : string)
    (by_step : dict (dict misfit_rec)) : result X :=
  by_sta <~ getitem sta by_step ;;
  _ <~ getitem field by_sta ;;
  Raise TypeError.

Definition new_station : station_rec :=
  {| sta_msft := 0; sta_nwin := 0; nevents := 0 |}.

(** [sort_misfits_by_station].  The local [step] outlives its loop: the
    scaling loop reads the last value it took, if any. *)
Definition sort_misfits_by_station (self : Inspector)
  : result (dict (dict (dict station_rec))) :=
  r <~ foldM (fun acc '(event, by_model) =>
    foldM (fun '(misfits, step_var) '(model, by_step) =>
      let misfits :=
        if dict_in model misfits then misfits
        else dict_set model [] misfits in
      '(misfits, step_var) <~ foldM (fun '(misfits, _) '(step, by_sta) =>
        out_m <~ getitem model misfits ;;
        let out_m :=
          if dict_in step out_m then out_m else dict_set step [] out_m in
        out_s <~ getitem step out_m ;;
        out_s <~ foldM (fun out_s '(sta, _) =>
          let out_s :=
            if dict_in sta out_s then out_s
            else dict_set sta new_station out_s in
          r <~ getitem sta out_s ;;
          x <~ station_under_model sta "msft" by_step ;;
          n <~ station_under_model sta "nwin" by_step ;;
          Ok (dict_set sta {| sta_msft := (sta_msft r + x)%float;
                              sta_nwin := (sta_nwin r + n)%Z;
                              nevents := (nevents r + 1)%Z |} out_s))
          by_sta out_s ;;
        Ok (dict_set model (dict_set step out_s out_m) misfits, Some step))
        by_step (misfits, step_var) ;;
      step <~ match step_var with
              | Some step => Ok step
              | None => Raise (UnboundLocalError "step")
              end ;;
      out_m <~ getitem model misfits ;;
      out_s <~ getitem step out_m ;;
      out_s <~ foldM (fun out_s sta =>
                        r <~ getitem sta out_s ;;
                        q <~ truediv_int (sta_msft r) (nevents r) ;;
                        Ok (dict_set sta {| sta_msft := q;
                                            sta_nwin := sta_nwin r;
                                            nevents := nevents r |} out_s))
                     (dict_keys out_s) out_s ;;
      Ok (dict_set model (dict_set step out_s out_m) misfits, Some step))
      by_model acc)
    (misfits self) ([], None) ;;
  Ok (fst r).

(** [l[i]] *)
Definition index {A} (i : nat) (l : list A) : result A :=
  match nth_error l i with
  | Some x => Ok x
  | None => Raise IndexError
  end.

(** [self.srcrcv[event][key]] where a number is needed. *)
Definition coord_of (key : string) (rec : dict srcrcv_val) : result float :=
  v <~ getitem key rec ;; as_float v.

(** The condition of the bounding-box branch of [exclude_events]:
    [coords and (lat < coords[0]) or (lat > coords[1])
     or (lon < coords[2]) or (lon > coords[3])].
    [and] binds tighter than [or]: only the first comparison is guarded
    by [coords].  Each comparison looks up the coordinate, then indexes
    [coords], then compares, which needs a number. *)
Definition outside_box (coords : list float) (rec : dict srcrcv_val)
  : result bool :=
  a <~ match coords with
       | [] => Ok false
       | _ => v <~ getitem "lat" rec ;;
              c <~ index 0 coords ;;
              lat <~ as_float v ;; Ok (lat <? c)%float
       end ;;
  if a then Ok true else
  b <~ (v <~ getitem "lat" rec ;;
        c <~ index 1 coords ;;
        lat <~ as_float v ;; Ok (c <? lat)%float) ;;
  if b then Ok true else
  c <~ (v <~ getitem "lon" rec ;;
        c <~ index 2 coords ;;
        lon <~ as_float v ;; Ok (lon <? c)%float) ;;
  if c then Ok true else
  v <~ getitem "lon" rec ;;
  c <~ index 3 coords ;;
  lon <~ as_float v ;; Ok (c <? lon)%float.

(** [lo and x < lo], then [elif hi and x > hi], for optional bounds. *)
Definition outside_range (lo hi : option float) (x : float) : bool :=
  if truthy lo && match lo with Some l => (x <? l)%float | None => false end
  then true
  else truthy hi && match hi with Some h => (h <? x)%float | None => false end.

Section Reductions.
Variable ext : Externals.

(** The three inner loops of [measurements], over the events, stations
    and channels of one (model, step), with the body [f]. *)
Definition over_channels {A} (f : A -> string * window_rec -> result A)
    (by_event : dict (dict (dict window_rec))) (a : A) : result A :=
  foldM (fun acc '(event, by_sta) =>
           foldM (fun acc '(sta, by_cha) => foldM f by_cha acc) by_sta acc)
        by_event a.

(** The body of the innermost loop: one channel counted. *)
Definition measure_channel (model step : string)
    (acc : dict (dict float) * dict (dict Z)) (item : string * window_rec)
  : result (dict (dict float) * dict (dict Z)) :=
  let '(cum, num) := acc in
  let '(cha, w_) := item in
  num <~ update2 model step
           (fun n => n + Z.of_nat (length (dlna w_)))%Z num ;;
  cum <~ foldM (fun cum length =>
                  update2 model step (fun c => c + length)%float cum)
               (length_s w_) cum ;;
  Ok (cum, num).

(** [measurements] *)
Definition measurements (choice : string) : M Inspector measurement :=
  if negb (str_in choice ["cum_win_len"; "num_windows"])
  then raise AssertionError
  else
    _get_str ext ;;
    fun self =>
      (self,
       windows <~ sort_by_model_windows self ;;
       cumulative_window_length <~
         dict_comp_items windows (fun m by_step =>
           dict_comp_items by_step (fun s _ => Ok 0%float)) ;;
       number_of_windows <~
         dict_comp_items windows (fun m by_step =>
           dict_comp_items by_step (fun s _ => Ok 0%Z)) ;;
       '(cum, num) <~
         foldM (fun acc '(model, by_step) =>
                  foldM (fun acc '(step, by_event) =>
                           over_channels (measure_channel model step)
                                         by_event acc)
                        by_step acc)
               windows (cumulative_window_length, number_of_windows) ;;
       if choice =? "cum_win_len" then Ok (cum_win_len cum)
       else Ok (num_windows num)).

(** The loop of [sum_misfits] over [enumerate(misfits[model][step])]:
    the total, the local [e] after the loop, and the next index. *)
Definition enumerate_events (by_event : dict (dict misfit_rec))
    (e_var : option Z) : float * option Z * Z :=
  fold_left (fun '(total_misfit, _, e) '(event, by_sta) =>
               let ev_msft :=
                 fold_left (fun ev_msft '(sta, r) =>
                              (ev_msft + msft r)%float) by_sta 0%float in
               ((total_misfit + ev_msft)%float, Some e, (e + 1)%Z))
            by_event (0%float, e_var, 0%Z).

(** The body of the loop over the steps of [model]. *)
Definition sum_misfits_step (model : string)
    (acc : dict (dict float) * option Z)
    (item : string * dict (dict misfit_rec))
  : result (dict (dict float) * option Z) :=
  let '(cmsft, e_var) := acc in
  let '(step, by_event) := item in
  let '(total_misfit, e_var, _) := enumerate_events by_event e_var in
  e <~ match e_var with
       | Some e => Ok e
       | None => Raise (UnboundLocalError "e")
       end ;;
  q <~ truediv_int total_misfit (e + 1) ;;
  by_step' <~ getitem model cmsft ;;
  Ok (dict_set model (dict_set step q by_step') cmsft, Some e).

(** [sum_misfits].  The local [e] of [enumerate] outlives its loop. *)
Definition sum_misfits (self : Inspector) : result (dict (dict float)) :=
  misfits <~ sort_by_model_misfits self ;;
  cmsft <~ dict_comp_items misfits (fun key by_step =>
             dict_comp_items by_step (fun step _ => Ok 0%float)) ;;
  r <~ foldM (fun acc '(model, by_step) =>
                foldM (sum_misfits_step model) by_step acc)
             misfits (cmsft, None) ;;
  Ok (fst r).

(** The body of the first loop of [exclude_events], for one key of
    [srcrcv]. *)
Definition exclude_step (coords : list float)
    (depth_min depth_max mag_min mag_max : option float)
    (starttime endtime : option Z)
    (events_outside : list string) (item : string * dict srcrcv_val)
  : result (list string) :=
  let '(event, rec) := item in
  if has_dot event then Ok events_outside
  else
    box <~ outside_box coords rec ;;
    if box then Ok (events_outside ++ [event])
    else if truthy depth_min || truthy depth_max then
      depth_m <~ coord_of "depth_m" rec ;;
      let source_depth := (depth_m * 0.001)%float in
      Ok (if outside_range depth_min depth_max source_depth
          then events_outside ++ [event] else events_outside)
    else if truthy mag_min || truthy mag_max then
      mag <~ coord_of "mag" rec ;;
      Ok (if outside_range mag_min mag_max mag
          then events_outside ++ [event] else events_outside)
    else match starttime, endtime with
         | None, None => Ok events_outside
         | _, _ =>
             t <~ (v <~ getitem "time" rec ;; as_str v) ;;
             let source_time := UTCDateTime ext t in
             let before := fun (bound : option Z) =>
               match bound with
               | Some b => (source_time <? b)%Z
               | None => false
               end in
             Ok (if before starttime then events_outside ++ [event]
                 else if before endtime then events_outside ++ [event]
                 else events_outside)
         end.

(** The first loop of [exclude_events]: the events to remove. *)
Definition events_outside (coords : list float)
    (depth_min depth_max mag_min mag_max : option float)
    (starttime endtime : option Z) (self : Inspector)
  : result (list string) :=
  foldM (exclude_step coords depth_min depth_max mag_min mag_max
                      starttime endtime)
        (srcrcv self) [].

(** [exclude_events] *)
Definition exclude_events (coords : option (list float))
    (depth_min depth_max mag_min mag_max : option float)
    (starttime endtime : option Z) : M Inspector unit :=
  let coords := match coords with
                | Some (c :: l) => c :: l
                | _ => []
                end in
  outside <- (fun self =>
                (self, events_outside coords depth_min depth_max
                                      mag_min mag_max starttime endtime
                                      self)) ;;
  for_each outside (fun event =>
    on_misfits (delitem event) ;;
    on_windows (delitem event) ;;
    on_srcrcv (delitem event)) ;;
  _get_info ;;
  _get_str ext.
End Reductions.

(* ================================================================== *)
(** ** Persistence *)

(** A JSON document.  [json.dump] writes a document and [json.load]
    reads the same document back; the text in between is the library's. *)
Inductive json : Type :=
| JNull
| JInt (z : Z)
| JFloat (f : float)
| JString (s : string)
| JArray (l : list json)
| JObject (items : list (string * json)).

(** The order of [sorted(dct.items())]: the keys of a dictionary are
    unique, so the items are ordered by their keys. *)
Definition key_lt {V} (a b : string * V) : bool := String.ltb (fst a) (fst b).

(** The document [json.dump(obj, f, sort_keys=True)] writes for the
    document of [obj]: the items of every object sorted by key. *)
Fixpoint sort_keys (j : json) : json :=
  match j with
  | JArray l => JArray (map sort_keys l)
  | JObject items =>
      JObject (sorted key_lt (map (fun '(k, v) => (k, sort_keys v)) items))
  | _ => j
  end.

(** The dictionary [json.load] builds from the items of an object: a key
    met again replaces the earlier value. *)
Definition from_items {V} (items : list (string * V)) : dict V :=
  fold_left (fun d '(k, v) => dict_set k v d) items [].

Fixpoint mapM {A B} (f : A -> option B) (l : list A) : option (list B) :=
  match l with
  | [] => Some []
  | x :: l' => match f x, mapM f l' with
               | Some y, Some ys => Some (y :: ys)
               | _, _ => None
               end
  end.

(** The documents of the values the Inspector holds, and the values of
    those documents. *)
Definition json_of_dict {A} (f : A -> json) (d : dict A) : json :=
  JObject (map (fun '(k, v) => (k, f v)) d).

Definition dict_of_json {A} (g : json -> option A) (j : json)
  : option (dict A) :=
  match j with
  | JObject items =>
      match mapM (fun '(k, x) => option_map (pair k) (g x)) items with
      | Some l => Some (from_items l)
      | None => None
      end
  | _ => None
  end.

Definition json_of_list {A} (f : A -> json) (l : list A) : json :=
  JArray (map f l).

Definition list_of_json {A} (g : json -> option A) (j : json)
  : option (list A) :=
  match j with
  | JArray l => mapM g l
  | _ => None
  end.

Definition float_of_json (j : json) : option float :=
  match j with
  | JFloat f => Some f
  | _ => None
  end.

Definition int_of_json (j : json) : option Z :=
  match j with
  | JInt z => Some z
  | _ => None
  end.

Definition str_of_json (j : json) : option string :=
  match j with
  | JString s => Some s
  | _ => None
  end.

Definition json_of_option {A} (f : A -> json) (o : option A) : json :=
  match o with
  | Some a => f a
  | None => JNull
  end.

Definition option_of_json {A} (g : json -> option A) (j : json)
  : option (option A) :=
  match j with
  | JNull => Some None
  | _ => option_map Some (g j)
  end.

Definition json_of_val (v : srcrcv_val) : json :=
  match v with
  | VFloat f => JFloat f
  | VStr s => JString s
  | VDict d => json_of_dict JFloat d
  end.

Definition val_of_json (j : json) : option srcrcv_val :=
  match j with
  | JFloat f => Some (VFloat f)
  | JString s => Some (VStr s)
  | JObject _ => option_map VDict (dict_of_json float_of_json j)
  | _ => None
  end.

Definition json_of_misfit (r : misfit_rec) : json :=
  JObject [("msft", JFloat (msft r)); ("nwin", JInt (nwin r))].

(** [j[key]] decoded by [g], for an object [j]. *)
Definition field {A} (g : json -> option A) (key : string) (j : json)
  : option A :=
  match j with
  | JObject items => match dict_get key (from_items items) with
                     | Some x => g x
                     | None => None
                     end
  | _ => None
  end.

Definition misfit_of_json (j : json) : option misfit_rec :=
  match field float_of_json "msft" j, field int_of_json "nwin" j with
  | Some m, Some n => Some {| msft := m; nwin := n |}
  | _, _ => None
  end.

Definition json_of_window (w : window_rec) : json :=
  let l := json_of_list JFloat in
  JObject [("cc_shift_sec", l (cc_shift_sec w)); ("dlna", l (dlna w));
           ("weight", l (weight w)); ("max_cc", l (max_cc w));
           ("length_s", l (length_s w)); ("rel_start", l (rel_start w));
           ("rel_end", l (rel_end w))].

Definition window_of_json (j : json) : option window_rec :=
  let l := fun key => field (list_of_json float_of_json) key j in
  match l "cc_shift_sec", l "dlna", l "weight", l "max_cc",
        l "length_s", l "rel_start", l "rel_end" with
  | Some a, Some b, Some c, Some d, Some e, Some f, Some g =>
      Some {| cc_shift_sec := a; dlna := b; weight := c; max_cc := d;
              length_s := e; rel_start := f; rel_end := g |}
  | _, _, _, _, _, _, _ => None
  end.

Definition json_of_srcrcv : srcrcv_t -> json :=
  json_of_dict (json_of_dict json_of_val).
Definition srcrcv_of_json : json -> option srcrcv_t :=
  dict_of_json (dict_of_json val_of_json).

Definition json_of_misfits : misfits_t -> json :=
  json_of_dict (json_of_dict (json_of_dict (json_of_dict json_of_misfit))).
Definition misfits_of_json : json -> option misfits_t :=
  dict_of_json (dict_of_json (dict_of_json (dict_of_json misfit_of_json))).

Definition json_of_windows : windows_t -> json :=
  json_of_dict (json_of_dict (json_of_dict (json_of_dict
    (json_of_dict json_of_window)))).
Definition windows_of_json : json -> option windows_t :=
  dict_of_json (dict_of_json (dict_of_json (dict_of_json
    (dict_of_json window_of_json)))).

Definition json_of_strings : list string -> json := json_of_list JString.
Definition strings_of_json : json -> option (list string) :=
  list_of_json str_of_json.

(** [getattr(self, v)], as the document [json.dump] makes of it. *)
Definition getattr (self : Inspector) (v : string) : result json :=
  if v =? "srcrcv" then Ok (json_of_srcrcv (srcrcv self))
  else if v =? "misfits" then Ok (json_of_misfits (misfits self))
  else if v =? "windows" then Ok (json_of_windows (windows self))
  else if v =? "_utm" then Ok (JInt (_utm self))
  else if v =? "_stations"
       then Ok (json_of_option json_of_strings (_stations self))
  else if v =? "_events"
       then Ok (json_of_option json_of_strings (_events self))
  else if v =? "_str" then Ok (json_of_option JString (_str self))
  else if v =? "_models"
       then Ok (json_of_option json_of_strings (_models self))
  else if v =? "_steps"
       then Ok (json_of_option (json_of_dict json_of_strings) (_steps self))
  else if v =? "_iterations" then Ok (JInt (_iterations self))
  else Raise TypeError.

(** [setattr(self, v, x)] for one of the three mappings.  The record
    holds a mapping of the shape the methods read; a document of another
    shape has no counterpart in it and is reported as [TypeError]. *)
Definition setattr (v : string) (x : json) : M Inspector unit := fun self =>
  let store {A} (o : option A) (f : A -> Inspector -> Inspector) :=
    match o with
    | Some a => (f a self, Ok tt)
    | None => (self, Raise TypeError)
    end in
  if v =? "srcrcv" then store (srcrcv_of_json x) with_srcrcv
  else if v =? "misfits" then store (misfits_of_json x) with_misfits
  else if v =? "windows" then store (windows_of_json x) with_windows
  else (self, Raise TypeError).

(** ['_' not in name] *)
Definition no_underscore (name : string) : bool :=
  negb (str_contains "_"%char name).

(** [os.path.join(path, name)] *)
Definition path_join (path name : string) : string :=
  if prefix "/" name then name
  else if (path =? "") || endswith path "/" then (path ++ name)%string
  else (path ++ "/" ++ name)%string.

(** The files, by path. *)
Definition files : Type := dict json.

(** [save]: the files after the call. *)
Definition save (tag path : string) (self : Inspector) (fs : files)
  : result files :=
  let variables := filter no_underscore vars_self in
  save_dict <~ foldM (fun save_dict v =>
                        x <~ getattr self v ;;
                        Ok (dict_set v x save_dict))
                     variables [] ;;
  Ok (dict_set (path_join path (tag ++ ".json")%string)
               (sort_keys (json_of_dict (fun x => x) save_dict)) fs).

(** [write] *)
Definition write (tag path : string) (self : Inspector) (fs : files)
  : result files :=
  save tag path self fs.

(** [loaded_variables[v]] *)
Definition json_getitem (v : string) (doc : json) : result json :=
  match doc with
  | JObject items => getitem v (from_items items)
  | _ => Raise TypeError
  end.

(** [load]: the status returned, 1 or 0. *)
Definition load (tag path : string) (fs : files) : M Inspector Z :=
  fun self =>
    let variables := filter no_underscore vars_self in
    let tag := if endswith tag ".json"
               then hd tag (split_on "."%char tag) else tag in
    match dict_get (path_join path (tag ++ ".json")%string) fs with
    | None => (self, Ok 0%Z)
    | Some loaded_variables =>
        match for_each variables
                (fun v => x <- lift (json_getitem v loaded_variables) ;;
                          setattr v x) self with
        | (self', Ok _) => (self', Ok 1%Z)
        | (self', Raise FileNotFoundError) => (self', Ok 0%Z)
        | (self', Raise e) => (self', Raise e)
        end
    end.

(* ================================================================== *)
(** ** Notions the properties are stated with *)

(** A sequence of [append] calls, each with its three flags; the status
    each returns is dropped, an exception [append] lets through ends the
    sequence. *)
Definition appends (ext : Externals)
    (calls : list (string * bool * bool * bool)) : M Inspector unit :=
  for_each calls (fun '(dsfid, w, s, m) =>
                    _ <- append ext dsfid w s m ;; ret tt).

(** Every station key of the misfit records. *)
Definition station_keys (d : misfits_t) : list string :=
  flat_map (fun '(_, by_model) =>
    flat_map (fun '(_, by_step) =>
      flat_map (fun '(_, by_sta) => dict_keys by_sta) by_step)
      by_model) d.

(** Every event that has [model] has [step] under it. *)
Definition steps_present (model step : string) (d : misfits_t) : bool :=
  forallb (fun '(_, by_model) =>
             match dict_get model by_model with
             | Some by_step => dict_in step by_step
             | None => true
             end) d.

(** [d[a][b]], [d[a][b][c]] and [d[a][b][c][e]] when all keys are there. *)
Definition lookup2 {X} (a b : string) (d : dict (dict X)) : option X :=
  match dict_get a d with
  | Some x => dict_get b x
  | None => None
  end.

Definition lookup3 {X} (a b c : string) (d : dict (dict (dict X)))
  : option X :=
  match dict_get a d with
  | Some x => lookup2 b c x
  | None => None
  end.

Definition lookup4 {X} (a b c e : string) (d : dict (dict (dict (dict X))))
  : option X :=
  match dict_get a d with
  | Some x => lookup3 b c e x
  | None => None
  end.

(* ================================================================== *)
(** ** Sample data *)

Definition sample_ext : Externals := {|
  pyasdf_ASDFDataSet := fun _ => Raise OSError;
  event_id := fun _ => "2018p130600";
  lonlat_utm := fun x y _ => (x, y);
  gps2dist_azimuth := fun _ _ _ _ => (0, 0, 0)%float;
  count_misfit_windows := fun _ _ _ => [("NZ.BFZ", 5%Z)];
  UTCDateTime := fun _ => 0%Z;
  gadget_methods := []
|}.

Definition sample_event (mag : float) : dict srcrcv_val :=
  [("lat", VFloat (-41)); ("lon", VFloat 175); ("depth_m", VFloat 20000);
   ("time", VStr "2018-02-18T07:43:48.0Z"); ("mag", VFloat mag);
   ("utm_x", VFloat 0); ("utm_y", VFloat 0);
   ("NZ.BFZ", VDict [("dist_km", 100%float); ("baz", 45%float)])].

Definition sample_station : dict srcrcv_val :=
  [("lat", VFloat (-40)); ("lon", VFloat 176); ("elv_m", VFloat 300);
   ("utm_x", VFloat 0); ("utm_y", VFloat 0)].

Definition sample_window (lengths : list float) : window_rec := {|
  cc_shift_sec := lengths; dlna := lengths; weight := lengths;
  max_cc := lengths; length_s := lengths; rel_start := lengths;
  rel_end := lengths |}.

(** Two events, of magnitudes 4.5 and 6.0, and one station; one model
    with one step. *)
Definition sample_index : Inspector := {|
  srcrcv := [("2018p130600", sample_event 4.5);
             ("NZ.BFZ", sample_station);
             ("2019p738432", sample_event 6)];
  misfits := [("2018p130600",
               [("m00", [("s00", [("NZ.BFZ", {| msft := 1; nwin := 3 |})])])]);
              ("2019p738432",
               [("m00", [("s00", [("NZ.BFZ", {| msft := 3; nwin := 2 |})])])])];
  windows := [("2018p130600",
               [("m00", [("s00", [("NZ.BFZ",
                   [("HHZ", sample_window [1.5%float; 2%float]);
                    ("HHN", sample_window [3%float])])])])]);
              ("2019p738432", [("m00", [("s00", [])])])];
  _utm := (-60)%Z;
  _stations := Some ["NZ.BFZ"];
  _events := Some ["2018p130600"; "2019p738432"];
  _str := None;
  _models := Some ["m00"];
  _steps := Some [("m00", ["s00"])];
  _iterations := 1
|}.

(** Two events under one model; the second lacks the step ["s01"]. *)
Definition partial_steps : Inspector :=
  with_misfits
    [("2018p130600",
      [("m00", [("s00", [("NZ.BFZ", {| msft := 1; nwin := 3 |})]);
                ("s01", [("NZ.BFZ", {| msft := 2; nwin := 3 |})])])]);
     ("2019p738432",
      [("m00", [("s00", [("NZ.BFZ", {| msft := 3; nwin := 2 |})])])])]
    sample_index.

(** Two events; the second lacks the model ["m01"]. *)
Definition partial_models : Inspector :=
  with_misfits
    [("2018p130600",
      [("m00", [("s00", [("NZ.BFZ", {| msft := 1; nwin := 3 |})])]);
       ("m01", [("s00", [("NZ.BFZ", {| msft := 2; nwin := 3 |})])])]);
     ("2019p738432",
      [("m00", [("s00", [("NZ.BFZ", {| msft := 3; nwin := 2 |})])])])]
    sample_index.

(** Some key of [srcrcv] is an event: it has no ["."]. *)
Definition has_event (self : Inspector) : bool :=
  existsb (fun key => negb (has_dot key)) (dict_keys (srcrcv self)).

(** Every event of [srcrcv] has a number under ["lat"]. *)
Definition events_have_lat (self : Inspector) : bool :=
  forallb (fun '(key, rec) =>
             has_dot key || match coord_of "lat" rec with
                            | Ok _ => true
                            | Raise _ => false
                            end) (srcrcv self).

(** The total misfit of one event: the sum of its stations' misfits. *)
Definition event_total (by_sta : dict misfit_rec) : float :=
  fold_left PrimFloat.add (map (fun kv => msft (snd kv)) by_sta) 0%float.

(** The sum of the totals of the events of a view, over their number. *)
Definition aggregate_misfit (by_event : dict (dict misfit_rec)) : float :=
  (fold_left PrimFloat.add (map (fun kv => event_total (snd kv)) by_event)
             0%float
   / Z2float (Z.of_nat (length by_event)))%float.

(** Every (model, step) of a view has an event. *)
Definition nonempty_views {X} (view : dict (dict (dict X))) : bool :=
  forallb (fun '(_, by_step) =>
             forallb (fun '(_, by_event) =>
                        match by_event with
                        | [] => false
                        | _ => true
                        end) by_step) view.

(** The channels of the events and stations of one (model, step). *)
Definition channel_items (by_event : dict (dict (dict window_rec)))
  : list (string * window_rec) :=
  flat_map (fun '(_, by_sta) => flat_map (fun '(_, by_cha) => by_cha) by_sta)
           by_event.

(** All window lengths of one (model, step), and the number of its
    windows: of the entries each channel lists. *)
Definition window_lengths (by_event : dict (dict (dict window_rec)))
  : list float :=
  flat_map (fun kv => length_s (snd kv)) (channel_items by_event).

Definition window_count (by_event : dict (dict (dict window_rec))) : Z :=
  Z.of_nat (length (flat_map (fun kv => dlna (snd kv))
                             (channel_items by_event))).

(** [d'] is [d] with [x] under [m], [s] and nothing else changed. *)
Definition updated {X} (m s : string) (x : X) (d d' : dict (dict X)) : Prop :=
  lookup2 m s d' = Some x
  /\ forall m' s', m' <> m \/ s' <> s -> lookup2 m' s' d' = lookup2 m' s' d.

(** What the body of the innermost loop of [measurements] does to each
    of its two tables. *)
Definition add_lengths (model step : string) (cum : dict (dict float))
    (item : string * window_rec) : result (dict (dict float)) :=
  foldM (fun cum length => update2 model step (fun c => c + length)%float cum)
        (length_s (snd item)) cum.

Definition add_count (model step : string) (num : dict (dict Z))
    (item : string * window_rec) : result (dict (dict Z)) :=
  update2 model step (fun n => n + Z.of_nat (length (dlna (snd item))))%Z num.

(** ** The order of binary64 numbers

    The numbers other than NaN are ordered as the triples [sf_key] makes
    of them, compared component by component. *)
Definition sf_key (f : spec_float) : Z * Z * Z :=
  match f with
  | S754_zero _ => (0, 0, 0)%Z
  | S754_infinity s => ((if s then -2 else 2), 0, 0)%Z
  | S754_nan => (0, 0, 0)%Z
  | S754_finite s m e =>
      if s then (-1, - e, Z.neg m)%Z else (1, e, Z.pos m)%Z
  end.

Definition lex_compare (a b : Z * Z * Z) : comparison :=
  let '(c1, e1, m1) := a in
  let '(c2, e2, m2) := b in
  match (c1 ?= c2)%Z with
  | Eq => match (e1 ?= e2)%Z with
          | Eq => (m1 ?= m2)%Z
          | r => r
          end
  | r => r
  end.

Definition fcmp (x y : float) : comparison :=
  lex_compare (sf_key (Prim2SF x)) (sf_key (Prim2SF y)).

(** [x <= y] on the values of two entries. *)
Definition value_le (a b : float * info_t) : Prop :=
  (fst a <=? fst b)%float = true.

(** No value of the list is NaN. *)
Definition no_nan (l : list float) : bool :=
  forallb (fun x => negb (is_nan x)) l.

(** The measurement kinds a window record holds. *)
Definition valid_choice (choice : string) : bool :=
  str_in choice ["cc_shift_sec"; "dlna"; "weight"; "max_cc"; "length_s";
                 "rel_start"; "rel_end"].

Definition window_field (choice : string) (w : window_rec) : list float :=
  match window_getitem choice w with
  | Ok l => l
  | Raise _ => []
  end.

(** The values of kind [choice] of one (model, step), each with its
    (event, station, component), in the order of the mapping. *)
Definition window_entries (choice : string)
    (windows : dict (dict (dict window_rec))) : list (float * info_t) :=
  flat_map (fun '(event, by_sta) =>
    flat_map (fun '(sta, by_comp) =>
      flat_map (fun '(comp, w) =>
                  map (fun v => (v, (event, sta, comp)))
                      (window_field choice w))
               by_comp)
      by_sta) windows.

Definition is_empty {A} (l : list A) : bool :=
  match l with
  | [] => true
  | _ => false
  end.

(** Three values under three (event, station, component) tuples. *)
Definition cosort_index : Inspector :=
  with_windows
    [("e1", [("m00", [("s00", [("s1", [("c1", sample_window [0.3%float])])])])]);
     ("e2", [("m00", [("s00", [("s2", [("c2", sample_window [(-0.1)%float])])])])]);
     ("e3", [("m00", [("s00", [("s3", [("c3", sample_window [0.2%float])])])])])]
    sample_index.

(** A (model, step) without any window. *)
Definition no_windows : Inspector :=
  with_windows [("e1", [("m00", [("s00", [])])])] sample_index.

(** ** Statements on a part of an object

    [focus get put m] runs the statement [m] on the part [get] reads and
    [put] writes back; [zoom] and [on_misfits] are instances. *)
Definition focus {S V A} (get : S -> result V) (put : V -> S -> S)
    (m : M V A) : M S A := fun s =>
  match get s with
  | Raise e => (s, Raise e)
  | Ok v => let '(v', r) := m v in (put v' s, r)
  end.

Record lens_ok {S V} (get : S -> result V) (put : V -> S -> S) : Prop := {
  get_put : forall s v v', get s = Ok v -> get (put v' s) = Ok v';
  put_put : forall s v v' v'', get s = Ok v -> put v'' (put v' s) = put v'' s;
  put_get : forall s v, get s = Ok v -> put v s = s
}.

Definition get_in {S V W} (get1 : S -> result V) (get2 : V -> result W)
    (s : S) : result W :=
  v <~ get1 s ;; get2 v.

Definition put_in {S V W} (get1 : S -> result V) (put1 : V -> S -> S)
    (put2 : W -> V -> V) (w : W) (s : S) : S :=
  match get1 s with
  | Ok v => put1 (put2 w v) s
  | Raise _ => s
  end.

(** The parts of [self.misfits] the loops of [get_misfits] work on. *)
Definition get_event (eid : string) (self : Inspector) :=
  getitem eid (misfits self).
Definition put_event (eid : string) v (self : Inspector) :=
  with_misfits (dict_set eid v (misfits self)) self.

Definition get_model (eid model : string) :=
  get_in (get_event eid) (getitem model).
Definition put_model (eid model : string) :=
  put_in (get_event eid) (put_event eid) (dict_set model).

Definition get_step (eid model step : string) :=
  get_in (get_model eid model) (getitem step).
Definition put_step (eid model step : string) :=
  put_in (get_model eid model) (put_model eid model) (dict_set step).

(** The raw misfit contributions of a station among the adjoint sources
    of one step, in order. *)
Definition contributions (sta : string) (stations : list AdjointSource)
  : list float :=
  map misfit_value
      (filter (fun station => station_id station =? sta) stations).

(** The record kept for a station with [n] windows. *)
Definition scaled_misfit (sta : string) (stations : list AdjointSource)
    (n : Z) : misfit_rec :=
  {| msft := (fold_left PrimFloat.add (contributions sta stations) 0
              / Z2float (2 * n))%float;
     nwin := n |}.

Definition scale (r : misfit_rec) : misfit_rec :=
  {| msft := (msft r / Z2float (2 * nwin r))%float; nwin := nwin r |}.

(** The table of one step, as the two loops of [get_misfits] fill it. *)
Definition step_table (num_win : dict Z) (stations : list AdjointSource)
  : dict misfit_rec :=
  let d := fst (for_each stations (add_misfit num_win) []) in
  fst (for_each (dict_keys d) (fun sta_id => zoom sta_id scale_misfit) d).

Fixpoint unique (l : list string) : bool :=
  match l with
  | [] => true
  | x :: l' => negb (str_in x l') && unique l'
  end.

(** A dataset [get_misfits] ingests whole: the names of its models, and
    of the steps of each, are distinct, and every station with an adjoint
    source has a window count that is not zero. *)
Definition counted (num_win : dict Z) (stations : list AdjointSource) : bool :=
  forallb (fun station =>
             match dict_get (station_id station) num_win with
             | Some n => negb (n =? 0)%Z
             | None => false
             end) stations.

Definition wf_adjoint (ext : Externals) (ds : ASDFDataSet) : bool :=
  unique (dict_keys (AdjointSources ds))
  && forallb (fun '(model, steps) =>
                unique (dict_keys steps)
                && forallb (fun '(step, stations) =>
                              counted (count_misfit_windows ext ds model step)
                                      stations) steps)
             (AdjointSources ds).

(** A dataset with two adjoint sources of one station, of raw misfits
    2.0 and 3.0; [sample_ext] counts 5 windows for the station. *)
Definition sample_ds : ASDFDataSet := {|
  ds_events := [];
  get_all_coordinates := [];
  AdjointSources :=
    [("m00", [("s00", [{| station_id := "NZ.BFZ"; misfit_value := 2 |};
                       {| station_id := "NZ.BFZ"; misfit_value := 3 |}])])];
  MisfitWindows := []
|}.

(** The tables [get_misfits] builds for one model and for one event. *)
Definition model_table (ext : Externals) (ds : ASDFDataSet) (model : string)
    (steps : dict (list AdjointSource)) : dict (dict misfit_rec) :=
  fold_left (fun out '(step, stations) =>
               dict_set step
                 (step_table (count_misfit_windows ext ds model step) stations)
                 out)
            steps [].

Definition event_table (ext : Externals) (ds : ASDFDataSet)
  : dict (dict (dict misfit_rec)) :=
  fold_left (fun out '(model, steps) =>
               dict_set model (model_table ext ds model steps) out)
            (AdjointSources ds) [].

(** ** Equality of mappings

    Two dictionaries are equal, as Python compares them, when they have
    the same keys and equal values under each; the order of the keys
    does not count. *)
Definition dict_eqv {V} (R : V -> V -> Prop) (d1 d2 : dict V) : Prop :=
  forall k, match dict_get k d1, dict_get k d2 with
            | Some a, Some b => R a b
            | None, None => True
            | _, _ => False
            end.

Definition val_eqv (v1 v2 : srcrcv_val) : Prop :=
  match v1, v2 with
  | VFloat a, VFloat b => a = b
  | VStr a, VStr b => a = b
  | VDict a, VDict b => dict_eqv eq a b
  | _, _ => False
  end.

Definition srcrcv_eqv : srcrcv_t -> srcrcv_t -> Prop :=
  dict_eqv (dict_eqv val_eqv).
Definition misfits_eqv : misfits_t -> misfits_t -> Prop :=
  dict_eqv (dict_eqv (dict_eqv (dict_eqv eq))).
Definition windows_eqv : windows_t -> windows_t -> Prop :=
  dict_eqv (dict_eqv (dict_eqv (dict_eqv (dict_eqv eq)))).

(** The keys of a dictionary are unique, at every level. *)
Definition wf_dict {V} (wfv : V -> bool) (d : dict V) : bool :=
  unique (dict_keys d) && forallb (fun kv => wfv (snd kv)) d.

Definition wf_val (v : srcrcv_val) : bool :=
  match v with
  | VDict d => wf_dict (fun _ => true) d
  | _ => true
  end.

Definition wf_leaf {V} (_ : V) : bool := true.

Definition wf_index (self : Inspector) : bool :=
  wf_dict (wf_dict wf_val) (srcrcv self)
  && wf_dict (wf_dict (wf_dict (wf_dict wf_leaf))) (misfits self)
  && wf_dict (wf_dict (wf_dict (wf_dict (wf_dict wf_leaf)))) (windows self).

(** Three values, the second of them NaN. *)
Definition nan_index : Inspector :=
  with_windows
    [("e1", [("m00", [("s00", [("s1", [("c1", sample_window [2%float])])])])]);
     ("e2", [("m00", [("s00", [("s2", [("c2", sample_window [nan])])])])]);
     ("e3", [("m00", [("s00", [("s3", [("c3", sample_window [1%float])])])])])]
    sample_index.

(** The events that have records under [m] and [s], each with these
    records, in the order of the mapping. *)
Definition events_of {V} (m s : string) (d : dict (dict (dict V)))
  : dict V :=
  flat_map (fun '(e, by_model) =>
              match lookup2 m s by_model with
              | Some x => [(e, x)]
              | None => []
              end) d.

(* ================================================================== *)
(** ** More methods of [Inspector] *)

(** [event_info] *)
Definition event_info (choice : string) (self : Inspector)
  : result (dict srcrcv_val) :=
  if negb (str_in choice ["depth_m"; "lat"; "lon"; "mag"; "time";
                          "utm_x"; "utm_y"])
  then Raise AssertionError
  else
    foldM (fun info '(event, rec) =>
             match getitem choice rec with
             | Ok v => Ok (dict_set event v info)
             | Raise (KeyError _) => Ok info
             | Raise e => Raise e
             end)
          (srcrcv self) [].

(** The properties [mags], [times] and [depths] *)
Definition mags (self : Inspector) := event_info "mag" self.
Definition times (self : Inspector) := event_info "time" self.
Definition depths (self : Inspector) := event_info "depth_m" self.

(** [window_values] *)
Definition window_values (model step choice : string) (self : Inspector)
  : result (list float) :=
  if negb (str_in choice ["cc_shift_sec"; "dlna"; "max_cc"; "length_s";
                          "weight"; "rel_start"; "rel_end"])
  then Raise AssertionError
  else
    windows <~ sort_by_model_windows self ;;
    by_event <~ (by_step <~ getitem model windows ;; getitem step by_step) ;;
    over_channels (fun ret '(cha, w) =>
                     vals <~ window_getitem choice w ;; Ok (ret ++ vals))
                  by_event [].

(** Truth value of an optional string argument: [None] and [""] are
    false. *)
Definition truthy_str (o : option string) : bool :=
  match o with
  | Some s => negb (s =? "")
  | None => false
  end.

(** [a != b] for an argument that is given. *)
Definition differs (o : option string) (x : string) : bool :=
  match o with
  | Some s => negb (x =? s)
  | None => false
  end.

(** [<] on lists of floats: the first two elements that are not equal
    decide, and a proper prefix is smaller. *)
Fixpoint floats_lt (l1 l2 : list float) : bool :=
  match l1, l2 with
  | [], [] => false
  | [], _ :: _ => true
  | _ :: _, [] => false
  | x :: l1', y :: l2' =>
      if (x =? y)%float then floats_lt l1' l2' else (x <? y)%float
  end.

Definition stat_t : Type := Z * string * list float.

(** [<] on the triples [(nwin, event, msftval)] of [event_stats]. *)
Definition stat_lt (a b : stat_t) : bool :=
  let '(n1, e1, l1) := a in
  let '(n2, e2, l2) := b in
  if (n1 =? n2)%Z
  then (if e1 =? e2 then floats_lt l1 l2 else String.ltb e1 e2)
  else (n1 <? n2)%Z.

(** The loops of [event_stats] over the stations and components of one
    event: the values gathered and their number. *)
Definition event_measurements (choice : string) (sta_code : option string)
    (by_sta : dict (dict window_rec)) : result (list float * Z) :=
  foldM (fun acc sta =>
           if truthy_str sta_code && differs sta_code sta then Ok acc
           else
             by_comp <~ getitem sta by_sta ;;
             foldM (fun '(misfit, nwin) comp =>
                      w <~ getitem comp by_comp ;;
                      vals <~ window_getitem choice w ;;
                      vals' <~ window_getitem choice w ;;
                      Ok (misfit ++ vals, (nwin + Z.of_nat (length vals'))%Z))
                   (dict_keys by_comp) acc)
        (dict_keys by_sta) ([], 0%Z).

(** [nwins, events, msftval = zip( *zipped )] *)
Definition unzip_stats (l : list stat_t)
  : result (list string * list Z * list (list float)) :=
  match l with
  | [] => Raise ValueError
  | _ => Ok (map (fun t => snd (fst t)) l, map (fun t => fst (fst t)) l,
             map snd l)
  end.

(** The values of kind [choice] that the window records [by_sta] of one
    event hold for the stations selected, station by station and
    component by component. *)
Definition event_values (choice : string) (sta_code : option string)
    (by_sta : dict (dict window_rec)) : list float :=
  flat_map (fun sta =>
              if truthy_str sta_code && differs sta_code sta then []
              else match dict_get sta by_sta with
                   | Some by_comp =>
                       flat_map (fun comp =>
                                   match dict_get comp by_comp with
                                   | Some w => window_field choice w
                                   | None => []
                                   end) (dict_keys by_comp)
                   | None => []
                   end)
           (dict_keys by_sta).

(** The triple of one event: the number of its values, its id, and the
    values. *)
Definition event_stat (choice : string) (sta_code : option string)
    (windows : dict (dict (dict window_rec))) (event : string) : stat_t :=
  let vals := match dict_get event windows with
              | Some by_sta => event_values choice sta_code by_sta
              | None => []
              end in
  (Z.of_nat (length vals), event, vals).

(** [event_stats]; [print_choice] is the function given to reduce the
    values of an event for the line printed, and what is printed is not
    kept. *)
Definition event_stats (model step choice : string)
    (sta_code eventid : option string)
    (print_choice : list float -> result float) (self : Inspector)
  : result (list string * list Z * list (list float)) :=
  by_model <~ sort_by_model_windows self ;;
  misfits <~ (by_step <~ getitem model by_model ;; getitem step by_step) ;;
  zipped <~ foldM (fun zipped event =>
                     if truthy_str eventid && differs eventid event
                     then Ok zipped
                     else
                       by_sta <~ getitem event misfits ;;
                       '(misfit, nwin) <~
                         event_measurements choice sta_code by_sta ;;
                       Ok (zipped ++ [(nwin, event, misfit)]))
                  (dict_keys misfits) [] ;;
  '(events, nwins, msftval) <~ unzip_stats (sorted stat_lt zipped) ;;
  _ <~ foldM (fun _ msft => _ <~ print_choice msft ;; Ok tt) msftval tt ;;
  Ok (events, nwins, msftval).

(** The loop of [__init__] over the datasets found: [status] is the one
    of the last call of [append]. *)
Fixpoint append_all (ext : Externals) (dsfids : list string)
    (windows srcrcv misfits : bool) (status : Z) : M Inspector Z :=
  match dsfids with
  | [] => ret status
  | dsfid :: rest =>
      status <- append ext dsfid windows srcrcv misfits ;;
      append_all ext rest windows srcrcv misfits status
  end.

(** [__init__]: the Inspector made, or the exception.  [fs] holds the
    files [load] reads and [glob] lists the datasets of a path. *)
Definition __init__ (ext : Externals) (fs : files)
    (glob : string -> list string) (tag path : option string)
    (misfits srcrcv windows : bool) (utm : Z) : Inspector * result unit :=
  (status <- match tag, path with
             | Some tag, _ => load tag "./" fs
             | None, Some path =>
                 append_all ext (glob path) windows srcrcv misfits 0%Z
             | None, None => ret 0%Z
             end ;;
   if (status =? 0)%Z then ret tt
   else _get_info ;; _get_str ext) (new_Inspector utm).

(** ** What a statement keeps *)

(** The statement [m] keeps [P]: when [P] holds of the object before
    [m], it holds after it, whether [m] returns or raises. *)
Definition keeps {S A} (P : S -> Prop) (m : M S A) : Prop :=
  forall s, P s -> P (fst (m s)).

(** [P] holds of every value of the mapping. *)
Definition all_vals {V} (P : V -> Prop) (d : dict V) : Prop :=
  forall k v, In (k, v) d -> P v.

(** The seven lists of a window record have the same length. *)
Definition aligned (w : window_rec) : bool :=
  let n := length (cc_shift_sec w) in
  (length (dlna w) =? n)%nat && (length (weight w) =? n)%nat
  && (length (max_cc w) =? n)%nat && (length (length_s w) =? n)%nat
  && (length (rel_start w) =? n)%nat && (length (rel_end w) =? n)%nat.

(** [p] holds of every value of the mapping, as a test. *)
Definition all_valsb {V} (p : V -> bool) (d : dict V) : bool :=
  forallb (fun kv => p (snd kv)) d.

(** Every window record of [self.windows] is aligned. *)
Definition windows_aligned (d : windows_t) : bool :=
  all_valsb (all_valsb (all_valsb (all_valsb (all_valsb aligned)))) d.

(** The attributes other than the three mappings. *)
Definition derived (self : Inspector) :=
  (_utm self, _stations self, _events self, _str self, _models self,
   _steps self, _iterations self).

(** ** A dataset that can be read

    One event and two stations, one adjoint source and two windows of
    one channel; [reading_ext] opens it under one file name only. *)
Definition sample_full_ds : ASDFDataSet := {|
  ds_events :=
    [{| preferred_origin := {| latitude := (-41.5)%float;
                               longitude := 174%float;
                               depth := 15000%float;
                               time := "2018-02-18T07:43:48.0Z" |};
        preferred_magnitude := 5%float |}];
  get_all_coordinates :=
    [("NZ.BFZ", {| coord_latitude := (-39)%float;
                   coord_longitude := 177%float;
                   elevation_in_m := 10%float |});
     ("NZ.KNZ", {| coord_latitude := (-39.5)%float;
                   coord_longitude := 177.5%float;
                   elevation_in_m := 20%float |})];
  AdjointSources :=
    [("m00", [("s00", [{| station_id := "NZ.BFZ"; misfit_value := 2 |}])])];
  MisfitWindows :=
    [("m00", [("s00", [{| channel_id := "NZ.BFZ..HHZ"; dlnA := 0.5%float;
                          window_weight := 1%float; max_cc_value := 0.9%float;
                          relative_starttime := 10%float;
                          relative_endtime := 30%float;
                          cc_shift_in_seconds := 1.5%float |};
                       {| channel_id := "NZ.BFZ..HHZ"; dlnA := 0.25%float;
                          window_weight := 2%float; max_cc_value := 0.8%float;
                          relative_starttime := 40%float;
                          relative_endtime := 50%float;
                          cc_shift_in_seconds := (-0.5)%float |}])])]
|}.

Definition reading_ext : Externals := {|
  pyasdf_ASDFDataSet := fun dsfid =>
    if dsfid =? "2018p130600.h5" then Ok sample_full_ds else Raise OSError;
  event_id := fun _ => "2018p130600";
  lonlat_utm := fun x y _ => (x, y);
  gps2dist_azimuth := fun _ _ _ _ => (0, 0, 0)%float;
  count_misfit_windows := fun _ _ _ => [("NZ.BFZ", 5%Z)];
  UTCDateTime := fun _ => 0%Z;
  gadget_methods := []
|}.

(** The stations of [stas] that [d] knows have numbers under ["lat"]
    and ["lon"]. *)
Definition located (stas : list string) (d : srcrcv_t) : bool :=
  forallb (fun sta =>
             match dict_get sta d with
             | Some r => match coord_of "lat" r, coord_of "lon" r with
                         | Ok _, Ok _ => true
                         | _, _ => false
                         end
             | None => true
             end) stas.

(** What [get_srcrcv] leaves in [after] for the station [sta] of a
    dataset whose event [eid] lies at ([lat], [lon]): the station has a
    record with coordinates, those of the dataset when [before] did not
    know the station, and the event's record links to the station with
    the distance in km and the backazimuth, computed from the
    coordinates the station's record holds. *)
Definition linked (ext : Externals) (lat lon : float) (eid sta : string)
    (info : Coordinates) (before after : srcrcv_t) : Prop :=
  exists lat2 lon2,
    lookup2 sta "lat" after = Some (VFloat lat2)
    /\ lookup2 sta "lon" after = Some (VFloat lon2)
    /\ (dict_in sta before = false ->
        lat2 = coord_latitude info /\ lon2 = coord_longitude info)
    /\ lookup2 eid sta after
       = Some (VDict
                 [("dist_km",
                   (fst (fst (gps2dist_azimuth ext lat lon lat2 lon2))
                    * 0.001)%float);
                  ("baz", snd (gps2dist_azimuth ext lat lon lat2 lon2))]).

(** ** The windows of a channel *)

(** The station and the component a window is filed under: the channel
    id [NN.SSS.LL.CCC] gives [NN.SSS] and [CCC]. *)
Definition channel_of (w : MisfitWindow) : option (string * string) :=
  match split_on "."%char (channel_id w) with
  | [net; sta; loc; cha] => Some ((net ++ "." ++ sta)%string, cha)
  | _ => None
  end.

(** The windows of [wins] filed under a station and a component, in
    order. *)
Definition windows_of (sta_id cha : string) (wins : list MisfitWindow)
  : list MisfitWindow :=
  filter (fun w => match channel_of w with
                   | Some (s, c) => (s =? sta_id) && (c =? cha)
                   | None => false
                   end) wins.

(** The record [r] with the measurements of the windows [ws] appended. *)
Definition extend_window (r : window_rec) (ws : list MisfitWindow)
  : window_rec := {|
  cc_shift_sec := cc_shift_sec r ++ map cc_shift_in_seconds ws;
  dlna := dlna r ++ map dlnA ws;
  weight := weight r ++ map window_weight ws;
  max_cc := max_cc r ++ map max_cc_value ws;
  length_s := length_s r
              ++ map (fun w => (relative_endtime w
                                - relative_starttime w)%float) ws;
  rel_start := rel_start r ++ map relative_starttime ws;
  rel_end := rel_end r ++ map relative_endtime ws |}.

(** The record of the windows [ws] alone. *)
Definition record_of (ws : list MisfitWindow) : window_rec :=
  extend_window empty_window ws.

(** A dataset [get_windows] ingests whole: the names of its models, and
    of the steps of each, are distinct, and every channel id has four
    parts. *)
Definition wf_windows (ds : ASDFDataSet) : bool :=
  unique (dict_keys (MisfitWindows ds))
  && forallb (fun '(model, steps) =>
                unique (dict_keys steps)
                && forallb (fun '(step, wins) =>
                              forallb (fun w => match channel_of w with
                                                | Some _ => true
                                                | None => false
                                                end) wins) steps)
             (MisfitWindows ds).

(** The tables [get_windows] builds for one step, one model and one
    event. *)
Definition step_windows (wins : list MisfitWindow)
  : dict (dict window_rec) :=
  fst (for_each wins add_window []).

Definition model_windows (steps : dict (list MisfitWindow))
  : dict (dict (dict window_rec)) :=
  fold_left (fun out '(step, wins) => dict_set step (step_windows wins) out)
            steps [].

Definition event_windows (ds : ASDFDataSet)
  : dict (dict (dict (dict window_rec))) :=
  fold_left (fun out '(model, steps) =>
               dict_set model (model_windows steps) out)
            (MisfitWindows ds) [].

(** Two events; only the second has the step ["s01"] of the model. *)
Definition late_step : Inspector :=
  with_misfits
    [("2018p130600",
      [("m00", [("s00", [("NZ.BFZ", {| msft := 1; nwin := 3 |})])])]);
     ("2019p738432",
      [("m00", [("s00", [("NZ.BFZ", {| msft := 3; nwin := 2 |})]);
                ("s01", [("NZ.BFZ", {| msft := 5; nwin := 2 |})])])])]
    sample_index.

(* ================================================================== *)
(** * Properties *)

(** ** Axis metadata *)

Lemma get_info_lists (keys : list string) (ev st : list string) :
  fold_left (fun '(events, stations) key =>
               if has_dot key then (events, stations ++ [key])
               else (events ++ [key], stations)) keys (ev, st)
  = (ev ++ filter (fun k => negb (has_dot k)) keys,
     st ++ filter has_dot keys).
Proof.
  revert ev st.
  induction keys as [|k keys IH]; intros ev st; simpl.
  - now rewrite !app_nil_r.
  - destruct (has_dot k); simpl; rewrite IH, <- ?app_assoc; reflexivity.
Qed.

Lemma get_info_events_stations (self : Inspector) :
  _events (fst (_get_info self))
  = Some (filter (fun k => negb (has_dot k)) (dict_keys (srcrcv self)))
  /\ _stations (fst (_get_info self))
     = Some (filter has_dot (dict_keys (srcrcv self)))
  /\ srcrcv (fst (_get_info self)) = srcrcv self.
Proof.
  unfold _get_info.
  rewrite get_info_lists. simpl.
  match goal with
  | |- context [match ?r with Ok _ => _ | Raise _ => _ end] => destruct r as [[[? ?] ?]|]
  end; simpl; auto.
Qed.

(** C9.  After any sequence of [append] calls, [_get_info] leaves in the
    event list exactly the keys of [srcrcv] without a ["."] and in the
    station list exactly those with one: no event key has a ["."], every
    station key has one, and each key of [srcrcv] is in one of the two
    lists by that test alone. *)
Theorem get_info_partition (ext : Externals)
    (calls : list (string * bool * bool * bool)) (self0 : Inspector) :
  let self := fst (appends ext calls self0) in
  let self' := fst (_get_info self) in
  exists events stations,
    _events self' = Some events /\ _stations self' = Some stations
    /\ Forall (fun key => has_dot key = false) events
    /\ Forall (fun key => has_dot key = true) stations
    /\ events = filter (fun k => negb (has_dot k)) (dict_keys (srcrcv self))
    /\ stations = filter has_dot (dict_keys (srcrcv self))
    /\ (forall key, In key (dict_keys (srcrcv self)) ->
                    (has_dot key = false /\ In key events)
                    \/ (has_dot key = true /\ In key stations)).
Proof.
  intros self self'.
  destruct (get_info_events_stations self) as (He & Hs & _).
  do 2 eexists. split; [exact He|]. split; [exact Hs|].
  repeat split.
  - apply Forall_forall. intros k Hk. apply filter_In in Hk.
    destruct Hk as [_ Hk]. now destruct (has_dot k).
  - apply Forall_forall. intros k Hk. apply filter_In in Hk. tauto.
  - intros key Hin. destruct (has_dot key) eqn:E.
    + right. split; [reflexivity|]. apply filter_In. auto.
    + left. split; [reflexivity|]. apply filter_In. rewrite E. auto.
Qed.

(** ** Loops and dictionaries: basic facts *)

Lemma foldM_skip {A B} (f : B -> A -> result B) (xs : list A) (b : B) :
  (forall x, In x xs -> f b x = Ok b) -> foldM f xs b = Ok b.
Proof.
  induction xs as [|x xs IH]; intros H; simpl; [reflexivity|].
  rewrite H by (now left). simpl. apply IH. intros y Hy. apply H. now right.
Qed.

Lemma foldM_app {A B} (f : B -> A -> result B) (xs ys : list A) (b : B) :
  foldM f (xs ++ ys) b = (b' <~ foldM f xs b ;; foldM f ys b').
Proof.
  revert b. induction xs as [|x xs IH]; intros b; simpl; [reflexivity|].
  destruct (f b x); simpl; auto.
Qed.

Lemma dict_get_In {V} (k : string) (v : V) (d : dict V) :
  dict_get k d = Some v -> In (k, v) d.
Proof.
  induction d as [|[k' v'] d IH]; simpl; [discriminate|].
  destruct (String.eqb_spec k k') as [->|Hne].
  - intros [= ->]. now left.
  - intros H. right. auto.
Qed.

Lemma dict_get_None {V} (k : string) (d : dict V) :
  dict_get k d = None <-> ~ In k (dict_keys d).
Proof.
  induction d as [|[k' v'] d IH]; simpl; [tauto|].
  destruct (String.eqb_spec k k') as [->|Hne].
  - split; [discriminate|]. intros H. exfalso. apply H. now left.
  - rewrite IH. split; intros H; [intros [E|E]; [congruence|tauto]|tauto].
Qed.

Lemma dict_get_Some_key {V} (k : string) (v : V) (d : dict V) :
  dict_get k d = Some v -> In k (dict_keys d).
Proof.
  intros H. apply dict_get_In in H. apply (in_map fst) in H. exact H.
Qed.

Lemma str_in_false (x : string) (l : list string) :
  str_in x l = false -> ~ In x l.
Proof.
  unfold str_in. intros H Hin.
  assert (existsb (String.eqb x) l = true) as E
      by (apply existsb_exists; exists x; split; [exact Hin|apply String.eqb_refl]).
  congruence.
Qed.

Lemma in_first_split (x : string) (l : list string) :
  In x l -> exists l1 l2, l = l1 ++ x :: l2 /\ ~ In x l1.
Proof.
  induction l as [|k l IH]; intros Hin; [destruct Hin|].
  destruct (String.eqb_spec k x) as [->|Hne].
  - exists [], l. split; [reflexivity|]. intros [].
  - destruct Hin as [E|Hin]; [congruence|].
    destruct (IH Hin) as (a & b & E' & Hn).
    exists (k :: a), b. split; [now rewrite E'|].
    intros [H|H]; [congruence|tauto].
Qed.

(** ** [misfit_values] *)

(** The loop over the models of one event. *)
Lemma misfit_values_event (model step : string)
    (by_model : dict (dict (dict misfit_rec))) (acc : list float) :
  (forall by_step by_sta,
      dict_get model by_model = Some by_step ->
      dict_get step by_step = Some by_sta ->
      ~ In step (dict_keys by_sta)) ->
  foldM (fun misfit model_ =>
           if negb (model_ =? model) then Ok misfit
           else
             by_sta <~ (by_step <~ getitem model by_model ;;
                        getitem step by_step) ;;
             foldM (fun misfit step_ =>
                      if negb (step_ =? step) then Ok misfit
                      else
                        foldM (fun misfit sta =>
                                 r <~ getitem sta by_sta ;;
                                 Ok (misfit ++ [msft r]))
                              (dict_keys by_sta) misfit)
                   (dict_keys by_sta) misfit)
        (dict_keys by_model) acc
  = match dict_get model by_model with
    | Some by_step => if dict_in step by_step then Ok acc
                      else Raise (KeyError step)
    | None => Ok acc
    end.
Proof.
  intros Hsta.
  destruct (dict_get model by_model) as [by_step|] eqn:Hm.
  - unfold getitem at 1. unfold dict_in.
    destruct (dict_get step by_step) as [by_sta|] eqn:Hs.
    + apply foldM_skip. intros model_ _.
      destruct (String.eqb_spec model_ model) as [->|]; simpl; [|reflexivity].
      unfold getitem. rewrite Hm. simpl. rewrite Hs. simpl.
      apply foldM_skip. intros step_ Hin.
      destruct (String.eqb_spec step_ step) as [->|]; simpl; [|reflexivity].
      exfalso. exact (Hsta _ _ eq_refl Hs Hin).
    + apply dict_get_Some_key in Hm as Hin.
      destruct (in_first_split _ _ Hin) as (l1' & l2' & E & Hfirst).
      rewrite E, foldM_app.
      rewrite foldM_skip.
      * simpl. rewrite String.eqb_refl. simpl.
        unfold getitem. rewrite Hm. simpl. rewrite Hs. reflexivity.
      * intros model_ Hin1.
        destruct (String.eqb_spec model_ model) as [->|]; simpl;
          [tauto|reflexivity].
  - apply foldM_skip. intros model_ Hin.
    destruct (String.eqb_spec model_ model) as [->|]; simpl; [|reflexivity].
    apply dict_get_None in Hm. tauto.
Qed.

Lemma misfit_values_loop (model step : string) (d : misfits_t)
    (acc : list float) :
  (forall event by_model by_step by_sta,
      In (event, by_model) d ->
      dict_get model by_model = Some by_step ->
      dict_get step by_step = Some by_sta ->
      ~ In step (dict_keys by_sta)) ->
  foldM (fun misfit '(event, by_model) =>
    foldM (fun misfit model_ =>
      if negb (model_ =? model) then Ok misfit
      else
        by_sta <~ (by_step <~ getitem model by_model ;;
                   getitem step by_step) ;;
        foldM (fun misfit step_ =>
          if negb (step_ =? step) then Ok misfit
          else
            foldM (fun misfit sta =>
                     r <~ getitem sta by_sta ;;
                     Ok (misfit ++ [msft r]))
                  (dict_keys by_sta) misfit)
          (dict_keys by_sta) misfit)
      (dict_keys by_model) misfit) d acc
  = if steps_present model step d then Ok acc else Raise (KeyError step).
Proof.
  induction d as [|[event by_model] d IH]; intros H; [reflexivity|].
  cbn [foldM steps_present forallb].
  rewrite misfit_values_event
    by (intros bs bsta; apply (H event by_model bs bsta); now left).
  destruct (dict_get model by_model) as [by_step|]; simpl.
  - destruct (dict_in step by_step); simpl; [|reflexivity].
    apply IH. intros e bm bs bsta Hin. apply (H e bm bs bsta). now right.
  - apply IH. intros e bm bs bsta Hin. apply (H e bm bs bsta). now right.
Qed.

Lemma station_keys_In (d : misfits_t) event by_model model by_step step
    by_sta key :
  In (event, by_model) d ->
  dict_get model by_model = Some by_step ->
  dict_get step by_step = Some by_sta ->
  In key (dict_keys by_sta) ->
  In key (station_keys d).
Proof.
  intros H1 H2 H3 H4. unfold station_keys.
  apply in_flat_map. exists (event, by_model). split; [exact H1|].
  apply in_flat_map. exists (model, by_step).
  split; [now apply dict_get_In|].
  apply in_flat_map. exists (step, by_sta).
  split; [now apply dict_get_In|exact H4].
Qed.

(** C10, amended.  When no station key of the misfit records equals the
    queried step, [misfit_values] collects nothing: it returns the empty
    list if every event that has the model has the step, and raises
    [KeyError] on the step otherwise. *)
Theorem misfit_values_collects_nothing (model step : string)
    (self : Inspector) :
  str_in step (station_keys (misfits self)) = false ->
  misfit_values model step self
  = if steps_present model step (misfits self) then Ok []
    else Raise (KeyError step).
Proof.
  intros H. unfold misfit_values. apply misfit_values_loop.
  intros event by_model by_step by_sta H1 H2 H3 Hin.
  apply str_in_false in H. apply H.
  eapply station_keys_In; eauto.
Qed.

Lemma misfit_values_collects_nothing_witness :
  str_in "s00" (station_keys (misfits sample_index)) = false
  /\ misfit_values "m00" "s00" sample_index = Ok [].
Proof.
  split; [reflexivity|].
  exact (misfit_values_collects_nothing "m00" "s00" sample_index eq_refl).
Defined.

(** C10 as stated fails: no station key equals the step ["s01"], yet the
    call does not return the empty list, it raises [KeyError]. *)
Lemma misfit_values_missing_step :
  str_in "s01" (station_keys (misfits sample_index)) = false
  /\ misfit_values "m00" "s01" sample_index = Raise (KeyError "s01").
Proof. split; reflexivity. Qed.

(** ** [exclude_events] without a bounding box *)

Lemma events_outside_no_box (ext : Externals)
    (depth_min depth_max mag_min mag_max : option float)
    (starttime endtime : option Z) (self : Inspector) :
  has_event self = true ->
  events_have_lat self = true ->
  forall acc,
    foldM (exclude_step ext [] depth_min depth_max mag_min mag_max
                        starttime endtime)
      (srcrcv self) acc = Raise IndexError.
Proof.
  unfold has_event, events_have_lat, dict_keys.
  induction (srcrcv self) as [|[key rec] d IH]; simpl; [discriminate|].
  intros Hev Hlat acc.
  apply andb_prop in Hlat. destruct Hlat as [Hrec Hlat].
  destruct (has_dot key); simpl in *.
  - apply IH; assumption.
  - unfold outside_box. unfold coord_of in Hrec. simpl.
    destruct (getitem "lat" rec); [reflexivity|discriminate].
Qed.

(** Without a bounding box [exclude_events] removes nothing: as soon as
    [srcrcv] holds an event, the unguarded [coords[1]] raises. *)
Lemma exclude_events_no_box (ext : Externals)
    (depth_min depth_max mag_min mag_max : option float)
    (starttime endtime : option Z) (self : Inspector) :
  has_event self = true ->
  events_have_lat self = true ->
  exclude_events ext None depth_min depth_max mag_min mag_max
                 starttime endtime self
  = (self, Raise IndexError).
Proof.
  intros H1 H2. unfold exclude_events, bind, events_outside.
  rewrite (events_outside_no_box ext _ _ _ _ _ _ self H1 H2). reflexivity.
Qed.

(** C4.  The call with only the magnitude range [5.0, 9.0] on an index
    with events of magnitudes 4.5 and 6.0 raises [IndexError] and removes
    nothing, where the claim has the first event removed. *)
Theorem exclude_events_magnitude_only (ext : Externals) :
  exclude_events ext None None None (Some 5%float) (Some 9%float) None None
                 sample_index
  = (sample_index, Raise IndexError).
Proof. apply exclude_events_no_box; reflexivity. Qed.

(** ** [sort_by_model] on partial data *)

(** An event without the model is left out of the views of that model. *)
Example sort_by_model_missing_model :
  sort_by_model "misfits" (fst (_get_info partial_models))
  = Ok (misfits_by_model
          [("m00", [("s00",
              [("2018p130600", [("NZ.BFZ", {| msft := 1; nwin := 3 |})]);
               ("2019p738432", [("NZ.BFZ", {| msft := 3; nwin := 2 |})])])]);
           ("m01", [("s00",
              [("2018p130600",
                [("NZ.BFZ", {| msft := 2; nwin := 3 |})])])])]).
Proof. reflexivity. Qed.

(** C5.  An event that has the model but lacks one of its steps is not
    left out of the view: the re-slicing raises [KeyError] on the step. *)
Theorem sort_by_model_missing_step :
  snd (_get_info partial_steps) = Ok tt
  /\ sort_by_model "misfits" (fst (_get_info partial_steps))
     = Raise (KeyError "s01").
Proof. split; reflexivity. Qed.

(** ** [sort_misfits_by_station] *)

Lemma foldM_Ok_inv {A B} (f : B -> A -> result B) (xs : list A) (b b' : B) :
  foldM f xs b = Ok b' ->
  forall x, In x xs -> exists b1 b2, f b1 x = Ok b2.
Proof.
  revert b. induction xs as [|y xs IH]; intros b H x Hin; [destruct Hin|].
  simpl in H. destruct (f b y) as [b1|] eqn:E; simpl in H; [|discriminate].
  destruct Hin as [->|Hin]; [eauto|]. eapply IH; eauto.
Qed.

Lemma station_under_model_raises {X} sta field by_step (x : X) :
  station_under_model sta field by_step <> Ok x.
Proof.
  unfold station_under_model.
  destruct (getitem sta by_step); simpl; [|discriminate].
  destruct (getitem field a); simpl; discriminate.
Qed.

Ltac rbind_inv H :=
  match type of H with
  | rbind ?r _ = Ok _ =>
      let E := fresh "E" in
      destruct r eqn:E; [cbn [rbind] in H | discriminate H]
  end.

(** X24.  [sort_misfits_by_station] returns only when the misfit
    records hold no station at all, under any event, model and step:
    with one station anywhere it raises. *)
Lemma sort_misfits_by_station_Ok (self : Inspector) out :
  sort_misfits_by_station self = Ok out ->
  forall event by_model model by_step step by_sta,
    In (event, by_model) (misfits self) ->
    In (model, by_step) by_model ->
    In (step, by_sta) by_step ->
    by_sta = [].
Proof.
  unfold sort_misfits_by_station. intros H.
  rbind_inv H. clear H.
  intros event by_model model by_step step by_sta H1 H2 H3.
  destruct (foldM_Ok_inv _ _ _ _ E _ H1) as ([ms sv] & b2 & Hev).
  cbn beta iota in Hev.
  destruct (foldM_Ok_inv _ _ _ _ Hev _ H2) as ([ms1 sv1] & b3 & Hmod).
  cbn beta iota in Hmod.
  rbind_inv Hmod. clear Hmod.
  destruct (foldM_Ok_inv _ _ _ _ E0 _ H3) as ([ms2 sv2] & b4 & Hstep).
  cbn beta iota in Hstep.
  rbind_inv Hstep. rbind_inv Hstep. rbind_inv Hstep. clear Hstep.
  destruct by_sta as [|[sta r] by_sta]; [reflexivity|exfalso].
  destruct (foldM_Ok_inv _ _ _ _ E3 (sta, r) (or_introl eq_refl))
    as (o1 & o2 & Hsta).
  cbn beta iota in Hsta.
  rbind_inv Hsta. rbind_inv Hsta.
  eapply station_under_model_raises; eauto.
Qed.

(** C6.  On an index with one station under one step the method returns
    no mapping: it raises [KeyError] on the station, which it looks up
    among the steps of the model. *)
Theorem sort_misfits_by_station_raises :
  sort_misfits_by_station sample_index = Raise (KeyError "NZ.BFZ").
Proof. reflexivity. Qed.

(** ** Dictionaries: reading after writing *)

Lemma dict_get_set_same {V} (k : string) (v : V) (d : dict V) :
  dict_get k (dict_set k v d) = Some v.
Proof.
  induction d as [|[k' v'] d IH]; simpl.
  - now rewrite String.eqb_refl.
  - destruct (String.eqb_spec k k') as [->|Hne]; simpl.
    + now rewrite String.eqb_refl.
    + apply String.eqb_neq in Hne. now rewrite Hne.
Qed.

Lemma dict_get_set_other {V} (k k' : string) (v : V) (d : dict V) :
  k <> k' -> dict_get k (dict_set k' v d) = dict_get k d.
Proof.
  intros Hne. induction d as [|[k0 v0] d IH]; simpl.
  - apply String.eqb_neq in Hne. now rewrite Hne.
  - destruct (String.eqb_spec k' k0) as [->|Hne0]; simpl.
    + apply String.eqb_neq in Hne. now rewrite Hne.
    + now rewrite IH.
Qed.

Lemma dict_get_set {V} (k k' : string) (v : V) (d : dict V) :
  dict_get k (dict_set k' v d)
  = if String.eqb k k' then Some v else dict_get k d.
Proof.
  destruct (String.eqb_spec k k') as [->|Hne].
  - apply dict_get_set_same.
  - now apply dict_get_set_other.
Qed.

Lemma dict_set_same {V} (k : string) (v : V) (d : dict V) :
  dict_get k d = Some v -> dict_set k v d = d.
Proof.
  induction d as [|[k' v'] d IH]; simpl; [discriminate|].
  destruct (String.eqb_spec k k') as [->|Hne].
  - now intros [= ->].
  - intros H. now rewrite IH.
Qed.

Lemma dict_set_set {V} (k : string) (v v' : V) (d : dict V) :
  dict_set k v (dict_set k v' d) = dict_set k v d.
Proof.
  induction d as [|[k0 v0] d IH]; simpl.
  - now rewrite String.eqb_refl.
  - destruct (String.eqb_spec k k0) as [->|Hne]; simpl.
    + now rewrite String.eqb_refl.
    + apply String.eqb_neq in Hne. now rewrite Hne, IH.
Qed.

Lemma dict_keys_set {V} (k : string) (v : V) (d : dict V) :
  dict_keys (dict_set k v d)
  = if dict_in k d then dict_keys d else dict_keys d ++ [k].
Proof.
  unfold dict_in.
  induction d as [|[k0 v0] d IH]; simpl; [reflexivity|].
  destruct (String.eqb_spec k k0) as [->|Hne]; simpl; [reflexivity|].
  rewrite IH. now destruct (dict_get k d).
Qed.

Lemma dict_set_NoDup {V} (k : string) (v : V) (d : dict V) :
  NoDup (dict_keys d) -> NoDup (dict_keys (dict_set k v d)).
Proof.
  intros H. rewrite dict_keys_set. unfold dict_in.
  destruct (dict_get k d) eqn:E; [exact H|].
  apply dict_get_None in E.
  apply NoDup_rev in H. rewrite <- (rev_involutive (_ ++ _)).
  apply NoDup_rev. rewrite rev_app_distr. simpl.
  constructor; [now rewrite <- in_rev|exact H].
Qed.

Lemma dict_get_NoDup_In {V} (k : string) (v : V) (d : dict V) :
  NoDup (dict_keys d) -> In (k, v) d -> dict_get k d = Some v.
Proof.
  induction d as [|[k' v'] d IH]; simpl; intros Hnd Hin; [destruct Hin|].
  inversion Hnd as [|? ? Hnotin Hnd']; subst.
  destruct Hin as [[= -> ->]|Hin].
  - now rewrite String.eqb_refl.
  - destruct (String.eqb_spec k k') as [->|Hne]; [|auto].
    exfalso. apply Hnotin. apply (in_map fst) in Hin. exact Hin.
Qed.

(** A dictionary filled by assignments in a loop. *)
Lemma fold_set_get {V W} (F : string -> V -> W) (d : dict V) (acc : dict W)
    (k : string) :
  NoDup (dict_keys d) ->
  dict_get k (fold_left (fun out '(k', v) => dict_set k' (F k' v) out) d acc)
  = match dict_get k d with
    | Some v => Some (F k v)
    | None => dict_get k acc
    end.
Proof.
  revert acc. induction d as [|[k0 v0] d IH]; intros acc Hnd; simpl;
    [reflexivity|].
  inversion Hnd as [|? ? Hnotin Hnd']; subst.
  rewrite IH by assumption.
  destruct (String.eqb_spec k k0) as [->|Hne].
  - apply dict_get_None in Hnotin. rewrite Hnotin.
    apply dict_get_set_same.
  - destruct (dict_get k d); [reflexivity|].
    now apply dict_get_set_other.
Qed.

Lemma fold_set_NoDup {V W} (F : string -> V -> W) (d : dict V)
    (acc : dict W) :
  NoDup (dict_keys acc) ->
  NoDup (dict_keys
           (fold_left (fun out '(k', v) => dict_set k' (F k' v) out) d acc)).
Proof.
  revert acc. induction d as [|[k0 v0] d IH]; intros acc Hnd; simpl;
    [exact Hnd|].
  apply IH. now apply dict_set_NoDup.
Qed.

Lemma dict_comp_items_total {V W} (F : string -> V -> W)
    (f : string -> V -> result W) (d : dict V) (acc : dict W) :
  (forall k v, In (k, v) d -> f k v = Ok (F k v)) ->
  foldM (fun out '(k, v) => w <~ f k v ;; Ok (dict_set k w out)) d acc
  = Ok (fold_left (fun out '(k, v) => dict_set k (F k v) out) d acc).
Proof.
  revert acc. induction d as [|[k0 v0] d IH]; intros acc H; simpl;
    [reflexivity|].
  rewrite H by (now left). simpl. apply IH.
  intros k v Hin. apply H. now right.
Qed.

(** A dictionary built by a comprehension has unique keys, and its
    values are values of the expression. *)
Lemma foldM_set_NoDup {A V} (key : A -> string) (f : A -> result V)
    (xs : list A) (acc d : dict V) :
  foldM (fun out x => v <~ f x ;; Ok (dict_set (key x) v out)) xs acc = Ok d ->
  NoDup (dict_keys acc) -> NoDup (dict_keys d).
Proof.
  revert acc. induction xs as [|x xs IH]; intros acc H Hnd; simpl in H.
  - now injection H as <-.
  - destruct (f x) as [v|]; simpl in H; [|discriminate].
    eapply IH; [exact H|]. now apply dict_set_NoDup.
Qed.

Lemma dict_comp_NoDup {V} (ks : list string) (f : string -> result V)
    (d : dict V) :
  dict_comp ks f = Ok d -> NoDup (dict_keys d).
Proof.
  intros H.
  apply (foldM_set_NoDup (fun k => k) f ks [] d H). constructor.
Qed.

Lemma dict_set_In {V} (k : string) (v : V) (d : dict V) k' v' :
  In (k', v') (dict_set k v d) -> (k' = k /\ v' = v) \/ In (k', v') d.
Proof.
  induction d as [|[k0 v0] d IH]; simpl.
  - intros [[= <- <-]|[]]. now left.
  - destruct (String.eqb_spec k k0) as [->|Hne]; simpl.
    + intros [[= <- <-]|H]; [now left|right; now right].
    + intros [H|H]; [right; now left|].
      destruct (IH H) as [?|?]; [now left|right; now right].
Qed.

Lemma foldM_set_values {A V} (key : A -> string) (f : A -> result V)
    (P : string -> V -> Prop) (xs : list A) (acc d : dict V) :
  foldM (fun out x => v <~ f x ;; Ok (dict_set (key x) v out)) xs acc = Ok d ->
  (forall x v, In x xs -> f x = Ok v -> P (key x) v) ->
  (forall k v, In (k, v) acc -> P k v) ->
  forall k v, In (k, v) d -> P k v.
Proof.
  revert acc. induction xs as [|x xs IH]; intros acc H Hf Hacc; simpl in H.
  - now injection H as <-.
  - destruct (f x) as [w|] eqn:E; simpl in H; [|discriminate].
    eapply IH; [exact H| |].
    + intros y v Hy. apply Hf. now right.
    + intros k v Hin. apply dict_set_In in Hin.
      destruct Hin as [[-> ->]|Hin]; [|now apply Hacc].
      apply Hf; [now left|exact E].
Qed.

Lemma dict_comp_values {V} (ks : list string) (f : string -> result V)
    (d : dict V) k v :
  dict_comp ks f = Ok d -> In (k, v) d -> In k ks /\ f k = Ok v.
Proof.
  intros H Hin.
  apply (foldM_set_values (fun k => k) f (fun k v => In k ks /\ f k = Ok v)
           ks [] d H); auto.
  intros ? ? [].
Qed.

(** ** [sort_by_model]: the shape of the views *)

Lemma sort_by_model_of_NoDup {V} (d : dict (dict (dict V)))
    (self : Inspector) view :
  sort_by_model_of d self = Ok view ->
  NoDup (dict_keys view)
  /\ forall m by_step, In (m, by_step) view -> NoDup (dict_keys by_step).
Proof.
  unfold sort_by_model_of. intros H.
  destruct (not_None (_models self)) as [models|]; [simpl in H|discriminate].
  split; [eapply dict_comp_NoDup; exact H|].
  intros m by_step Hin.
  destruct (dict_comp_values _ _ _ _ _ H Hin) as [_ Hm].
  destruct (all_steps <~ not_None (_steps self) ;; getitem m all_steps)
    as [steps|]; [simpl in Hm|discriminate].
  eapply dict_comp_NoDup; exact Hm.
Qed.

(** ** [sum_misfits] *)

Lemma fold_left_add_map {A} (g : A -> float) (l : list A) (x : float) :
  fold_left (fun acc a => (acc + g a)%float) l x
  = fold_left PrimFloat.add (map g l) x.
Proof.
  revert x. induction l as [|a l IH]; intros x; simpl; [reflexivity|apply IH].
Qed.

Lemma event_total_fold (by_sta : dict misfit_rec) :
  fold_left (fun ev_msft '(sta, r) => (ev_msft + msft r)%float) by_sta 0%float
  = event_total by_sta.
Proof.
  unfold event_total. rewrite <- fold_left_add_map.
  generalize 0%float.
  induction by_sta as [|[sta r] l IH]; intros x; simpl; [reflexivity|apply IH].
Qed.

Lemma enumerate_events_gen (by_event : dict (dict misfit_rec))
    (t : float) (e_var : option Z) (n : Z) :
  fold_left (fun '(total_misfit, _, e) '(event, by_sta) =>
               let ev_msft :=
                 fold_left (fun ev_msft '(sta, r) =>
                              (ev_msft + msft r)%float) by_sta 0%float in
               ((total_misfit + ev_msft)%float, Some e, (e + 1)%Z))
            by_event (t, e_var, n)
  = (fold_left PrimFloat.add (map (fun kv => event_total (snd kv)) by_event) t,
     match by_event with
     | [] => e_var
     | _ => Some (n + Z.of_nat (length by_event) - 1)%Z
     end,
     (n + Z.of_nat (length by_event))%Z).
Proof.
  revert t e_var n.
  induction by_event as [|[event by_sta] l IH]; intros t e_var n.
  - simpl. now rewrite Z.add_0_r.
  - cbn [fold_left map snd length]. rewrite IH, event_total_fold.
    f_equal; [f_equal|]; [|lia].
    destruct l; [simpl; f_equal; lia|].
    f_equal. cbn [length]. lia.
Qed.

Lemma sum_misfits_step_spec (model step : string) cmsft e_var by_event S :
  dict_get model cmsft = Some S ->
  by_event <> [] ->
  sum_misfits_step model (cmsft, e_var) (step, by_event)
  = Ok (dict_set model (dict_set step (aggregate_misfit by_event) S) cmsft,
        Some (Z.of_nat (length by_event) - 1)%Z).
Proof.
  intros Hm Hne. unfold sum_misfits_step, enumerate_events.
  rewrite enumerate_events_gen.
  destruct by_event as [|x l]; [congruence|].
  cbn [rbind]. unfold truediv_int.
  replace (0 + Z.of_nat (length (x :: l)) - 1 + 1)%Z
    with (Z.of_nat (length (x :: l))) by lia.
  destruct (Z.eqb_spec (Z.of_nat (length (x :: l))) 0) as [E|_];
    [simpl in E; lia|].
  cbn [rbind]. unfold getitem. rewrite Hm. cbn [rbind].
  reflexivity.
Qed.

Lemma sum_misfits_steps (model : string) (by_step : dict (dict (dict misfit_rec))) :
  NoDup (dict_keys by_step) ->
  (forall s be, In (s, be) by_step -> be <> []) ->
  forall cmsft e_var S,
    dict_get model cmsft = Some S ->
    exists cmsft' e' S',
      foldM (sum_misfits_step model) by_step (cmsft, e_var) = Ok (cmsft', e')
      /\ dict_get model cmsft' = Some S'
      /\ (forall s, dict_get s S'
                    = match dict_get s by_step with
                      | Some be => Some (aggregate_misfit be)
                      | None => dict_get s S
                      end)
      /\ (forall m, m <> model -> dict_get m cmsft' = dict_get m cmsft).
Proof.
  induction by_step as [|[step be] l IH]; intros Hnd Hne cmsft e_var S Hm.
  - exists cmsft, e_var, S. simpl. auto.
  - inversion Hnd as [|? ? Hnotin Hnd']; subst.
    assert (be <> []) as Hbe by (apply (Hne step); now left).
    pose proof (sum_misfits_step_spec model step cmsft e_var be S Hm Hbe)
      as Hstep.
    destruct (IH Hnd' (fun s b H => Hne s b (or_intror H))
                (dict_set model (dict_set step (aggregate_misfit be) S) cmsft)
                (Some (Z.of_nat (length be) - 1)%Z)
                (dict_set step (aggregate_misfit be) S)
                (dict_get_set_same _ _ _))
      as (cmsft' & e' & S' & Hrun & Hm' & HS' & Hother).
    exists cmsft', e', S'. split; [|split; [exact Hm'|split]].
    + cbn [foldM]. etransitivity; [|exact Hrun].
      exact (f_equal (fun r => rbind r _) Hstep).
    + intros s. rewrite HS'. cbn [dict_get].
      destruct (String.eqb_spec s step) as [->|Hneq].
      * apply dict_get_None in Hnotin. rewrite Hnotin.
        apply dict_get_set_same.
      * destruct (dict_get s l); [reflexivity|].
        now apply dict_get_set_other.
    + intros m Hneq. rewrite Hother by assumption.
      now apply dict_get_set_other.
Qed.

Lemma sum_misfits_models (view : dict (dict (dict (dict misfit_rec)))) :
  NoDup (dict_keys view) ->
  (forall m bs, In (m, bs) view -> NoDup (dict_keys bs)) ->
  nonempty_views view = true ->
  forall cmsft e_var,
    (forall m bs, In (m, bs) view -> dict_get m cmsft <> None) ->
    exists cmsft' e',
      foldM (fun acc '(model, by_step) =>
               foldM (sum_misfits_step model) by_step acc)
            view (cmsft, e_var) = Ok (cmsft', e')
      /\ forall m s,
          lookup2 m s cmsft'
          = match dict_get m view with
            | Some bs => match dict_get s bs with
                         | Some be => Some (aggregate_misfit be)
                         | None => lookup2 m s cmsft
                         end
            | None => lookup2 m s cmsft
            end.
Proof.
  induction view as [|[model by_step] view IH];
    intros Hnd Hnd2 Hne cmsft e_var Hin.
  - exists cmsft, e_var. simpl. auto.
  - inversion Hnd as [|? ? Hnotin Hnd']; subst.
    cbn [nonempty_views forallb] in Hne. apply andb_prop in Hne.
    destruct Hne as [Hne1 Hne2].
    destruct (dict_get model cmsft) as [S|] eqn:HS;
      [|exfalso; eapply Hin; [now left|exact HS]].
    assert (forall s be, In (s, be) by_step -> be <> []) as Hne1'.
    { intros s be Hi. rewrite forallb_forall in Hne1.
      specialize (Hne1 _ Hi). simpl in Hne1. now destruct be. }
    destruct (sum_misfits_steps model by_step
                (Hnd2 model by_step (or_introl eq_refl)) Hne1'
                cmsft e_var S HS)
      as (cmsft1 & e1 & S1 & Hrun1 & Hm1 & HS1 & Hother1).
    destruct (IH Hnd' (fun m bs H => Hnd2 m bs (or_intror H)) Hne2
                cmsft1 e1) as (cmsft' & e' & Hrun & Hlook).
    { intros m bs Hi.
      destruct (String.eqb_spec m model) as [->|Hneq]; [congruence|].
      rewrite Hother1 by assumption. apply (Hin m bs). now right. }
    exists cmsft', e'. split.
    + cbn [foldM]. rewrite Hrun1. cbn [rbind]. exact Hrun.
    + intros m s. rewrite Hlook. cbn [dict_get].
      destruct (String.eqb_spec m model) as [->|Hneq].
      * apply dict_get_None in Hnotin. rewrite Hnotin.
        unfold lookup2. rewrite Hm1, HS. apply HS1.
      * assert (lookup2 m s cmsft1 = lookup2 m s cmsft) as ->
            by (unfold lookup2; now rewrite Hother1).
        reflexivity.
Qed.

Lemma zero_table_lookup {X Y} (zero : Y) (view : dict (dict X)) :
  NoDup (dict_keys view) ->
  (forall m bs, In (m, bs) view -> NoDup (dict_keys bs)) ->
  exists table,
    dict_comp_items view (fun key by_step =>
      dict_comp_items by_step (fun step _ => Ok zero)) = Ok table
    /\ (forall m bs, In (m, bs) view -> dict_get m table <> None)
    /\ forall m s,
        lookup2 m s table
        = match lookup2 m s view with
          | Some _ => Some zero
          | None => None
          end.
Proof.
  intros Hnd Hnd2.
  pose (F := fun (key : string) (by_step : dict X) =>
               fold_left (fun out '(k, _) => dict_set k zero out)
                         by_step ([] : dict Y)).
  exists (fold_left (fun out '(k, v) => dict_set k (F k v) out) view []).
  split; [|split].
  - unfold dict_comp_items at 1. apply dict_comp_items_total.
    intros k v _. unfold dict_comp_items, F.
    apply (dict_comp_items_total (fun _ _ => zero)). reflexivity.
  - intros m bs Hin. rewrite fold_set_get by assumption.
    now rewrite (dict_get_NoDup_In _ _ _ Hnd Hin).
  - intros m s. unfold lookup2. rewrite fold_set_get by assumption.
    destruct (dict_get m view) as [bs|] eqn:E; [|reflexivity].
    unfold F.
    rewrite (fold_set_get (fun _ _ => zero))
      by (eapply Hnd2; eapply dict_get_In; exact E).
    now destruct (dict_get s bs).
Qed.

(** C2, amended.  On an Inspector on which [sort_by_model("misfits")]
    returns, with at least one event in each of its views, [sum_misfits]
    returns, and for every (model, step) of these views it gives the sum
    of the total misfits of the events of the view, divided by the
    number of these events; it holds nothing under any other
    (model, step). *)
Theorem sum_misfits_aggregate (self : Inspector)
    (view : dict (dict (dict (dict misfit_rec)))) :
  sort_by_model_misfits self = Ok view ->
  nonempty_views view = true ->
  exists cmsft,
    sum_misfits self = Ok cmsft
    /\ forall m s,
        lookup2 m s cmsft
        = match lookup2 m s view with
          | Some by_event => Some (aggregate_misfit by_event)
          | None => None
          end.
Proof.
  intros Hview Hne.
  destruct (sort_by_model_of_NoDup _ _ _ Hview) as [Hnd Hnd2].
  destruct (zero_table_lookup 0%float view Hnd Hnd2)
    as (table & Htab & Hrows & Hzero).
  destruct (sum_misfits_models view Hnd Hnd2 Hne table None Hrows)
    as (cmsft & e & Hrun & Hlook).
  exists cmsft. split.
  - unfold sum_misfits. rewrite Hview. cbn [rbind].
    rewrite Htab. cbn [rbind]. rewrite Hrun. reflexivity.
  - intros m s. rewrite Hlook, Hzero. unfold lookup2.
    destruct (dict_get m view) as [bs|]; [|reflexivity].
    now destruct (dict_get s bs).
Qed.

(** Two events of total misfits 1.0 and 3.0 under one (model, step):
    the aggregate is 2.0. *)
Lemma sum_misfits_aggregate_witness :
  nonempty_views
    [("m00", [("s00",
        [("2018p130600", [("NZ.BFZ", {| msft := 1; nwin := 3 |})]);
         ("2019p738432", [("NZ.BFZ", {| msft := 3; nwin := 2 |})])])])] = true
  /\ exists cmsft,
      sum_misfits sample_index = Ok cmsft
      /\ lookup2 "m00" "s00" cmsft = Some 2%float.
Proof.
  split; [reflexivity|].
  destruct (sum_misfits_aggregate sample_index _ eq_refl eq_refl)
    as (cmsft & Hrun & Hlook).
  exists cmsft. split; [exact Hrun|].
  rewrite Hlook. reflexivity.
Defined.

(** The claim as it stands, for every (model, step) present, fails in
    two ways.  Where an event has a model but lacks a step listed for
    it, [sort_by_model] raises and so does [sum_misfits], although
    (m00, s00) is there for both events.  And a step that only a later
    event has is not among the steps read from the first event: the
    result has no entry for it. *)
Lemma sum_misfits_step_gap :
  (snd (_get_info partial_steps) = Ok tt
   /\ lookup3 "2019p738432" "m00" "s00"
              (misfits (fst (_get_info partial_steps))) <> None
   /\ sum_misfits (fst (_get_info partial_steps)) = Raise (KeyError "s01"))
  /\ (snd (_get_info late_step) = Ok tt
      /\ lookup3 "2019p738432" "m00" "s01"
                 (misfits (fst (_get_info late_step))) <> None
      /\ sum_misfits (fst (_get_info late_step))
         = Ok [("m00", [("s00", 2%float)])]).
Proof.
  split; (split; [reflexivity|split; [discriminate|reflexivity]]).
Qed.

(** ** Views over fresh metadata *)

Lemma dict_set_nonempty {V} (k : string) (v : V) (d : dict V) :
  dict_set k v d <> [].
Proof. destruct d as [|[k' v'] d]; simpl; [|destruct (k =? k')]; discriminate. Qed.

Lemma view_loop_nonempty {V} (m s : string) (d : dict (dict (dict V)))
    (acc view : dict V) :
  foldM (fun view '(e, by_model) =>
           if dict_in m by_model
           then x <~ (by_step <~ getitem m by_model ;; getitem s by_step) ;;
                Ok (dict_set e x view)
           else Ok view) d acc = Ok view ->
  acc <> [] -> view <> [].
Proof.
  revert acc. induction d as [|[e by_model] d IH]; intros acc H Hacc.
  - simpl in H. now injection H as <-.
  - cbn [foldM] in H. destruct (dict_in m by_model).
    + destruct (by_step <~ getitem m by_model ;; getitem s by_step)
        as [x|]; [|discriminate].
      cbn [rbind] in H. eapply IH; [exact H|apply dict_set_nonempty].
    + cbn [rbind] in H. eapply IH; eauto.
Qed.

(** X23.  Right after [_get_info] returned, every view that
    [sort_by_model("misfits")] gives holds at least one event, the first
    one, from which the models and steps were read: [sum_misfits] then
    never divides by a count of zero events. *)
Lemma fresh_views_nonempty (self0 self : Inspector)
    (view : dict (dict (dict (dict misfit_rec)))) :
  _get_info self0 = (self, Ok tt) ->
  sort_by_model_misfits self = Ok view ->
  nonempty_views view = true.
Proof.
  unfold _get_info. rewrite get_info_lists.
  set (self1 := with_stations_events _ _ self0).
  destruct (misfits self1) as [|[e0 bm0] rest] eqn:Hmis;
    [simpl; discriminate|].
  cbn [dict_keys map fst first rbind].
  unfold getitem at 1. cbn [dict_get]. rewrite String.eqb_refl. cbn [rbind].
  destruct (dict_comp (dict_keys bm0) _) as [steps|] eqn:Hsteps;
    [|discriminate].
  cbn [rbind].
  destruct (foldM _ (dict_keys bm0) 0%Z) as [iterations|]; [|discriminate].
  cbn [rbind]. intros [= <-].
  unfold sort_by_model_misfits, sort_by_model_of.
  cbn [_models _steps with_models_steps not_None rbind misfits].
  rewrite Hmis. intros Hview.
  unfold nonempty_views. apply forallb_forall. intros [m bs] Hm.
  apply forallb_forall. intros [s be] Hs.
  destruct (dict_comp_values _ _ _ _ _ Hview Hm) as [Hmin Hbs].
  destruct (getitem m steps) as [steps_m|]; [|discriminate].
  cbn [rbind] in Hbs.
  destruct (dict_comp_values _ _ _ _ _ Hbs Hs) as [_ Hbe].
  cbn [foldM] in Hbe.
  assert (dict_in m bm0 = true) as Hin.
  { unfold dict_in. destruct (dict_get m bm0) eqn:E; [reflexivity|].
    apply dict_get_None in E. tauto. }
  rewrite Hin in Hbe.
  destruct (by_step <~ getitem m bm0 ;; getitem s by_step) as [x|];
    [|discriminate].
  cbn [rbind] in Hbe.
  pose proof (view_loop_nonempty m s rest _ be Hbe
                (dict_set_nonempty e0 x [])) as Hne.
  now destruct be.
Qed.

(** ** What a view holds *)

Lemma dict_set_fresh {V} (k : string) (v : V) (d : dict V) :
  ~ In k (dict_keys d) -> dict_set k v d = d ++ [(k, v)].
Proof.
  induction d as [|[k0 v0] d IH]; intros Hk; [reflexivity|].
  cbn [dict_set]. destruct (String.eqb_spec k k0) as [->|Hne].
  - exfalso. apply Hk. now left.
  - cbn [app]. rewrite IH; [reflexivity|].
    intros H. apply Hk. now right.
Qed.

Lemma view_loop_events {V} (m s : string) (d : dict (dict (dict V)))
    (acc view : dict V) :
  NoDup (dict_keys acc ++ dict_keys d) ->
  foldM (fun view '(e, by_model) =>
           if dict_in m by_model
           then x <~ (by_step <~ getitem m by_model ;; getitem s by_step) ;;
                Ok (dict_set e x view)
           else Ok view) d acc = Ok view ->
  view = acc ++ events_of m s d.
Proof.
  revert acc. induction d as [|[e by_model] d IH]; intros acc Hnd H.
  - simpl in H. injection H as <-. simpl. now rewrite app_nil_r.
  - cbn [foldM] in H. cbn [events_of flat_map]. unfold lookup2 at 1.
    unfold dict_in, getitem in H.
    cbn [dict_keys map fst] in Hnd.
    destruct (dict_get m by_model) as [by_step|]; cbn [rbind] in H.
    + destruct (dict_get s by_step) as [x|]; [|discriminate].
      cbn [rbind] in H.
      rewrite (dict_set_fresh e x acc) in H.
      * apply IH in H; [rewrite H, <- app_assoc; reflexivity|].
        unfold dict_keys. rewrite map_app, <- app_assoc. exact Hnd.
      * apply NoDup_remove_2 in Hnd. intros Hin. apply Hnd.
        apply in_or_app. now left.
    + apply IH in H; [exact H|].
      apply NoDup_remove_1 in Hnd. exact Hnd.
Qed.

(** X21.  A view of [sort_by_model] under (model, step) holds the events
    whose records have the model, in the order of the mapping, each with
    what it holds under the step.  An event without the model is not in
    it. *)
Lemma sort_by_model_view {V} (d : dict (dict (dict V)))
    (self : Inspector) view (m s : string) by_event :
  NoDup (dict_keys d) ->
  sort_by_model_of d self = Ok view ->
  lookup2 m s view = Some by_event ->
  by_event = events_of m s d.
Proof.
  intros Hnd Hview Hlook. unfold lookup2 in Hlook.
  destruct (dict_get m view) as [by_step|] eqn:Hm; [|discriminate].
  apply dict_get_In in Hm. apply dict_get_In in Hlook.
  unfold sort_by_model_of in Hview.
  destruct (not_None (_models self)) as [models|]; [|discriminate].
  cbn [rbind] in Hview.
  destruct (dict_comp_values _ _ _ _ _ Hview Hm) as [_ Hbs].
  destruct (all_steps <~ not_None (_steps self) ;; getitem m all_steps)
    as [steps|]; [|discriminate].
  cbn [rbind] in Hbs.
  destruct (dict_comp_values _ _ _ _ _ Hbs Hlook) as [_ Hbe].
  apply view_loop_events in Hbe; [exact Hbe|exact Hnd].
Qed.

(** X22.  [sort_by_model] returns only when every event that has a model
    has every step listed for that model: a step missing from one event
    makes the whole re-slicing raise. *)
Lemma sort_by_model_Ok_uniform {V} (d : dict (dict (dict V)))
    (self : Inspector) view models all_steps :
  sort_by_model_of d self = Ok view ->
  _models self = Some models ->
  _steps self = Some all_steps ->
  forall m steps s e by_model,
    In m models ->
    dict_get m all_steps = Some steps ->
    In s steps ->
    In (e, by_model) d ->
    dict_in m by_model = true ->
    lookup2 m s by_model <> None.
Proof.
  unfold sort_by_model_of. intros Hview Hm Hs. rewrite Hm, Hs in Hview.
  cbn [not_None rbind] in Hview.
  intros m steps s e by_model Hmin Hsteps Hsin Hein Hin.
  unfold dict_comp in Hview.
  destruct (foldM_Ok_inv _ _ _ _ Hview m Hmin) as (b1 & b2 & H1).
  cbn beta in H1. unfold getitem at 1 in H1. rewrite Hsteps in H1.
  cbn [rbind] in H1.
  match type of H1 with
  | rbind ?r _ = _ => destruct r as [by_step|] eqn:E1; [|discriminate]
  end.
  unfold dict_comp in E1.
  destruct (foldM_Ok_inv _ _ _ _ E1 s Hsin) as (c1 & c2 & H2).
  cbn beta in H2.
  match type of H2 with
  | rbind ?r _ = _ => destruct r as [by_event|] eqn:E2; [|discriminate]
  end.
  destruct (foldM_Ok_inv _ _ _ _ E2 (e, by_model) Hein) as (v1 & v2 & H3).
  cbn beta iota in H3. rewrite Hin in H3.
  unfold lookup2. unfold getitem in H3.
  destruct (dict_get m by_model) as [bs|]; [|discriminate].
  cbn [rbind] in H3. destruct (dict_get s bs); [discriminate|discriminate].
Qed.

(** ** Loops that update one cell of a table *)

Lemma updated_refl {X} (m s : string) (x : X) (d : dict (dict X)) :
  lookup2 m s d = Some x -> updated m s x d d.
Proof. intros H. split; auto. Qed.

Lemma updated_trans {X} (m s : string) (x y : X) (d1 d2 d3 : dict (dict X)) :
  updated m s x d1 d2 -> updated m s y d2 d3 -> updated m s y d1 d3.
Proof.
  intros [_ H1] [H2 H3]. split; [exact H2|].
  intros m' s' Hne. now rewrite H3, H1.
Qed.

Lemma update2_updated {X} (m s : string) (g : X -> X) (d : dict (dict X)) x :
  lookup2 m s d = Some x ->
  exists d', update2 m s g d = Ok d' /\ updated m s (g x) d d'.
Proof.
  unfold lookup2, update2, getitem. intros H.
  destruct (dict_get m d) as [dm|] eqn:Hm; [|discriminate].
  cbn [rbind]. rewrite H. cbn [rbind]. eexists. split; [reflexivity|].
  split.
  - unfold lookup2. now rewrite !dict_get_set_same.
  - intros m' s' Hne. unfold lookup2. rewrite dict_get_set.
    destruct (String.eqb_spec m' m) as [->|Hm']; [|reflexivity].
    rewrite Hm. destruct Hne as [Hne|Hne]; [congruence|].
    now apply dict_get_set_other.
Qed.

Lemma foldM_updated {X A} (m s : string)
    (step : dict (dict X) -> A -> result (dict (dict X)))
    (phi : A -> X -> X) :
  (forall d a x, lookup2 m s d = Some x ->
                 exists d', step d a = Ok d' /\ updated m s (phi a x) d d') ->
  forall l d x,
    lookup2 m s d = Some x ->
    exists d', foldM step l d = Ok d'
               /\ updated m s (fold_left (fun x a => phi a x) l x) d d'.
Proof.
  intros Hstep. induction l as [|a l IH]; intros d x Hx.
  - exists d. split; [reflexivity|now apply updated_refl].
  - destruct (Hstep d a x Hx) as (d1 & E1 & U1).
    destruct (IH d1 (phi a x) (proj1 U1)) as (d2 & E2 & U2).
    exists d2. split.
    + cbn [foldM]. now rewrite E1.
    + eapply updated_trans; eauto.
Qed.

Lemma foldM_pair {A B X} (f : A -> X -> result A) (g : B -> X -> result B)
    (h : A * B -> X -> result (A * B)) :
  (forall a b x a' b',
      f a x = Ok a' -> g b x = Ok b' -> h (a, b) x = Ok (a', b')) ->
  forall xs a b a' b',
    foldM f xs a = Ok a' -> foldM g xs b = Ok b' ->
    foldM h xs (a, b) = Ok (a', b').
Proof.
  intros H. induction xs as [|x xs IH]; intros a b a' b' Hf Hg.
  - simpl in *. congruence.
  - simpl in Hf, Hg.
    destruct (f a x) as [a1|] eqn:Ef; [|discriminate].
    destruct (g b x) as [b1|] eqn:Eg; [|discriminate].
    cbn [foldM]. rewrite (H _ _ _ _ _ Ef Eg). cbn [rbind] in *. auto.
Qed.

(** The three inner loops visit the channels in order. *)
Lemma over_channels_items {A} (f : A -> string * window_rec -> result A)
    (by_event : dict (dict (dict window_rec))) (a : A) :
  over_channels f by_event a = foldM f (channel_items by_event) a.
Proof.
  unfold over_channels, channel_items. revert a.
  induction by_event as [|[event by_sta] l IH]; intros a; [reflexivity|].
  cbn [foldM flat_map]. rewrite foldM_app.
  assert (forall a,
             foldM (fun acc '(_, by_cha) => foldM f by_cha acc) by_sta a
             = foldM f (flat_map (fun '(_, by_cha) => by_cha) by_sta) a) as ->.
  { clear. induction by_sta as [|[sta by_cha] l IH]; intros a; [reflexivity|].
    cbn [foldM flat_map]. rewrite foldM_app.
    destruct (foldM f by_cha a); cbn [rbind]; auto. }
  destruct (foldM f _ a); cbn [rbind]; auto.
Qed.

(** A two-level loop whose body updates the cell of its own keys. *)
Lemma steps_loop_updated {X Y} (m : string)
    (body : dict (dict X) -> string * Y -> result (dict (dict X)))
    (G : Y -> X -> X) :
  (forall d s y x, lookup2 m s d = Some x ->
                   exists d', body d (s, y) = Ok d'
                              /\ updated m s (G y x) d d') ->
  forall bs, NoDup (dict_keys bs) ->
  forall d,
    (forall s y, In (s, y) bs -> lookup2 m s d <> None) ->
    exists d',
      foldM body bs d = Ok d'
      /\ forall m' s,
          lookup2 m' s d'
          = if String.eqb m' m
            then match dict_get s bs with
                 | Some y => option_map (G y) (lookup2 m s d)
                 | None => lookup2 m s d
                 end
            else lookup2 m' s d.
Proof.
  intros Hbody. induction bs as [|[s0 y0] bs IH]; intros Hnd d Hin.
  - exists d. split; [reflexivity|]. intros m' s. simpl.
    now destruct (String.eqb_spec m' m) as [->|].
  - inversion Hnd as [|? ? Hnotin Hnd']; subst.
    destruct (lookup2 m s0 d) as [x0|] eqn:Hx0;
      [|exfalso; eapply Hin; [now left|exact Hx0]].
    destruct (Hbody d s0 y0 x0 Hx0) as (d1 & E1 & U1 & U2).
    destruct (IH Hnd' d1) as (d' & E' & L').
    { intros s y Hi. rewrite U2.
      - apply (Hin s y). now right.
      - right. intros ->. apply Hnotin.
        apply (in_map fst) in Hi. exact Hi. }
    exists d'. split.
    + cbn [foldM]. etransitivity; [|exact E'].
      exact (f_equal (fun r => rbind r _) E1).
    + intros m' s. rewrite L'. cbn [dict_get].
      destruct (String.eqb_spec m' m) as [->|Hm'].
      * destruct (String.eqb_spec s s0) as [->|Hs].
        -- apply dict_get_None in Hnotin. rewrite Hnotin, U1, Hx0.
           reflexivity.
        -- rewrite U2 by (now right). reflexivity.
      * apply U2. now left.
Qed.

Lemma models_loop_updated {X Y}
    (body : string -> dict (dict X) -> string * Y -> result (dict (dict X)))
    (G : Y -> X -> X) :
  (forall m d s y x, lookup2 m s d = Some x ->
                     exists d', body m d (s, y) = Ok d'
                                /\ updated m s (G y x) d d') ->
  forall view,
    NoDup (dict_keys view) ->
    (forall m bs, In (m, bs) view -> NoDup (dict_keys bs)) ->
    forall d,
      (forall m s, lookup2 m s view <> None -> lookup2 m s d <> None) ->
      exists d',
        foldM (fun acc '(m, bs) => foldM (body m) bs acc) view d = Ok d'
        /\ forall m s,
            lookup2 m s d'
            = match lookup2 m s view with
              | Some y => option_map (G y) (lookup2 m s d)
              | None => lookup2 m s d
              end.
Proof.
  intros Hbody. induction view as [|[m0 bs0] view IH]; intros Hnd Hnd2 d Hin.
  - exists d. split; [reflexivity|]. reflexivity.
  - inversion Hnd as [|? ? Hnotin Hnd']; subst.
    destruct (steps_loop_updated m0 (body m0) G (Hbody m0) bs0
                (Hnd2 m0 bs0 (or_introl eq_refl)) d) as (d1 & E1 & L1).
    { intros s y Hi. apply Hin. unfold lookup2. cbn [dict_get].
      rewrite String.eqb_refl.
      rewrite (dict_get_NoDup_In s y bs0
                 (Hnd2 m0 bs0 (or_introl eq_refl)) Hi). discriminate. }
    destruct (IH Hnd' (fun m bs H => Hnd2 m bs (or_intror H)) d1)
      as (d' & E' & L').
    { intros m s Hv. rewrite L1.
      destruct (String.eqb_spec m m0) as [->|Hm].
      - exfalso. apply Hv. unfold lookup2.
        apply dict_get_None in Hnotin. now rewrite Hnotin.
      - apply Hin. unfold lookup2 in *. cbn [dict_get].
        apply String.eqb_neq in Hm. now rewrite Hm. }
    exists d'. split.
    + cbn [foldM]. now rewrite E1.
    + intros m s. rewrite L', L1.
      assert (lookup2 m s ((m0, bs0) :: view)
              = if String.eqb m m0 then dict_get s bs0
                else lookup2 m s view) as ->
          by (unfold lookup2; cbn [dict_get]; now destruct (String.eqb m m0)).
      destruct (String.eqb_spec m m0) as [->|Hm]; [|reflexivity].
      assert (lookup2 m0 s view = None) as ->; [|reflexivity].
      unfold lookup2. apply dict_get_None in Hnotin. now rewrite Hnotin.
Qed.

(** ** [measurements] *)

Lemma measure_channel_pair (model step : string) cum num item cum' num' :
  add_lengths model step cum item = Ok cum' ->
  add_count model step num item = Ok num' ->
  measure_channel model step (cum, num) item = Ok (cum', num').
Proof.
  unfold add_lengths, add_count, measure_channel.
  destruct item as [cha w]. cbn [snd]. intros Hc Hn.
  rewrite Hn. cbn [rbind]. rewrite Hc. reflexivity.
Qed.

Lemma measure_loops_pair (view : dict (dict (dict (dict (dict window_rec)))))
    cum num cum' num' :
  foldM (fun acc '(model, by_step) =>
           foldM (fun acc '(step, by_event) =>
                    foldM (add_lengths model step) (channel_items by_event) acc)
                 by_step acc) view cum = Ok cum' ->
  foldM (fun acc '(model, by_step) =>
           foldM (fun acc '(step, by_event) =>
                    foldM (add_count model step) (channel_items by_event) acc)
                 by_step acc) view num = Ok num' ->
  foldM (fun acc '(model, by_step) =>
           foldM (fun acc '(step, by_event) =>
                    over_channels (measure_channel model step) by_event acc)
                 by_step acc) view (cum, num) = Ok (cum', num').
Proof.
  apply foldM_pair. intros a b [model by_step].
  apply foldM_pair. intros a0 b0 [step by_event].
  rewrite over_channels_items.
  apply foldM_pair. intros a1 b1 item.
  apply measure_channel_pair.
Qed.

Lemma fold_left_flat_map {A B C} (f : C -> B -> C) (g : A -> list B)
    (l : list A) (c : C) :
  fold_left (fun c a => fold_left f (g a) c) l c
  = fold_left f (flat_map g l) c.
Proof.
  revert c. induction l as [|a l IH]; intros c; simpl; [reflexivity|].
  now rewrite fold_left_app, IH.
Qed.

Lemma add_lengths_updated (m s : string)
    (by_event : dict (dict (dict window_rec))) d x :
  lookup2 m s d = Some x ->
  exists d',
    foldM (add_lengths m s) (channel_items by_event) d = Ok d'
    /\ updated m s (fold_left PrimFloat.add (window_lengths by_event) x) d d'.
Proof.
  intros Hx. unfold window_lengths.
  rewrite <- (fold_left_flat_map PrimFloat.add
                (fun kv : string * window_rec => length_s (snd kv))).
  apply (foldM_updated m s (add_lengths m s)
           (fun item c => fold_left PrimFloat.add (length_s (snd item)) c));
    [|exact Hx].
  intros d0 item x0 Hx0. unfold add_lengths.
  apply (foldM_updated m s _ (fun length c => (c + length)%float));
    [|exact Hx0].
  intros d1 length x1 Hx1.
  exact (update2_updated m s (fun c => (c + length)%float) d1 x1 Hx1).
Qed.

Lemma count_fold (items : list (string * window_rec)) (n : Z) :
  fold_left (fun n item => (n + Z.of_nat (length (dlna (snd item))))%Z) items n
  = (n + Z.of_nat (length (flat_map (fun kv => dlna (snd kv)) items)))%Z.
Proof.
  revert n. induction items as [|a l IH]; intros n; simpl; [lia|].
  rewrite IH, length_app. lia.
Qed.

Lemma add_count_updated (m s : string)
    (by_event : dict (dict (dict window_rec))) d x :
  lookup2 m s d = Some x ->
  exists d',
    foldM (add_count m s) (channel_items by_event) d = Ok d'
    /\ updated m s (x + window_count by_event)%Z d d'.
Proof.
  intros Hx. unfold window_count. rewrite <- count_fold.
  apply (foldM_updated m s (add_count m s)
           (fun item n => (n + Z.of_nat (length (dlna (snd item))))%Z));
    [|exact Hx].
  intros d0 item x0 Hx0. unfold add_count.
  exact (update2_updated m s
           (fun n => (n + Z.of_nat (length (dlna (snd item))))%Z) d0 x0 Hx0).
Qed.

Lemma get_str_defined (ext : Externals) (self : Inspector) events stations
    models :
  _events self = Some events -> _stations self = Some stations ->
  _models self = Some models ->
  exists s, _get_str ext self = (with_str s self, Ok tt).
Proof.
  intros He Hs Hm. unfold _get_str. rewrite He, Hs, Hm. cbn [not_None rbind].
  eexists. reflexivity.
Qed.



(** The number counted is that of the entries under ["dlna"]; it is the
    number of the window lengths summed when the lists of each channel
    have the same length, as [get_windows] fills them. *)
Lemma window_count_lengths (by_event : dict (dict (dict window_rec))) :
  (forall item, In item (channel_items by_event) ->
                length (dlna (snd item)) = length (length_s (snd item))) ->
  window_count by_event = Z.of_nat (length (window_lengths by_event)).
Proof.
  unfold window_count, window_lengths.
  induction (channel_items by_event) as [|item l IH]; intros H;
    [reflexivity|].
  cbn [flat_map]. rewrite !length_app. f_equal.
  rewrite (H item (or_introl eq_refl)). f_equal.
  apply Nat2Z.inj. apply IH. intros i Hi. apply H. now right.
Qed.


(** ** The order of binary64 numbers *)

Lemma SFcompare_key (f1 f2 : spec_float) :
  f1 <> S754_nan -> f2 <> S754_nan ->
  SFcompare f1 f2 = Some (lex_compare (sf_key f1) (sf_key f2)).
Proof.
  intros H1 H2.
  destruct f1 as [s1|s1| |s1 m1 e1], f2 as [s2|s2| |s2 m2 e2];
    try congruence; try (destruct s1); try (destruct s2); try reflexivity.
  (* the case left: two negative finite numbers *)
  cbn [SFcompare sf_key lex_compare]. change (-1 ?= -1)%Z with Eq.
  cbv iota. rewrite Z.compare_opp, (Z.compare_antisym e1 e2).
  destruct (e1 ?= e2)%Z; reflexivity.
Qed.

Lemma not_nan_SF (x : float) : is_nan x = false -> Prim2SF x <> S754_nan.
Proof.
  unfold is_nan. rewrite FloatAxioms.eqb_spec. intros H E.
  rewrite E in H. discriminate.
Qed.

Lemma ltb_fcmp (x y : float) :
  is_nan x = false -> is_nan y = false ->
  (x <? y)%float = match fcmp x y with Lt => true | _ => false end.
Proof.
  intros Hx Hy. rewrite FloatAxioms.ltb_spec. unfold SFltb, fcmp.
  now rewrite SFcompare_key by (now apply not_nan_SF).
Qed.

Lemma leb_fcmp (x y : float) :
  is_nan x = false -> is_nan y = false ->
  (x <=? y)%float = match fcmp x y with Gt => false | _ => true end.
Proof.
  intros Hx Hy. rewrite FloatAxioms.leb_spec. unfold SFleb, fcmp.
  rewrite SFcompare_key by (now apply not_nan_SF).
  now destruct (lex_compare _ _).
Qed.

Lemma eqb_fcmp (x y : float) :
  is_nan x = false -> is_nan y = false ->
  (x =? y)%float = match fcmp x y with Eq => true | _ => false end.
Proof.
  intros Hx Hy. rewrite FloatAxioms.eqb_spec. unfold SFeqb, fcmp.
  now rewrite SFcompare_key by (now apply not_nan_SF).
Qed.

Lemma lex_compare_antisym (a b : Z * Z * Z) :
  lex_compare b a = CompOpp (lex_compare a b).
Proof.
  destruct a as [[c1 e1] m1], b as [[c2 e2] m2]. unfold lex_compare.
  rewrite (Z.compare_antisym c1 c2), (Z.compare_antisym e1 e2),
    (Z.compare_antisym m1 m2).
  destruct (c1 ?= c2)%Z; try reflexivity.
  destruct (e1 ?= e2)%Z; reflexivity.
Qed.

Lemma lex_compare_le_trans (a b c : Z * Z * Z) :
  lex_compare a b <> Gt -> lex_compare b c <> Gt -> lex_compare a c <> Gt.
Proof.
  destruct a as [[c1 e1] m1], b as [[c2 e2] m2], c as [[c3 e3] m3].
  unfold lex_compare.
  destruct (Z.compare_spec c1 c2), (Z.compare_spec c2 c3),
    (Z.compare_spec c1 c3); try lia; try congruence;
  destruct (Z.compare_spec e1 e2), (Z.compare_spec e2 e3),
    (Z.compare_spec e1 e3); try lia; try congruence;
  destruct (Z.compare_spec m1 m2), (Z.compare_spec m2 m3),
    (Z.compare_spec m1 m3); try lia; congruence.
Qed.

Lemma fcmp_antisym (x y : float) : fcmp y x = CompOpp (fcmp x y).
Proof. apply lex_compare_antisym. Qed.

(** On numbers other than NaN, [<=] is transitive, and it holds from
    [x] to [y] whenever [y < x] fails. *)
Lemma leb_trans (x y z : float) :
  is_nan x = false -> is_nan y = false -> is_nan z = false ->
  (x <=? y)%float = true -> (y <=? z)%float = true -> (x <=? z)%float = true.
Proof.
  intros Hx Hy Hz. rewrite !leb_fcmp by assumption.
  pose proof (lex_compare_le_trans (sf_key (Prim2SF x)) (sf_key (Prim2SF y))
                (sf_key (Prim2SF z))) as T.
  unfold fcmp.
  destruct (lex_compare (sf_key (Prim2SF x)) (sf_key (Prim2SF y)));
    destruct (lex_compare (sf_key (Prim2SF y)) (sf_key (Prim2SF z)));
    destruct (lex_compare (sf_key (Prim2SF x)) (sf_key (Prim2SF z)));
    intros; try reflexivity; try discriminate;
    exfalso; apply T; congruence.
Qed.

Lemma not_ltb_leb (x y : float) :
  is_nan x = false -> is_nan y = false ->
  (y <? x)%float = false -> (x <=? y)%float = true.
Proof.
  intros Hx Hy. rewrite ltb_fcmp, leb_fcmp by assumption.
  rewrite (fcmp_antisym x y). now destruct (fcmp x y).
Qed.

Lemma ltb_leb (x y : float) :
  is_nan x = false -> is_nan y = false ->
  (x <? y)%float = true -> (x <=? y)%float = true.
Proof.
  intros Hx Hy. rewrite ltb_fcmp, leb_fcmp by assumption.
  now destruct (fcmp x y).
Qed.

Lemma eqb_leb (x y : float) :
  is_nan x = false -> is_nan y = false ->
  (x =? y)%float = true ->
  (x <=? y)%float = true /\ (y <=? x)%float = true.
Proof.
  intros Hx Hy. rewrite eqb_fcmp, !leb_fcmp by assumption.
  rewrite (fcmp_antisym x y). now destruct (fcmp x y).
Qed.

(** ** Sorting *)

Section SortedFacts.
Context {A : Type} (lt : A -> A -> bool).

Lemma insert_sorted_perm (x : A) (l : list A) :
  Permutation (insert_sorted lt x l) (x :: l).
Proof.
  induction l as [|y l IH]; simpl; [reflexivity|].
  destruct (lt y x); [|reflexivity].
  rewrite IH. apply perm_swap.
Qed.

Lemma sorted_perm (l : list A) : Permutation (sorted lt l) l.
Proof.
  induction l as [|x l IH]; simpl; [reflexivity|].
  rewrite insert_sorted_perm. now constructor.
Qed.

Context (R : A -> A -> Prop) (P : A -> Prop).
Hypothesis lt_R : forall x y, P x -> P y -> lt y x = true -> R y x.
Hypothesis not_lt_R : forall x y, P x -> P y -> lt y x = false -> R x y.
Hypothesis R_trans :
  forall x y z, P x -> P y -> P z -> R x y -> R y z -> R x z.

Lemma insert_sorted_sorted (x : A) (l : list A) :
  P x -> Forall P l -> StronglySorted R l ->
  StronglySorted R (insert_sorted lt x l).
Proof.
  intros Px. induction l as [|y l IH]; intros HP Hs; simpl.
  - repeat constructor.
  - inversion HP as [|? ? Py HP']; subst.
    inversion Hs as [|? ? Hs' Hall]; subst.
    destruct (lt y x) eqn:E.
    + constructor; [now apply IH|].
      apply (Permutation_Forall (Permutation_sym (insert_sorted_perm x l))).
      constructor; [now apply lt_R|exact Hall].
    + constructor; [exact Hs|].
      assert (R x y) as Rxy by (now apply not_lt_R).
      constructor; [exact Rxy|].
      rewrite Forall_forall in *. intros z Hz.
      apply (R_trans x y z); auto.
Qed.

Lemma sorted_sorted (l : list A) :
  Forall P l -> StronglySorted R (sorted lt l).
Proof.
  induction l as [|x l IH]; intros HP; simpl; [constructor|].
  inversion HP; subst.
  apply insert_sorted_sorted; auto.
  apply (Permutation_Forall (Permutation_sym (sorted_perm l))). assumption.
Qed.
End SortedFacts.

(** ** [sort_by_window] *)

Lemma window_getitem_valid (choice : string) (w : window_rec) :
  valid_choice choice = true ->
  window_getitem choice w = Ok (window_field choice w).
Proof.
  unfold valid_choice, str_in, window_field, window_getitem.
  cbn [existsb].
  destruct (choice =? "cc_shift_sec"); [reflexivity|].
  destruct (choice =? "dlna"); [reflexivity|].
  destruct (choice =? "weight"); [reflexivity|].
  destruct (choice =? "max_cc"); [reflexivity|].
  destruct (choice =? "length_s"); [reflexivity|].
  destruct (choice =? "rel_start"); [reflexivity|].
  destruct (choice =? "rel_end"); [reflexivity|discriminate].
Qed.

Lemma append_values (i : info_t) (vals values : list float)
    (info : list info_t) :
  fold_left (fun '(values, info) value => (values ++ [value], info ++ [i]))
            vals (values, info)
  = (values ++ map fst (map (fun v => (v, i)) vals),
     info ++ map snd (map (fun v => (v, i)) vals)).
Proof.
  revert values info. induction vals as [|v vals IH]; intros values info.
  - simpl. now rewrite !app_nil_r.
  - cbn [fold_left map fst snd]. rewrite IH, <- !app_assoc. reflexivity.
Qed.

Lemma collect_windows_gen (choice : string)
    (windows : dict (dict (dict window_rec))) values info :
  valid_choice choice = true ->
  foldM (collect_event choice) windows (values, info)
  = Ok (values ++ map fst (window_entries choice windows),
        info ++ map snd (window_entries choice windows)).
Proof.
  intros Hv. revert values info. unfold window_entries.
  induction windows as [|[event by_sta] windows IH]; intros values info.
  - simpl. now rewrite !app_nil_r.
  - cbn [foldM flat_map collect_event].
    assert (forall values info,
              foldM (collect_station choice event) by_sta (values, info)
              = Ok (values ++ map fst
                      (flat_map (fun '(sta, by_comp) =>
                         flat_map (fun '(comp, w) =>
                                     map (fun v => (v, (event, sta, comp)))
                                         (window_field choice w)) by_comp)
                         by_sta),
                    info ++ map snd
                      (flat_map (fun '(sta, by_comp) =>
                         flat_map (fun '(comp, w) =>
                                     map (fun v => (v, (event, sta, comp)))
                                         (window_field choice w)) by_comp)
                         by_sta))) as Hsta.
    { clear IH. induction by_sta as [|[sta by_comp] by_sta IHs];
        intros vs ts.
      - simpl. now rewrite !app_nil_r.
      - cbn [foldM flat_map collect_station].
        assert (forall vs ts,
                  foldM (collect_channel choice event sta) by_comp (vs, ts)
                  = Ok (vs ++ map fst
                          (flat_map (fun '(comp, w) =>
                                       map (fun v => (v, (event, sta, comp)))
                                           (window_field choice w)) by_comp),
                        ts ++ map snd
                          (flat_map (fun '(comp, w) =>
                                       map (fun v => (v, (event, sta, comp)))
                                           (window_field choice w)) by_comp)))
          as Hcha.
        { clear IHs. induction by_comp as [|[comp w] by_comp IHc];
            intros vs0 ts0.
          - simpl. now rewrite !app_nil_r.
          - cbn [foldM flat_map collect_channel].
            rewrite (window_getitem_valid choice w Hv). cbn [rbind].
            rewrite append_values, IHc, !map_app, <- !app_assoc.
            reflexivity. }
        rewrite Hcha. cbn [rbind].
        rewrite IHs, !map_app, <- !app_assoc. reflexivity. }
    rewrite Hsta. cbn [rbind]. rewrite IH, !map_app, <- !app_assoc.
    reflexivity.
Qed.

Lemma collect_windows_entries (choice : string)
    (windows : dict (dict (dict window_rec))) :
  valid_choice choice = true ->
  collect_windows choice windows
  = Ok (map fst (window_entries choice windows),
        map snd (window_entries choice windows)).
Proof.
  intros Hv. unfold collect_windows. now rewrite collect_windows_gen.
Qed.

Lemma combine_fst_snd {A B} (l : list (A * B)) :
  combine (map fst l) (map snd l) = l.
Proof.
  induction l as [|[a b] l IH]; simpl; [reflexivity|now rewrite IH].
Qed.

Lemma entry_lt_le (a b : float * info_t) :
  is_nan (fst a) = false -> is_nan (fst b) = false ->
  entry_lt b a = true -> value_le b a.
Proof.
  unfold entry_lt, value_le. intros Ha Hb.
  match goal with
  | |- context [if ?c then _ else _] => destruct c eqn:E
  end.
  - intros _. exact (proj1 (eqb_leb _ _ Hb Ha E)).
  - now apply ltb_leb.
Qed.

Lemma entry_not_lt_le (a b : float * info_t) :
  is_nan (fst a) = false -> is_nan (fst b) = false ->
  entry_lt b a = false -> value_le a b.
Proof.
  unfold entry_lt, value_le. intros Ha Hb.
  match goal with
  | |- context [if ?c then _ else _] => destruct c eqn:E
  end.
  - intros _. exact (proj2 (eqb_leb _ _ Hb Ha E)).
  - now apply not_ltb_leb.
Qed.

Lemma sorted_entries (l : list (float * info_t)) :
  no_nan (map fst l) = true ->
  StronglySorted (fun x y => (x <=? y)%float = true)
                 (map fst (sorted entry_lt l)).
Proof.
  intros Hnan.
  assert (Forall (fun a => is_nan (fst a) = false) l) as HP.
  { unfold no_nan in Hnan. rewrite forallb_forall in Hnan.
    apply Forall_forall. intros a Ha.
    specialize (Hnan (fst a) (in_map fst _ _ Ha)).
    now destruct (is_nan (fst a)). }
  pose proof (sorted_sorted entry_lt value_le
                (fun a => is_nan (fst a) = false)
                (fun x y Px Py => entry_lt_le x y Px Py)
                (fun x y Px Py => entry_not_lt_le x y Px Py)
                (fun x y z Px Py Pz => leb_trans _ _ _ Px Py Pz)
                l HP) as Hs.
  induction Hs as [|a l' Hs IH Hall]; simpl; constructor; [exact IH|].
  apply Forall_map. exact Hall.
Qed.




(** With a NaN among the values the order of [<] says nothing: 2.0, NaN,
    1.0 are in order as far as [<] can tell (neither NaN < 2.0 nor
    1.0 < NaN holds), and they come back as they are, 2.0 before 1.0. *)
Lemma sort_by_window_nan :
  sort_by_window "m00" "s00" "cc_shift_sec" nan_index
  = Ok ([2%float; nan; 1%float],
        [("e1", "s1", "c1"); ("e2", "s2", "c2"); ("e3", "s3", "c3")]).
Proof. reflexivity. Qed.

(** Where [sort_by_model("windows")] raises, [sort_by_window] raises the
    same: here on the step that the second event lacks, although both
    events have window records under (m00, s00). *)
Lemma sort_by_window_step_gap :
  sort_by_model_windows (fst (_get_info partial_steps)) = Raise (KeyError "s01")
  /\ sort_by_window "m00" "s00" "cc_shift_sec" (fst (_get_info partial_steps))
     = Raise (KeyError "s01").
Proof. split; reflexivity. Qed.

(** ** Statements on a part of an object *)

Lemma focus_for_each {S V A} (get : S -> result V) (put : V -> S -> S)
    (body : A -> M S unit) (f : A -> M V unit) (xs : list A) :
  lens_ok get put ->
  (forall x s v, In x xs -> get s = Ok v ->
                 body x s = focus get put (f x) s) ->
  forall s v,
    get s = Ok v ->
    for_each xs body s = focus get put (for_each xs f) s.
Proof.
  intros [Hgp Hpp Hpg]. induction xs as [|x xs IH]; intros Hbody s v Hs.
  - unfold focus. rewrite Hs. simpl. unfold ret. now rewrite (Hpg s v Hs).
  - cbn [for_each]. unfold bind at 1.
    rewrite (Hbody x s v (or_introl eq_refl) Hs).
    unfold focus at 1. rewrite Hs.
    unfold focus. rewrite Hs. unfold bind.
    destruct (f x v) as [v1 [[]|e]]; [|reflexivity].
    rewrite (IH (fun y s0 v0 H => Hbody y s0 v0 (or_intror H))
                (put v1 s) v1 (Hgp s v v1 Hs)).
    unfold focus. rewrite (Hgp s v v1 Hs).
    destruct (for_each xs f v1) as [v2 r].
    now rewrite (Hpp s v v1 v2 Hs).
Qed.

Lemma focus_bind {S V A B} (get : S -> result V) (put : V -> S -> S)
    (m : M V A) (k : A -> M V B) :
  lens_ok get put ->
  forall s,
    focus get put (bind m k) s
    = bind (focus get put m) (fun a => focus get put (k a)) s.
Proof.
  intros [Hgp Hpp Hpg] s. unfold focus, bind.
  destruct (get s) as [v|e] eqn:Hs; [|reflexivity].
  destruct (m v) as [v1 [a|e]]; [|reflexivity].
  rewrite (Hgp s v v1 Hs).
  destruct (k a v1) as [v2 r]. now rewrite (Hpp s v v1 v2 Hs).
Qed.

Lemma focus_ext {S V A} (get : S -> result V) (put : V -> S -> S)
    (m m' : M V A) s :
  (forall v, get s = Ok v -> m v = m' v) ->
  focus get put m s = focus get put m' s.
Proof.
  intros H. unfold focus. destruct (get s) as [v|e]; [|reflexivity].
  now rewrite (H v eq_refl).
Qed.

Lemma focus_in {S V W A} (get1 : S -> result V) (put1 : V -> S -> S)
    (get2 : V -> result W) (put2 : W -> V -> V) (m : M W A) s :
  focus get1 put1 (focus get2 put2 m) s
  = focus (get_in get1 get2) (put_in get1 put1 put2) m s
    \/ (exists v e, get1 s = Ok v /\ get2 v = Raise e).
Proof.
  unfold focus, get_in, put_in.
  destruct (get1 s) as [v|e]; cbn [rbind]; [|now left].
  destruct (get2 v) as [w|e] eqn:E; [|right; eauto].
  left. now destruct (m w).
Qed.

Lemma lens_in {S V W} (get1 : S -> result V) (put1 : V -> S -> S)
    (get2 : V -> result W) (put2 : W -> V -> V) :
  lens_ok get1 put1 -> lens_ok get2 put2 ->
  lens_ok (get_in get1 get2) (put_in get1 put1 put2).
Proof.
  intros [Hgp1 Hpp1 Hpg1] [Hgp2 Hpp2 Hpg2].
  unfold get_in, put_in. split.
  - intros s w w' H. destruct (get1 s) as [v|] eqn:E1; [|discriminate].
    cbn [rbind] in H. rewrite (Hgp1 s v _ E1). cbn [rbind]. eauto.
  - intros s w w' w'' H. destruct (get1 s) as [v|] eqn:E1; [|discriminate].
    cbn [rbind] in H. rewrite (Hgp1 s v _ E1).
    rewrite (Hpp1 s v _ _ E1). now rewrite (Hpp2 v w w' w'' H).
  - intros s w H. destruct (get1 s) as [v|] eqn:E1; [|discriminate].
    cbn [rbind] in H. rewrite (Hpg2 v w H). eauto.
Qed.

Lemma lens_key {V} (k : string) : lens_ok (@getitem V k) (dict_set k).
Proof.
  unfold getitem. split.
  - intros d v v' _. now rewrite dict_get_set_same.
  - intros d v v' v'' _. apply dict_set_set.
  - intros d v H. apply dict_set_same.
    destruct (dict_get k d); [now injection H as ->|discriminate].
Qed.

Lemma with_misfits_same (self : Inspector) :
  with_misfits (misfits self) self = self.
Proof. now destruct self. Qed.

Lemma lens_event (eid : string) : lens_ok (get_event eid) (put_event eid).
Proof.
  unfold get_event, put_event, getitem. split.
  - intros s v v' _. cbn [misfits with_misfits].
    now rewrite dict_get_set_same.
  - intros s v v' v'' _. cbn [misfits with_misfits].
    now rewrite dict_set_set.
  - intros s v H. rewrite dict_set_same; [apply with_misfits_same|].
    destruct (dict_get eid (misfits s)); [now injection H as ->|discriminate].
Qed.

Lemma lens_model (eid model : string) :
  lens_ok (get_model eid model) (put_model eid model).
Proof. apply lens_in; [apply lens_event|apply lens_key]. Qed.

Lemma lens_step (eid model step : string) :
  lens_ok (get_step eid model step) (put_step eid model step).
Proof. apply lens_in; [apply lens_model|apply lens_key]. Qed.

Lemma zoom_focus {V A} (k : string) (m : M V A) (d : dict V) :
  zoom k m d = focus (getitem k) (dict_set k) m d.
Proof.
  unfold zoom, focus, getitem. now destruct (dict_get k d).
Qed.

(** The statements of [get_misfits], as statements on the table they
    reach. *)
Lemma on_event (eid : string) {A} (m : M _ A) (self : Inspector) :
  on_misfits (zoom eid m) self = focus (get_event eid) (put_event eid) m self.
Proof.
  unfold on_misfits, zoom, focus, get_event, put_event, getitem.
  destruct (dict_get eid (misfits self)) as [v|] eqn:E.
  - now destruct (m v).
  - now rewrite with_misfits_same.
Qed.

Lemma on_model (eid model : string) {A} (m : M _ A) (self : Inspector) v :
  get_model eid model self = Ok v ->
  on_misfits (zoom eid (zoom model m)) self
  = focus (get_model eid model) (put_model eid model) m self.
Proof.
  intros H. rewrite on_event.
  rewrite (focus_ext _ _ _ (focus (getitem model) (dict_set model) m))
    by (intros; apply zoom_focus).
  destruct (focus_in (get_event eid) (put_event eid)
              (getitem model) (dict_set model) m self)
    as [E|(v1 & e & E1 & E2)]; [exact E|].
  unfold get_model, get_in in H. rewrite E1 in H. cbn [rbind] in H.
  congruence.
Qed.

Lemma on_step (eid model step : string) {A} (m : M _ A)
    (self : Inspector) v :
  get_step eid model step self = Ok v ->
  on_misfits (zoom eid (zoom model (zoom step m))) self
  = focus (get_step eid model step) (put_step eid model step) m self.
Proof.
  intros H.
  assert (exists v1, get_model eid model self = Ok v1) as [v1 H1].
  { unfold get_step, get_in in H.
    destruct (get_model eid model self); [eauto|discriminate]. }
  rewrite (on_model eid model _ self v1 H1).
  rewrite (focus_ext _ _ _ (focus (getitem step) (dict_set step) m))
    by (intros; apply zoom_focus).
  destruct (focus_in (get_model eid model) (put_model eid model)
              (getitem step) (dict_set step) m self)
    as [E|(v2 & e & E1 & E2)]; [exact E|].
  unfold get_step, get_in in H. rewrite E1 in H. cbn [rbind] in H.
  congruence.
Qed.

(** ** [get_misfits]: the table of one step *)

Lemma str_in_In (x : string) (l : list string) :
  str_in x l = true <-> In x l.
Proof.
  unfold str_in. rewrite existsb_exists. split.
  - intros (y & Hy & E). apply String.eqb_eq in E. now subst.
  - intros H. exists x. split; [exact H|apply String.eqb_refl].
Qed.

Lemma unique_NoDup (l : list string) : unique l = true -> NoDup l.
Proof.
  induction l as [|x l IH]; simpl; intros H; [constructor|].
  apply andb_prop in H. destruct H as [H1 H2].
  constructor; [|auto].
  intros Hin. apply str_in_In in Hin. rewrite Hin in H1. discriminate.
Qed.

Lemma add_misfit_step (num_win : dict Z) (station : AdjointSource)
    (d : dict misfit_rec) (n : Z) :
  dict_get (station_id station) num_win = Some n ->
  add_misfit num_win station d
  = (dict_set (station_id station)
       match dict_get (station_id station) d with
       | Some r => {| msft := (msft r + misfit_value station)%float;
                      nwin := nwin r |}
       | None => {| msft := (0 + misfit_value station)%float; nwin := n |}
       end d, Ok tt).
Proof.
  intros Hn. unfold add_misfit, bind, dict_in, zoom, modify, getitem.
  destruct (dict_get (station_id station) d) as [r|] eqn:E.
  - now rewrite E.
  - rewrite Hn, dict_get_set_same, dict_set_set. reflexivity.
Qed.

Lemma add_misfit_loop (num_win : dict Z) (stations : list AdjointSource) :
  counted num_win stations = true ->
  forall d,
  exists d1,
    for_each stations (add_misfit num_win) d = (d1, Ok tt)
    /\ (NoDup (dict_keys d) -> NoDup (dict_keys d1))
    /\ forall sta,
        dict_get sta d1
        = match dict_get sta d with
          | Some r =>
              Some {| msft := fold_left PrimFloat.add
                                (contributions sta stations) (msft r);
                      nwin := nwin r |}
          | None =>
              if str_in sta (map station_id stations)
              then option_map
                     (fun n => {| msft := fold_left PrimFloat.add
                                            (contributions sta stations) 0%float;
                                  nwin := n |})
                     (dict_get sta num_win)
              else None
          end.
Proof.
  induction stations as [|st stations IH]; intros Hc d.
  - exists d. split; [reflexivity|]. split; [auto|].
    intros sta. simpl. now destruct (dict_get sta d) as [[]|].
  - cbn [counted forallb] in Hc. apply andb_prop in Hc.
    destruct Hc as [Hst Hc].
    destruct (dict_get (station_id st) num_win) as [n|] eqn:Hn;
      [|discriminate].
    pose proof (add_misfit_step num_win st d n Hn) as Hstep.
    set (r' := match dict_get (station_id st) d with
               | Some r => {| msft := (msft r + misfit_value st)%float;
                              nwin := nwin r |}
               | None => {| msft := (0 + misfit_value st)%float; nwin := n |}
               end) in *.
    destruct (IH Hc (dict_set (station_id st) r' d)) as (d1 & Hrun & Hnd & Hget).
    exists d1. split; [|split].
    + cbn [for_each]. unfold bind. rewrite Hstep. exact Hrun.
    + intros H. apply Hnd. now apply dict_set_NoDup.
    + intros sta. rewrite Hget, dict_get_set.
      unfold contributions. cbn [filter map str_in existsb].
      rewrite (String.eqb_sym (station_id st) sta).
      destruct (String.eqb_spec sta (station_id st)) as [->|Hne].
      * subst r'. cbn [map fold_left orb].
        destruct (dict_get (station_id st) d) as [r|]; cbn [msft nwin].
        -- reflexivity.
        -- rewrite Hn. reflexivity.
      * cbn [orb]. fold (str_in sta (map station_id stations)).
        reflexivity.
Qed.

Lemma scale_misfit_step (r : misfit_rec) :
  nwin r <> 0%Z -> scale_misfit r = (scale r, Ok tt).
Proof.
  intros H. unfold scale_misfit, truediv_int.
  destruct (Z.eqb_spec (2 * nwin r) 0); [lia|reflexivity].
Qed.

Lemma scale_loop (ks : list string) :
  NoDup ks ->
  forall d,
    (forall k, In k ks -> exists r, dict_get k d = Some r /\ nwin r <> 0%Z) ->
    exists d2,
      for_each ks (fun sta_id => zoom sta_id scale_misfit) d = (d2, Ok tt)
      /\ forall sta,
          dict_get sta d2
          = if str_in sta ks then option_map scale (dict_get sta d)
            else dict_get sta d.
Proof.
  induction ks as [|k ks IH]; intros Hnd d Hin.
  - exists d. split; reflexivity.
  - inversion Hnd as [|? ? Hnotin Hnd']; subst.
    destruct (Hin k (or_introl eq_refl)) as (r & Hr & Hn).
    destruct (IH Hnd' (dict_set k (scale r) d)) as (d2 & Hrun & Hget).
    { intros k' Hk'. destruct (Hin k' (or_intror Hk')) as (r' & Hr' & Hn').
      exists r'. split; [|exact Hn'].
      rewrite dict_get_set_other; [exact Hr'|]. intros ->. tauto. }
    exists d2. split.
    + cbn [for_each]. unfold bind, zoom. rewrite Hr.
      rewrite (scale_misfit_step r Hn). exact Hrun.
    + intros sta. rewrite Hget, dict_get_set. cbn [str_in existsb].
      fold (str_in sta ks).
      destruct (String.eqb_spec sta k) as [->|Hne]; cbn [orb].
      * destruct (str_in k ks) eqn:E;
          [apply str_in_In in E; tauto|]. now rewrite Hr.
      * reflexivity.
Qed.

Lemma counted_In (num_win : dict Z) (stations : list AdjointSource) sta :
  counted num_win stations = true ->
  In sta (map station_id stations) ->
  exists n, dict_get sta num_win = Some n /\ n <> 0%Z.
Proof.
  unfold counted. rewrite forallb_forall. intros H Hin.
  apply in_map_iff in Hin. destruct Hin as (st & <- & Hst).
  specialize (H st Hst).
  destruct (dict_get (station_id st) num_win) as [n|]; [|discriminate].
  exists n. split; [reflexivity|].
  destruct (Z.eqb_spec n 0); [discriminate|assumption].
Qed.

(** The two loops fill the table of a step with the scaled misfits of
    the stations that have an adjoint source. *)
Lemma step_table_runs (num_win : dict Z) (stations : list AdjointSource) :
  counted num_win stations = true ->
  exists d1,
    for_each stations (add_misfit num_win) [] = (d1, Ok tt)
    /\ for_each (dict_keys d1) (fun sta_id => zoom sta_id scale_misfit) d1
       = (step_table num_win stations, Ok tt)
    /\ forall sta,
        dict_get sta (step_table num_win stations)
        = if str_in sta (map station_id stations)
          then option_map (scaled_misfit sta stations) (dict_get sta num_win)
          else None.
Proof.
  intros Hc.
  destruct (add_misfit_loop num_win stations Hc []) as (d1 & Hrun & Hnd & Hget).
  specialize (Hnd (NoDup_nil _)).
  assert (forall k, In k (dict_keys d1) ->
                    exists r, dict_get k d1 = Some r /\ nwin r <> 0%Z) as Hk.
  { intros k Hin. rewrite Hget. cbn [dict_get].
    destruct (str_in k (map station_id stations)) eqn:E.
    - apply str_in_In in E.
      destruct (counted_In _ _ _ Hc E) as (n & Hn & Hn0).
      rewrite Hn. cbn [option_map]. eexists. split; [reflexivity|exact Hn0].
    - exfalso. destruct (dict_get k d1) eqn:E1.
      + rewrite Hget in E1. cbn [dict_get] in E1. rewrite E in E1.
        discriminate.
      + apply dict_get_None in E1. tauto. }
  destruct (scale_loop (dict_keys d1) Hnd d1 Hk) as (d2 & Hrun2 & Hget2).
  assert (step_table num_win stations = d2) as Htab.
  { unfold step_table. rewrite Hrun. cbn [fst]. now rewrite Hrun2. }
  exists d1. split; [exact Hrun|]. split; [now rewrite Htab|].
  intros sta. rewrite Htab, Hget2, Hget. cbn [dict_get].
  destruct (str_in sta (map station_id stations)) eqn:E.
  - apply str_in_In in E.
    destruct (counted_In _ _ _ Hc E) as (n & Hn & Hn0).
    rewrite Hn. cbn [option_map].
    assert (str_in sta (dict_keys d1) = true) as ->.
    { apply str_in_In. apply (dict_get_Some_key sta
        {| msft := fold_left PrimFloat.add (contributions sta stations) 0%float;
           nwin := n |}).
      rewrite Hget. cbn [dict_get].
      assert (str_in sta (map station_id stations) = true) as ->
          by (now apply str_in_In).
      now rewrite Hn. }
    reflexivity.
  - now destruct (str_in sta (dict_keys d1)).
Qed.

(** ** [get_misfits]: the loops over steps and models *)

Lemma for_each_setitem {V W} (T : string -> V -> W) (l : dict V)
    (d : dict W) :
  for_each l (fun '(k, v) => setitem k (T k v)) d
  = (fold_left (fun out '(k, v) => dict_set k (T k v) out) l d, Ok tt).
Proof.
  revert d. induction l as [|[k v] l IH]; intros d; [reflexivity|].
  cbn [for_each fold_left]. unfold bind, setitem, modify. apply IH.
Qed.

Lemma focus_run {S V A} (get : S -> result V) (put : V -> S -> S)
    (m : M V A) s v v' r :
  get s = Ok v -> m v = (v', r) -> focus get put m s = (put v' s, r).
Proof. intros Hs Hm. unfold focus. now rewrite Hs, Hm. Qed.

Lemma get_misfits_step_runs (ext : Externals) (ds : ASDFDataSet)
    (eid model step : string) (stations : list AdjointSource)
    (self : Inspector) by_step :
  counted (count_misfit_windows ext ds model step) stations = true ->
  get_model eid model self = Ok by_step ->
  get_misfits_step ext ds eid model (step, stations) self
  = focus (get_model eid model) (put_model eid model)
          (setitem step
             (step_table (count_misfit_windows ext ds model step) stations))
          self.
Proof.
  intros Hc Hm.
  set (nw := count_misfit_windows ext ds model step) in *.
  destruct (step_table_runs nw stations Hc) as (d1 & Hrun1 & Hrun2 & _).
  pose proof (lens_model eid model) as Lm.
  pose proof (lens_step eid model step) as Ls.
  set (s1 := put_model eid model (dict_set step [] by_step) self).
  assert (get_model eid model s1 = Ok (dict_set step [] by_step)) as Hm1
      by (apply (get_put _ _ Lm self by_step); exact Hm).
  assert (get_step eid model step s1 = Ok []) as Hs1.
  { unfold get_step, get_in. rewrite Hm1. cbn [rbind].
    unfold getitem. now rewrite dict_get_set_same. }
  set (s2 := put_step eid model step d1 s1).
  assert (get_step eid model step s2 = Ok d1) as Hs2
      by (apply (get_put _ _ Ls s1 []); exact Hs1).
  (* the four statements, one at a time *)
  assert (on_misfits (zoom eid (zoom model (setitem step []))) self
          = (s1, Ok tt)) as E1.
  { rewrite (on_model eid model _ self by_step Hm).
    now apply focus_run with (v := by_step). }
  assert (for_each stations (fun station =>
            on_misfits (zoom eid (zoom model (zoom step
              (add_misfit nw station))))) s1 = (s2, Ok tt)) as E2.
  { rewrite (focus_for_each (get_step eid model step)
               (put_step eid model step) _ (add_misfit nw) stations Ls)
      with (v := []);
      [now apply focus_run with (v := [])| |exact Hs1].
    intros x s v _ Hs. now apply on_step with (v := v). }
  assert ((by_model <~ getitem eid (misfits s2) ;;
           by_step <~ getitem model by_model ;;
           by_sta <~ getitem step by_step ;;
           Ok (dict_keys by_sta)) = Ok (dict_keys d1)) as E3.
  { unfold get_step, get_model, get_event, get_in in Hs2.
    destruct (getitem eid (misfits s2)) as [bm|]; [|discriminate].
    cbn [rbind] in *.
    destruct (getitem model bm) as [bs|]; [|discriminate].
    cbn [rbind] in *. now rewrite Hs2. }
  assert (for_each (dict_keys d1) (fun sta_id =>
            on_misfits (zoom eid (zoom model (zoom step
              (zoom sta_id scale_misfit))))) s2
          = (put_step eid model step (step_table nw stations) s2, Ok tt))
    as E4.
  { rewrite (focus_for_each (get_step eid model step)
               (put_step eid model step) _
               (fun sta_id => zoom sta_id scale_misfit) (dict_keys d1) Ls)
      with (v := d1);
      [now apply focus_run with (v := d1)| |exact Hs2].
    intros x s v _ Hs. now apply on_step with (v := v). }
  unfold get_misfits_step. fold nw. unfold bind.
  rewrite E1, E2, E3, E4.
  rewrite (focus_run _ _ _ self by_step
             (dict_set step (step_table nw stations) by_step) (Ok tt) Hm)
    by reflexivity.
  f_equal. unfold s2.
  rewrite (put_put _ _ Ls s1 [] d1 _ Hs1).
  unfold put_step, put_in. rewrite Hm1. rewrite dict_set_set.
  unfold s1. now rewrite (put_put _ _ Lm self by_step _ _ Hm).
Qed.

Lemma get_misfits_model_runs (ext : Externals) (ds : ASDFDataSet)
    (eid model : string) (steps : dict (list AdjointSource))
    (self : Inspector) by_model :
  forallb (fun '(step, stations) =>
             counted (count_misfit_windows ext ds model step) stations)
          steps = true ->
  get_event eid self = Ok by_model ->
  get_misfits_model ext ds eid (model, steps) self
  = focus (get_event eid) (put_event eid)
          (setitem model (model_table ext ds model steps)) self.
Proof.
  intros Hc He.
  pose proof (lens_event eid) as Le.
  pose proof (lens_model eid model) as Lm.
  set (s1 := put_event eid (dict_set model [] by_model) self).
  assert (get_event eid s1 = Ok (dict_set model [] by_model)) as He1
      by (apply (get_put _ _ Le self by_model); exact He).
  assert (get_model eid model s1 = Ok []) as Hm1.
  { unfold get_model, get_in. rewrite He1. cbn [rbind].
    unfold getitem. now rewrite dict_get_set_same. }
  assert (on_misfits (zoom eid (setitem model [])) self = (s1, Ok tt)) as E1.
  { rewrite on_event. now apply focus_run with (v := by_model). }
  assert (for_each steps (get_misfits_step ext ds eid model) s1
          = (put_model eid model (model_table ext ds model steps) s1, Ok tt))
    as E2.
  { rewrite (focus_for_each (get_model eid model) (put_model eid model) _
               (fun '(step, stations) =>
                  setitem step
                    (step_table (count_misfit_windows ext ds model step)
                                stations))
               steps Lm) with (v := []);
      [apply focus_run with (v := []);
       [exact Hm1|apply for_each_setitem]| |exact Hm1].
    intros [step stations] s v Hin Hs.
    apply get_misfits_step_runs with (by_step := v); [|exact Hs].
    rewrite forallb_forall in Hc. exact (Hc _ Hin). }
  unfold get_misfits_model, bind. rewrite E1, E2.
  rewrite (focus_run _ _ _ self by_model
             (dict_set model (model_table ext ds model steps) by_model)
             (Ok tt) He) by reflexivity.
  f_equal. unfold put_model, put_in. rewrite He1, dict_set_set.
  unfold s1. now rewrite (put_put _ _ Le self by_model _ _ He).
Qed.

Lemma get_misfits_runs (ext : Externals) (ds : ASDFDataSet)
    (self : Inspector) :
  wf_adjoint ext ds = true ->
  get_misfits ext ds self
  = (with_misfits (dict_set (event_id ext ds) (event_table ext ds)
                            (misfits self)) self, Ok tt).
Proof.
  unfold wf_adjoint. intros Hwf. apply andb_prop in Hwf.
  destruct Hwf as [_ Hwf].
  set (eid := event_id ext ds).
  pose proof (lens_event eid) as Le.
  set (s0 := with_misfits (dict_set eid [] (misfits self)) self).
  assert (get_event eid s0 = Ok []) as He0.
  { unfold get_event, getitem, s0. cbn [misfits with_misfits].
    now rewrite dict_get_set_same. }
  assert (for_each (AdjointSources ds) (get_misfits_model ext ds eid) s0
          = (put_event eid (event_table ext ds) s0, Ok tt)) as E.
  { rewrite (focus_for_each (get_event eid) (put_event eid) _
               (fun '(model, steps) =>
                  setitem model (model_table ext ds model steps))
               (AdjointSources ds) Le) with (v := []);
      [apply focus_run with (v := []);
       [exact He0|apply for_each_setitem]| |exact He0].
    intros [model steps] s v Hin Hs.
    apply get_misfits_model_runs with (by_model := v); [|exact Hs].
    rewrite forallb_forall in Hwf. specialize (Hwf _ Hin). cbn in Hwf.
    apply andb_prop in Hwf. tauto. }
  unfold get_misfits. fold eid. unfold bind, on_misfits, setitem, modify.
  fold s0. rewrite E. f_equal.
  unfold put_event, s0. cbn [misfits with_misfits].
  rewrite dict_set_set. reflexivity.
Qed.

(** C1.  [get_misfits] ingests a dataset whose model and step names are
    distinct and whose stations all have a window count that is not
    zero; then, for every model and step of the dataset, the record kept
    for a station that has adjoint sources holds the sum of its raw
    misfit contributions, in order, divided once by 2 times its window
    count, and the stations without an adjoint source have no record. *)
Theorem get_misfits_scaled (ext : Externals) (ds : ASDFDataSet)
    (self : Inspector) :
  wf_adjoint ext ds = true ->
  exists self',
    get_misfits ext ds self = (self', Ok tt)
    /\ forall model steps step stations sta,
        dict_get model (AdjointSources ds) = Some steps ->
        dict_get step steps = Some stations ->
        lookup4 (event_id ext ds) model step sta (misfits self')
        = if str_in sta (map station_id stations)
          then option_map (scaled_misfit sta stations)
                 (dict_get sta (count_misfit_windows ext ds model step))
          else None.
Proof.
  intros Hwf. eexists. split; [now apply get_misfits_runs|].
  intros model steps step stations sta Hmodel Hstep.
  unfold wf_adjoint in Hwf. apply andb_prop in Hwf.
  destruct Hwf as [Hu Hwf]. apply unique_NoDup in Hu.
  rewrite forallb_forall in Hwf.
  specialize (Hwf _ (dict_get_In _ _ _ Hmodel)). cbn in Hwf.
  apply andb_prop in Hwf. destruct Hwf as [Hu2 Hc].
  apply unique_NoDup in Hu2. rewrite forallb_forall in Hc.
  specialize (Hc _ (dict_get_In _ _ _ Hstep)). cbn in Hc.
  cbn [misfits with_misfits]. unfold lookup4, lookup3, lookup2.
  rewrite dict_get_set_same. unfold event_table.
  rewrite (fold_set_get (model_table ext ds)) by exact Hu.
  rewrite Hmodel. unfold model_table.
  rewrite (fold_set_get
             (fun step stations =>
                step_table (count_misfit_windows ext ds model step) stations))
    by exact Hu2.
  rewrite Hstep.
  destruct (step_table_runs _ _ Hc) as (_ & _ & _ & Hget). apply Hget.
Qed.

(** Raw contributions 2.0 and 3.0 with a window count of 5: the record
    kept holds 0.5. *)
Lemma get_misfits_scaled_witness :
  wf_adjoint sample_ext sample_ds = true
  /\ exists self',
      get_misfits sample_ext sample_ds (new_Inspector (-60)) = (self', Ok tt)
      /\ lookup4 "2018p130600" "m00" "s00" "NZ.BFZ" (misfits self')
         = Some {| msft := 0.5; nwin := 5 |}.
Proof.
  split; [reflexivity|].
  destruct (get_misfits_scaled sample_ext sample_ds (new_Inspector (-60))
              eq_refl) as (self' & Hrun & Hlook).
  exists self'. split; [exact Hrun|].
  exact (Hlook "m00" _ "s00" _ "NZ.BFZ" eq_refl eq_refl).
Defined.

(** ** Sorting the items of a dictionary *)

Lemma dict_get_perm {V} (d d' : dict V) (k : string) :
  NoDup (dict_keys d) -> Permutation d d' ->
  dict_get k d' = dict_get k d.
Proof.
  intros Hnd Hp.
  assert (NoDup (dict_keys d')) as Hnd'
      by (eapply Permutation_NoDup; [apply Permutation_map; exact Hp|exact Hnd]).
  destruct (dict_get k d) as [v|] eqn:E.
  - apply dict_get_NoDup_In; [exact Hnd'|].
    eapply Permutation_in; [exact Hp|]. now apply dict_get_In.
  - apply dict_get_None. apply dict_get_None in E. intros Hin. apply E.
    eapply Permutation_in; [|exact Hin].
    apply Permutation_map. now apply Permutation_sym.
Qed.

Lemma sorted_keys_NoDup {V} (d : dict V) :
  NoDup (dict_keys d) -> NoDup (dict_keys (sorted key_lt d)).
Proof.
  intros H. eapply Permutation_NoDup; [|exact H].
  apply Permutation_map. apply Permutation_sym. apply sorted_perm.
Qed.

Lemma insert_sorted_map {V W} (g : V -> W) (k : string) (v : V)
    (l : dict V) :
  insert_sorted key_lt (k, g v) (map (fun '(k, v) => (k, g v)) l)
  = map (fun '(k, v) => (k, g v)) (insert_sorted key_lt (k, v) l).
Proof.
  induction l as [|[k' v'] l IH]; [reflexivity|].
  cbn [map insert_sorted]. unfold key_lt at 1 3. cbn [fst].
  destruct (String.ltb k' k); [|reflexivity].
  cbn [map]. now rewrite IH.
Qed.

Lemma sorted_map {V W} (g : V -> W) (d : dict V) :
  sorted key_lt (map (fun '(k, v) => (k, g v)) d)
  = map (fun '(k, v) => (k, g v)) (sorted key_lt d).
Proof.
  induction d as [|[k v] d IH]; [reflexivity|].
  cbn [map sorted fold_right]. fold (sorted (@key_lt V) d).
  fold (sorted (@key_lt W) (map (fun '(k, v) => (k, g v)) d)).
  rewrite IH. apply insert_sorted_map.
Qed.

Lemma from_items_NoDup {V} (l : list (string * V)) :
  NoDup (dict_keys l) -> from_items l = l.
Proof.
  unfold from_items.
  assert (forall acc : dict V,
             NoDup (dict_keys (acc ++ l)) ->
             fold_left (fun d '(k, v) => dict_set k v d) l acc = acc ++ l) as G.
  { induction l as [|[k v] l IH]; intros acc Hnd.
    - simpl. now rewrite app_nil_r.
    - cbn [fold_left].
      assert (dict_set k v acc = acc ++ [(k, v)]) as ->.
      { unfold dict_keys in Hnd. rewrite map_app in Hnd.
        apply NoDup_remove_2 in Hnd.
        assert (~ In k (dict_keys acc)) as Hk
            by (intros H; apply Hnd; apply in_or_app; now left).
        clear - Hk. induction acc as [|[k0 v0] acc IH]; [reflexivity|].
        cbn [dict_set]. destruct (String.eqb_spec k k0) as [->|Hne].
        - exfalso. apply Hk. now left.
        - cbn [app]. rewrite IH; [reflexivity|].
          intros H. apply Hk. now right. }
      rewrite IH; rewrite <- app_assoc; [reflexivity|exact Hnd]. }
  intros H. apply (G []). exact H.
Qed.

(** ** Documents read back *)

Lemma mapM_items {A B} (h : A -> json) (g : json -> option B)
    (R : B -> A -> Prop) (d : dict A) :
  (forall k a, In (k, a) d -> exists b, g (h a) = Some b /\ R b a) ->
  exists l,
    mapM (fun '(k, x) => option_map (pair k) (g x))
         (map (fun '(k, a) => (k, h a)) d) = Some l
    /\ dict_keys l = dict_keys d
    /\ Forall2 (fun kb ka => fst kb = fst ka /\ R (snd kb) (snd ka)) l d.
Proof.
  induction d as [|[k a] d IH]; intros H.
  - exists []. repeat split; constructor.
  - destruct (H k a (or_introl eq_refl)) as (b & Hb & HR).
    destruct (IH (fun k' a' Hin => H k' a' (or_intror Hin)))
      as (l & Hl & Hk & HF).
    exists ((k, b) :: l). cbn [map mapM]. rewrite Hb, Hl.
    cbn [option_map]. split; [reflexivity|]. split.
    + cbn [dict_keys map fst]. f_equal. exact Hk.
    + constructor; [split; [reflexivity|exact HR]|exact HF].
Qed.

Lemma Forall2_dict_get {A B} (R : B -> A -> Prop) (l : dict B) (d : dict A)
    (k : string) :
  Forall2 (fun kb ka => fst kb = fst ka /\ R (snd kb) (snd ka)) l d ->
  match dict_get k l, dict_get k d with
  | Some b, Some a => R b a
  | None, None => True
  | _, _ => False
  end.
Proof.
  induction 1 as [|[k1 b] [k2 a] l d [Hk HR] HF IH]; [exact I|].
  cbn [fst snd] in *. subst k2. cbn [dict_get].
  destruct (String.eqb k k1); [exact HR|exact IH].
Qed.

Lemma wf_dict_spec {V} (wfv : V -> bool) (d : dict V) :
  wf_dict wfv d = true ->
  NoDup (dict_keys d) /\ forall k v, In (k, v) d -> wfv v = true.
Proof.
  unfold wf_dict. intros H. apply andb_prop in H. destruct H as [H1 H2].
  split; [now apply unique_NoDup|].
  intros k v Hin. rewrite forallb_forall in H2. exact (H2 _ Hin).
Qed.

(** A dictionary written with sorted keys and read back is an equal
    dictionary, when its values are read back equal. *)
Lemma dict_roundtrip {A} (f : A -> json) (g : json -> option A)
    (R : A -> A -> Prop) (wfa : A -> bool) :
  (forall a, wfa a = true ->
             exists b, g (sort_keys (f a)) = Some b /\ R b a) ->
  forall d,
    wf_dict wfa d = true ->
    exists d',
      dict_of_json g (sort_keys (json_of_dict f d)) = Some d'
      /\ dict_eqv R d' d.
Proof.
  intros Hleaf d Hwf. apply wf_dict_spec in Hwf. destruct Hwf as [Hnd Hv].
  unfold json_of_dict. cbn [sort_keys]. rewrite map_map.
  assert (map (fun x : string * A =>
                 let '(k, v) := let '(k, v) := x in (k, f v) in
                 (k, sort_keys v)) d
          = map (fun '(k, v) => (k, sort_keys (f v))) d) as ->
      by (apply map_ext; now intros [k v]).
  rewrite (sorted_map (fun v => sort_keys (f v))).
  destruct (mapM_items (fun a => sort_keys (f a)) g R (sorted key_lt d))
    as (l & Hl & Hk & HF).
  { intros k a Hin. apply Hleaf. apply (Hv k).
    eapply Permutation_in; [apply sorted_perm|exact Hin]. }
  exists l. split.
  - cbn [dict_of_json]. rewrite Hl. f_equal. apply from_items_NoDup.
    rewrite Hk. now apply sorted_keys_NoDup.
  - intros k. pose proof (Forall2_dict_get R l _ k HF) as H.
    rewrite (dict_get_perm d (sorted key_lt d) k Hnd) in H;
      [exact H|apply Permutation_sym; apply sorted_perm].
Qed.

Lemma floats_roundtrip (l : list float) :
  list_of_json float_of_json (sort_keys (json_of_list JFloat l)) = Some l.
Proof.
  unfold json_of_list. cbn [sort_keys list_of_json]. rewrite map_map.
  cbn [sort_keys]. induction l as [|x l IH]; [reflexivity|].
  cbn [map mapM float_of_json]. now rewrite IH.
Qed.

Lemma misfit_roundtrip (r : misfit_rec) :
  wf_leaf r = true ->
  exists r', misfit_of_json (sort_keys (json_of_misfit r)) = Some r'
             /\ r' = r.
Proof. intros _. exists r. split; [|reflexivity]. now destruct r. Qed.

Lemma window_roundtrip (w : window_rec) :
  wf_leaf w = true ->
  exists w', window_of_json (sort_keys (json_of_window w)) = Some w'
             /\ w' = w.
Proof.
  intros _. exists w. split; [|reflexivity].
  destruct w as [a b c d e f g].
  pose proof (floats_roundtrip a) as Ha. pose proof (floats_roundtrip b) as Hb.
  pose proof (floats_roundtrip c) as Hc. pose proof (floats_roundtrip d) as Hd.
  pose proof (floats_roundtrip e) as He. pose proof (floats_roundtrip f) as Hf.
  pose proof (floats_roundtrip g) as Hg.
  unfold window_of_json, json_of_window.
  cbn [cc_shift_sec dlna weight max_cc length_s rel_start rel_end].
  change (sort_keys
            (JObject
               [("cc_shift_sec", json_of_list JFloat a);
                ("dlna", json_of_list JFloat b);
                ("weight", json_of_list JFloat c);
                ("max_cc", json_of_list JFloat d);
                ("length_s", json_of_list JFloat e);
                ("rel_start", json_of_list JFloat f);
                ("rel_end", json_of_list JFloat g)]))
    with (JObject
            [("cc_shift_sec", sort_keys (json_of_list JFloat a));
             ("dlna", sort_keys (json_of_list JFloat b));
             ("length_s", sort_keys (json_of_list JFloat e));
             ("max_cc", sort_keys (json_of_list JFloat d));
             ("rel_end", sort_keys (json_of_list JFloat g));
             ("rel_start", sort_keys (json_of_list JFloat f));
             ("weight", sort_keys (json_of_list JFloat c))]).
  unfold field, from_items. cbn [fold_left dict_set dict_get String.eqb
                                   Ascii.eqb Bool.eqb].
  now rewrite Ha, Hb, Hc, Hd, He, Hf, Hg.
Qed.

Lemma float_roundtrip (x : float) :
  wf_leaf x = true ->
  exists y, float_of_json (sort_keys (JFloat x)) = Some y /\ y = x.
Proof. intros _. now exists x. Qed.

Lemma val_roundtrip (v : srcrcv_val) :
  wf_val v = true ->
  exists v', val_of_json (sort_keys (json_of_val v)) = Some v'
             /\ val_eqv v' v.
Proof.
  destruct v as [x|s|d]; intros Hwf.
  - now exists (VFloat x).
  - now exists (VStr s).
  - destruct (dict_roundtrip JFloat float_of_json eq wf_leaf
                float_roundtrip d Hwf) as (d' & Hd & He).
    exists (VDict d'). split; [|exact He].
    cbn [json_of_val]. unfold json_of_dict in *. cbn [sort_keys] in *.
    cbn [val_of_json]. now rewrite Hd.
Qed.

Lemma srcrcv_roundtrip (x : srcrcv_t) :
  wf_dict (wf_dict wf_val) x = true ->
  exists y, srcrcv_of_json (sort_keys (json_of_srcrcv x)) = Some y
            /\ srcrcv_eqv y x.
Proof.
  apply dict_roundtrip. apply dict_roundtrip. apply val_roundtrip.
Qed.

Lemma misfits_roundtrip (x : misfits_t) :
  wf_dict (wf_dict (wf_dict (wf_dict wf_leaf))) x = true ->
  exists y, misfits_of_json (sort_keys (json_of_misfits x)) = Some y
            /\ misfits_eqv y x.
Proof.
  do 4 apply dict_roundtrip. apply misfit_roundtrip.
Qed.

Lemma windows_roundtrip (x : windows_t) :
  wf_dict (wf_dict (wf_dict (wf_dict (wf_dict wf_leaf)))) x = true ->
  exists y, windows_of_json (sort_keys (json_of_windows x)) = Some y
            /\ windows_eqv y x.
Proof.
  do 5 apply dict_roundtrip. apply window_roundtrip.
Qed.

(** ** [save] and [load] *)

(** The file [save] writes holds the three mappings and nothing else. *)
Lemma save_document (tag path : string) (self : Inspector) (fs : files) :
  save tag path self fs
  = Ok (dict_set (path_join path (tag ++ ".json")%string)
          (JObject
             [("misfits", sort_keys (json_of_misfits (misfits self)));
              ("srcrcv", sort_keys (json_of_srcrcv (srcrcv self)));
              ("windows", sort_keys (json_of_windows (windows self)))])
          fs).
Proof. reflexivity. Qed.

(** C3, amended.  For every tag that does not end in [".json"] and every
    Index whose dictionaries have unique keys, [save(tag)] followed by
    [load(tag)] on a fresh Inspector returns 1 and leaves in it three
    mappings equal to the saved ones: the same keys at every level, and
    the same values under them.  The derived lists are not in the file
    and not set by [load]; [_get_info] computes them again from the
    loaded mappings. *)
Theorem save_load_roundtrip (tag path : string) (self : Inspector)
    (fs : files) (utm : Z) :
  endswith tag ".json" = false ->
  wf_index self = true ->
  exists fs' self',
    save tag path self fs = Ok fs'
    /\ load tag path fs' (new_Inspector utm) = (self', Ok 1%Z)
    /\ srcrcv_eqv (srcrcv self') (srcrcv self)
    /\ misfits_eqv (misfits self') (misfits self)
    /\ windows_eqv (windows self') (windows self)
    /\ (_events self' = None /\ _stations self' = None
        /\ _models self' = None /\ _steps self' = None)
    /\ _events (fst (_get_info self'))
       = Some (filter (fun k => negb (has_dot k)) (dict_keys (srcrcv self'))).
Proof.
  intros Htag Hwf. unfold wf_index in Hwf.
  apply andb_prop in Hwf. destruct Hwf as [Hwf Hw].
  apply andb_prop in Hwf. destruct Hwf as [Hs Hm].
  destruct (srcrcv_roundtrip _ Hs) as (s' & Es & Rs).
  destruct (misfits_roundtrip _ Hm) as (m' & Em & Rm).
  destruct (windows_roundtrip _ Hw) as (w' & Ew & Rw).
  eexists. exists (with_windows w' (with_misfits m'
                     (with_srcrcv s' (new_Inspector utm)))).
  split; [apply save_document|].
  split; [|split; [exact Rs|split; [exact Rm|split; [exact Rw|split]]]].
  - unfold load. rewrite Htag. rewrite dict_get_set_same.
    cbn [filter no_underscore vars_self str_contains Ascii.eqb Bool.eqb
         negb orb for_each].
    unfold bind, lift, json_getitem, from_items, getitem, setattr.
    cbn [fold_left dict_set dict_get String.eqb Ascii.eqb Bool.eqb].
    rewrite Es. cbn [fold_left dict_set dict_get String.eqb Ascii.eqb Bool.eqb].
    rewrite Em. cbn [fold_left dict_set dict_get String.eqb Ascii.eqb Bool.eqb].
    rewrite Ew. reflexivity.
  - repeat split.
  - apply get_info_events_stations.
Qed.

Lemma save_load_roundtrip_witness :
  endswith "run" ".json" = false
  /\ wf_index sample_index = true
  /\ exists fs' self',
      save "run" "./" sample_index [] = Ok fs'
      /\ load "run" "./" fs' (new_Inspector (-60)) = (self', Ok 1%Z)
      /\ srcrcv_eqv (srcrcv self') (srcrcv sample_index)
      /\ misfits_eqv (misfits self') (misfits sample_index)
      /\ windows_eqv (windows self') (windows sample_index).
Proof.
  split; [reflexivity|]. split; [reflexivity|].
  destruct (save_load_roundtrip "run" "./" sample_index [] (-60)
              eq_refl eq_refl)
    as (fs' & self' & H1 & H2 & H3 & H4 & H5 & _).
  exists fs', self'. auto.
Defined.

(** C3 as stated fails for a tag that ends in [".json"]: [save] writes
    ["./run.json.json"], [load] strips the tag to ["run"], finds no
    ["./run.json"] and returns 0; the fresh Inspector keeps its empty
    mappings. *)
Lemma save_load_json_tag :
  match save "run.json" "./" sample_index [] with
  | Ok fs' =>
      dict_keys fs' = ["./run.json.json"]
      /\ load "run.json" "./" fs' (new_Inspector (-60))
         = (new_Inspector (-60), Ok 0%Z)
      /\ srcrcv (new_Inspector (-60)) = []
      /\ srcrcv sample_index <> []
  | Raise _ => False
  end.
Proof.
  rewrite save_document. repeat split. discriminate.
Qed.

(* ================================================================== *)
(** ** The views of [sort_by_model], on the sample data *)

Lemma sort_by_model_view_witness :
  [("2018p130600", [("NZ.BFZ", {| msft := 2; nwin := 3 |})])]
  = events_of "m01" "s00" (misfits partial_models).
Proof.
  exact (sort_by_model_view (misfits partial_models)
           (fst (_get_info partial_models)) _ "m01" "s00" _
           (unique_NoDup (dict_keys (misfits partial_models)) eq_refl)
           eq_refl eq_refl).
Defined.

Lemma sort_by_model_Ok_uniform_witness :
  lookup2 "m00" "s00"
    [("m00", [("s00", [("NZ.BFZ", {| msft := 3; nwin := 2 |})])])]
  <> None.
Proof.
  exact (sort_by_model_Ok_uniform (misfits sample_index) sample_index
           _ ["m00"] [("m00", ["s00"])] eq_refl eq_refl eq_refl
           "m00" ["s00"] "s00" "2019p738432"
           [("m00", [("s00", [("NZ.BFZ", {| msft := 3; nwin := 2 |})])])]
           (or_introl eq_refl) eq_refl (or_introl eq_refl)
           (or_intror (or_introl eq_refl)) eq_refl).
Defined.

Lemma fresh_views_nonempty_witness :
  exists view,
    sort_by_model_misfits (fst (_get_info partial_models)) = Ok view
    /\ nonempty_views view = true.
Proof.
  eexists. split; [reflexivity|].
  exact (fresh_views_nonempty partial_models _ _ eq_refl eq_refl).
Defined.

Lemma sort_misfits_by_station_Ok_witness :
  sort_misfits_by_station
    (with_misfits [("e1", [("m00", [("s00", [])])])] sample_index)
  = Ok [("m00", [("s00", [])])]
  /\ (@nil (string * misfit_rec)) = [].
Proof.
  split; [reflexivity|].
  exact (sort_misfits_by_station_Ok
           (with_misfits [("e1", [("m00", [("s00", [])])])] sample_index)
           _ eq_refl "e1" _ "m00" _ "s00" _
           (or_introl eq_refl) (or_introl eq_refl) (or_introl eq_refl)).
Defined.

(* ================================================================== *)
(** ** [_get_info]: what is derived from the first event *)

Lemma dict_comp_keys_gen {V W} (F : V -> W) (f : string -> result W)
    (d : dict V) (acc : dict W) :
  NoDup (dict_keys acc ++ dict_keys d) ->
  (forall k v, In (k, v) d -> f k = Ok (F v)) ->
  foldM (fun out k => v <~ f k ;; Ok (dict_set k v out)) (dict_keys d) acc
  = Ok (acc ++ map (fun kv => (fst kv, F (snd kv))) d).
Proof.
  revert acc. induction d as [|[k v] d IH]; intros acc Hnd Hf.
  - simpl. now rewrite app_nil_r.
  - cbn [dict_keys map fst foldM]. rewrite (Hf k v) by (now left).
    cbn [rbind]. fold (dict_keys d).
    assert (~ In k (dict_keys acc)) as Hk.
    { intros Hin. cbn [dict_keys map fst] in Hnd.
      apply NoDup_remove_2 in Hnd. apply Hnd. apply in_or_app. now left. }
    rewrite (dict_set_fresh k (F v) acc Hk).
    rewrite IH.
    + cbn [snd]. now rewrite <- app_assoc.
    + unfold dict_keys in *. rewrite map_app. cbn [map fst] in *.
      now rewrite <- app_assoc.
    + intros k' v' Hin. apply Hf. now right.
Qed.

Lemma dict_comp_keys {V W} (F : V -> W) (d : dict V) :
  NoDup (dict_keys d) ->
  dict_comp (dict_keys d) (fun k => v <~ getitem k d ;; Ok (F v))
  = Ok (map (fun kv => (fst kv, F (snd kv))) d).
Proof.
  intros Hnd. unfold dict_comp.
  rewrite (dict_comp_keys_gen F _ d []); [reflexivity|exact Hnd|].
  intros k v Hin. unfold getitem.
  now rewrite (dict_get_NoDup_In k v d Hnd Hin).
Qed.

Lemma count_keys_gen {V} (L : V -> list string)
    (g : string -> result (list string)) (d : dict V) (n : Z) :
  (forall k v, In (k, v) d -> g k = Ok (L v)) ->
  foldM (fun iterations m =>
           l <~ g m ;; Ok (iterations + Z.of_nat (length l))%Z)
        (dict_keys d) n
  = Ok (n + Z.of_nat (length (flat_map (fun kv => L (snd kv)) d)))%Z.
Proof.
  revert n. induction d as [|[k v] d IH]; intros n Hg.
  - simpl. f_equal. lia.
  - cbn [dict_keys map fst foldM]. rewrite (Hg k v) by (now left).
    cbn [rbind]. fold (dict_keys d). rewrite IH.
    + cbn [flat_map snd]. rewrite length_app. f_equal. lia.
    + intros k' v' Hin. apply Hg. now right.
Qed.

(** X1.  When the first event of [misfits] names each of its models
    once, [_get_info] returns, and it takes the models, the steps of
    each model and the number of iterations from that event alone: the
    models are its keys, the steps of a model are the keys under it, and
    the iterations are the steps of all models counted together. *)
Theorem get_info_first_event (self : Inspector) (event : string)
    (by_model : dict (dict (dict misfit_rec))) (rest : misfits_t) :
  misfits self = (event, by_model) :: rest ->
  unique (dict_keys by_model) = true ->
  let self' := fst (_get_info self) in
  snd (_get_info self) = Ok tt
  /\ _models self' = Some (dict_keys by_model)
  /\ _steps self'
     = Some (map (fun kv => (fst kv, dict_keys (snd kv))) by_model)
  /\ _iterations self'
     = Z.of_nat (length (flat_map (fun kv => dict_keys (snd kv)) by_model))
  /\ misfits self' = misfits self.
Proof.
  intros Hm Hu. apply unique_NoDup in Hu.
  assert (_get_info self
          = (with_models_steps (dict_keys by_model)
               (map (fun kv => (fst kv, dict_keys (snd kv))) by_model)
               (Z.of_nat (length (flat_map (fun kv => dict_keys (snd kv))
                                           by_model)))
               (with_stations_events
                  (filter has_dot (dict_keys (srcrcv self)))
                  (filter (fun k => negb (has_dot k))
                          (dict_keys (srcrcv self))) self),
             Ok tt)) as E.
  { unfold _get_info. rewrite get_info_lists.
    cbn [with_stations_events misfits]. rewrite Hm.
    cbn [dict_keys map fst first rbind].
    unfold getitem at 1. cbn [dict_get]. rewrite String.eqb_refl.
    cbn [rbind]. fold (dict_keys by_model).
    rewrite (dict_comp_keys (fun by_step : dict (dict misfit_rec) =>
                               dict_keys by_step) by_model Hu).
    cbn [rbind].
    rewrite (count_keys_gen (fun by_step : dict (dict misfit_rec) =>
                               dict_keys by_step)).
    - reflexivity.
    - intros k v Hin. unfold getitem.
      rewrite (dict_get_NoDup_In k (dict_keys v)); [reflexivity| |].
      + unfold dict_keys in *. rewrite map_map. cbn [fst]. exact Hu.
      + apply (in_map (fun kv : string * dict (dict misfit_rec) =>
                         (fst kv, dict_keys (snd kv)))) in Hin. exact Hin. }
  rewrite E. cbn. repeat split.
Qed.

Lemma get_info_first_event_witness :
  snd (_get_info partial_models) = Ok tt
  /\ _models (fst (_get_info partial_models)) = Some ["m00"; "m01"]
  /\ _steps (fst (_get_info partial_models))
     = Some [("m00", ["s00"]); ("m01", ["s00"])]
  /\ _iterations (fst (_get_info partial_models)) = 2%Z.
Proof.
  destruct (get_info_first_event partial_models _ _ _ eq_refl eq_refl)
    as (H1 & H2 & H3 & H4 & _).
  repeat split; assumption.
Defined.

(** X2.  On an Inspector without misfit records [_get_info] raises
    [IndexError]; by then it has set the lists of events and stations
    from [srcrcv], and the models, steps and iterations are as they
    were. *)
Theorem get_info_no_misfits (self : Inspector) :
  misfits self = [] ->
  let self' := fst (_get_info self) in
  snd (_get_info self) = Raise IndexError
  /\ _events self'
     = Some (filter (fun k => negb (has_dot k)) (dict_keys (srcrcv self)))
  /\ _stations self' = Some (filter has_dot (dict_keys (srcrcv self)))
  /\ _models self' = _models self
  /\ _steps self' = _steps self
  /\ _iterations self' = _iterations self.
Proof.
  intros Hm. unfold _get_info. rewrite get_info_lists.
  cbn [with_stations_events misfits]. rewrite Hm. cbn.
  repeat split.
Qed.

Lemma get_info_no_misfits_witness :
  snd (_get_info (with_misfits [] sample_index)) = Raise IndexError
  /\ _models (fst (_get_info (with_misfits [] sample_index))) = Some ["m00"].
Proof.
  destruct (get_info_no_misfits (with_misfits [] sample_index) eq_refl)
    as (H1 & _ & _ & H4 & _).
  split; assumption.
Defined.

(* ================================================================== *)
(** ** [event_info] *)

Lemma event_info_loop (choice : string) (d : srcrcv_t) :
  NoDup (dict_keys d) ->
  forall acc : dict srcrcv_val,
  exists info,
    foldM (fun info '(event, rec) =>
             match getitem choice rec with
             | Ok v => Ok (dict_set event v info)
             | Raise (KeyError _) => Ok info
             | Raise e => Raise e
             end) d acc = Ok info
    /\ forall key,
        dict_get key info
        = match dict_get key d with
          | Some rec => match dict_get choice rec with
                        | Some v => Some v
                        | None => dict_get key acc
                        end
          | None => dict_get key acc
          end.
Proof.
  induction d as [|[k rec] d IH]; intros Hnd acc.
  - exists acc. split; [reflexivity|]. intros key. reflexivity.
  - cbn [dict_keys map fst] in Hnd. inversion Hnd as [|? ? Hk Hnd']; subst.
    cbn [foldM]. unfold getitem at 1.
    destruct (dict_get choice rec) as [v|] eqn:Ec; cbn [rbind].
    + destruct (IH Hnd' (dict_set k v acc)) as (info & Hrun & Hget).
      exists info. split; [exact Hrun|]. intros key. rewrite Hget.
      cbn [dict_get].
      destruct (String.eqb_spec key k) as [->|Hne].
      * apply dict_get_None in Hk. rewrite Hk, Ec.
        apply dict_get_set_same.
      * rewrite (dict_get_set_other key k v acc Hne). reflexivity.
    + destruct (IH Hnd' acc) as (info & Hrun & Hget).
      exists info. split; [exact Hrun|]. intros key. rewrite Hget.
      cbn [dict_get].
      destruct (String.eqb_spec key k) as [->|Hne]; [|reflexivity].
      apply dict_get_None in Hk. now rewrite Hk, Ec.
Qed.

(** X3.  [event_info] raises [AssertionError] unless the choice is one of
    its seven names.  For one of them it returns, for every key of
    [srcrcv] whose record has an entry of that name, this entry; a key
    whose record lacks the name is left out without an error.  The keys
    are those of events and of stations alike. *)
Theorem event_info_entries (choice : string) (self : Inspector) :
  unique (dict_keys (srcrcv self)) = true ->
  exists info,
    event_info choice self
    = (if str_in choice ["depth_m"; "lat"; "lon"; "mag"; "time";
                         "utm_x"; "utm_y"]
       then Ok info else Raise AssertionError)
    /\ forall key,
        dict_get key info
        = match dict_get key (srcrcv self) with
          | Some rec => dict_get choice rec
          | None => None
          end.
Proof.
  intros Hu. apply unique_NoDup in Hu.
  destruct (event_info_loop choice (srcrcv self) Hu []) as (info & Hrun & Hget).
  exists info. split.
  - unfold event_info.
    destruct (str_in choice _); cbn [negb]; [exact Hrun|reflexivity].
  - intros key. rewrite Hget.
    destruct (dict_get key (srcrcv self)) as [rec|]; [|reflexivity].
    now destruct (dict_get choice rec).
Qed.

Lemma event_info_entries_witness :
  exists info,
    mags sample_index = Ok info
    /\ dict_get "2019p738432" info = Some (VFloat 6)
    /\ dict_get "NZ.BFZ" info = None.
Proof.
  destruct (event_info_entries "mag" sample_index eq_refl)
    as (info & Hrun & Hget).
  exists info. split; [exact Hrun|].
  split; rewrite Hget; reflexivity.
Defined.

(* ================================================================== *)
(** ** [window_values] *)

Lemma window_values_gen (choice : string) (items : list (string * window_rec))
    (ret : list float) :
  valid_choice choice = true ->
  foldM (fun ret '(cha, w) =>
           vals <~ window_getitem choice w ;; Ok (ret ++ vals)) items ret
  = Ok (ret ++ flat_map (fun kv => window_field choice (snd kv)) items).
Proof.
  intros Hv. revert ret. induction items as [|[cha w] items IH]; intros ret.
  - simpl. now rewrite app_nil_r.
  - cbn [foldM]. rewrite (window_getitem_valid choice w Hv). cbn [rbind].
    rewrite IH. cbn [flat_map snd]. now rewrite app_assoc.
Qed.

Lemma window_entries_values (choice : string)
    (windows : dict (dict (dict window_rec))) :
  map fst (window_entries choice windows)
  = flat_map (fun kv => window_field choice (snd kv)) (channel_items windows).
Proof.
  unfold window_entries, channel_items.
  induction windows as [|[event by_sta] windows IH]; [reflexivity|].
  cbn [flat_map]. rewrite map_app, flat_map_app. f_equal; [|exact IH].
  clear IH. induction by_sta as [|[sta by_comp] by_sta IH]; [reflexivity|].
  cbn [flat_map]. rewrite map_app, flat_map_app. f_equal; [|exact IH].
  clear IH. induction by_comp as [|[comp w] by_comp IH]; [reflexivity|].
  cbn [flat_map snd]. rewrite map_app. f_equal; [|exact IH].
  rewrite map_map. cbn [fst]. apply map_id.
Qed.

Lemma valid_choice_asserted (choice : string) :
  valid_choice choice = true ->
  str_in choice ["cc_shift_sec"; "dlna"; "max_cc"; "length_s"; "weight";
                 "rel_start"; "rel_end"] = true.
Proof.
  unfold valid_choice. rewrite !str_in_In. cbn [In]. tauto.
Qed.

Lemma window_values_unfold (self : Inspector) (model step choice : string) :
  valid_choice choice = true ->
  window_values model step choice self
  = (by_model <~ sort_by_model_windows self ;;
     windows <~ (by_step <~ getitem model by_model ;; getitem step by_step) ;;
     Ok (map fst (window_entries choice windows))).
Proof.
  intros Hv. unfold window_values.
  rewrite (valid_choice_asserted choice Hv). cbn [negb].
  destruct (sort_by_model_windows self) as [by_model|]; [|reflexivity].
  cbn [rbind].
  destruct (by_step <~ getitem model by_model ;; getitem step by_step)
    as [windows|]; [|reflexivity].
  cbn [rbind].
  rewrite over_channels_items, (window_values_gen choice _ [] Hv).
  cbn [app]. now rewrite window_entries_values.
Qed.

(** X4.  For a (model, step) of the views of [sort_by_model("windows")]
    and a measurement kind of the window records, [window_values]
    returns the values of that kind of all channels, in the order of the
    mapping: events, then stations, then channels.  Where there is no
    window it returns the empty list. *)
Theorem window_values_entries (self : Inspector)
    (model step choice : string)
    (by_model : dict (dict (dict (dict (dict window_rec)))))
    (windows : dict (dict (dict window_rec))) :
  sort_by_model_windows self = Ok by_model ->
  lookup2 model step by_model = Some windows ->
  valid_choice choice = true ->
  window_values model step choice self
  = Ok (map fst (window_entries choice windows)).
Proof.
  intros Hview Hlook Hv.
  rewrite (window_values_unfold self model step choice Hv).
  rewrite Hview. cbn [rbind].
  unfold lookup2 in Hlook. unfold getitem.
  destruct (dict_get model by_model) as [by_step|]; [|discriminate].
  cbn [rbind]. rewrite Hlook. reflexivity.
Qed.

Lemma window_values_entries_witness :
  window_values "m00" "s00" "cc_shift_sec" cosort_index
  = Ok [0.3%float; (-0.1)%float; 0.2%float]
  /\ window_values "m00" "s00" "cc_shift_sec" no_windows = Ok [].
Proof.
  split.
  - exact (window_values_entries cosort_index "m00" "s00" "cc_shift_sec"
             _ _ eq_refl eq_refl eq_refl).
  - exact (window_values_entries no_windows "m00" "s00" "cc_shift_sec"
             _ _ eq_refl eq_refl eq_refl).
Defined.

(** X5.  Whenever [sort_by_window] returns for a measurement kind of the
    window records, [window_values] returns for the same arguments, and
    the two lists of values hold the same values, each as often: sorting
    neither drops nor adds one. *)
Theorem sort_by_window_values (self : Inspector) (model step choice : string)
    (values : list float) (info : list info_t) :
  valid_choice choice = true ->
  sort_by_window model step choice self = Ok (values, info) ->
  exists vals,
    window_values model step choice self = Ok vals
    /\ Permutation values vals.
Proof.
  intros Hv Hsort. unfold sort_by_window in Hsort.
  rewrite (window_values_unfold self model step choice Hv).
  destruct (sort_by_model_windows self) as [by_model|];
    [cbn [rbind] in *|discriminate].
  destruct (by_step <~ getitem model by_model ;; getitem step by_step)
    as [windows|]; [cbn [rbind] in *|discriminate].
  rewrite (collect_windows_entries choice windows Hv) in Hsort.
  cbn [rbind] in Hsort. rewrite combine_fst_snd in Hsort.
  exists (map fst (window_entries choice windows)).
  split; [reflexivity|].
  pose proof (sorted_perm entry_lt (window_entries choice windows)) as Hp.
  unfold unzip_pairs in Hsort.
  destruct (sorted entry_lt (window_entries choice windows)) as [|p l];
    [discriminate|].
  injection Hsort as Hvalues _. subst values.
  apply (Permutation_map fst) in Hp. exact Hp.
Qed.

Lemma sort_by_window_values_witness :
  exists vals,
    window_values "m00" "s00" "cc_shift_sec" cosort_index = Ok vals
    /\ Permutation [(-0.1)%float; 0.2%float; 0.3%float] vals.
Proof.
  exact (sort_by_window_values cosort_index "m00" "s00" "cc_shift_sec"
           _ _ eq_refl eq_refl).
Defined.

(* ================================================================== *)
(** ** What the statements keep *)

Lemma keeps_pure {S A} (P : S -> Prop) (m : M S A) :
  (forall s, fst (m s) = s) -> keeps P m.
Proof. intros H s Hs. now rewrite H. Qed.

Lemma keeps_ret {S A} (P : S -> Prop) (a : A) : keeps P (ret a).
Proof. now apply keeps_pure. Qed.

Lemma keeps_raise {S A} (P : S -> Prop) (e : exn) : keeps P (@raise S A e).
Proof. now apply keeps_pure. Qed.

Lemma keeps_lift {S A} (P : S -> Prop) (r : result A) : keeps P (lift r).
Proof. now apply keeps_pure. Qed.

Lemma keeps_read {S A} (P : S -> Prop) (f : S -> A) : keeps P (read f).
Proof. now apply keeps_pure. Qed.

Lemma keeps_bind {S A B} (P : S -> Prop) (m : M S A) (k : A -> M S B) :
  keeps P m -> (forall a, keeps P (k a)) -> keeps P (bind m k).
Proof.
  intros Hm Hk s Hs. unfold bind. specialize (Hm s Hs).
  destruct (m s) as [s' [a|e]]; cbn [fst] in *; [now apply Hk|exact Hm].
Qed.

(** As [keeps_bind], with what is known of the value [m] returns. *)
Lemma keeps_bind_val {S A B} (P : S -> Prop) (Q : A -> Prop) (m : M S A)
    (k : A -> M S B) :
  (forall s, P s -> P (fst (m s)) /\ forall a, snd (m s) = Ok a -> Q a) ->
  (forall a, Q a -> keeps P (k a)) -> keeps P (bind m k).
Proof.
  intros Hm Hk s Hs. unfold bind. destruct (Hm s Hs) as [H1 H2].
  destruct (m s) as [s' [a|e]]; cbn [fst snd] in *; [|exact H1].
  apply Hk; [now apply H2|exact H1].
Qed.

Lemma keeps_for_each {S A} (P : S -> Prop) (xs : list A)
    (body : A -> M S unit) :
  (forall x, In x xs -> keeps P (body x)) -> keeps P (for_each xs body).
Proof.
  induction xs as [|x xs IH]; intros H; cbn [for_each].
  - apply keeps_ret.
  - apply keeps_bind; [apply H; now left|].
    intros _. apply IH. intros y Hy. apply H. now right.
Qed.

Lemma keeps_when {S} (P : S -> Prop) (b : bool) (m : M S unit) :
  keeps P m -> keeps P (when b m).
Proof. intros H. destruct b; [exact H|apply keeps_ret]. Qed.

Lemma keeps_try_status {S} (P : S -> Prop) (m : M S unit) :
  keeps P m -> keeps P (try_status m).
Proof.
  intros H s Hs. unfold try_status. specialize (H s Hs).
  destruct (m s) as [s' [a|[]]]; exact H.
Qed.

Lemma keeps_conj {S A} (P Q : S -> Prop) (m : M S A) :
  keeps P m -> keeps Q m -> keeps (fun s => P s /\ Q s) m.
Proof. intros HP HQ s [H1 H2]. split; [now apply HP|now apply HQ]. Qed.

Lemma keeps_on_misfits {A} (Q : misfits_t -> Prop) (m : M misfits_t A) :
  keeps Q m -> keeps (fun s => Q (misfits s)) (on_misfits m).
Proof.
  intros H s Hs. unfold on_misfits. specialize (H _ Hs).
  now destruct (m (misfits s)).
Qed.

Lemma keeps_on_windows {A} (Q : windows_t -> Prop) (m : M windows_t A) :
  keeps Q m -> keeps (fun s => Q (windows s)) (on_windows m).
Proof.
  intros H s Hs. unfold on_windows. specialize (H _ Hs).
  now destruct (m (windows s)).
Qed.

Lemma keeps_on_srcrcv {A} (Q : srcrcv_t -> Prop) (m : M srcrcv_t A) :
  keeps Q m -> keeps (fun s => Q (srcrcv s)) (on_srcrcv m).
Proof.
  intros H s Hs. unfold on_srcrcv. specialize (H _ Hs).
  now destruct (m (srcrcv s)).
Qed.

(** A statement on one mapping leaves what does not read it. *)
Lemma frame_on_misfits {A} (R : Inspector -> Prop) (m : M misfits_t A) :
  (forall s x, R s -> R (with_misfits x s)) -> keeps R (on_misfits m).
Proof.
  intros H s Hs. unfold on_misfits.
  destruct (m (misfits s)). now apply H.
Qed.

Lemma frame_on_windows {A} (R : Inspector -> Prop) (m : M windows_t A) :
  (forall s x, R s -> R (with_windows x s)) -> keeps R (on_windows m).
Proof.
  intros H s Hs. unfold on_windows.
  destruct (m (windows s)). now apply H.
Qed.

Lemma frame_on_srcrcv {A} (R : Inspector -> Prop) (m : M srcrcv_t A) :
  (forall s x, R s -> R (with_srcrcv x s)) -> keeps R (on_srcrcv m).
Proof.
  intros H s Hs. unfold on_srcrcv.
  destruct (m (srcrcv s)). now apply H.
Qed.

Lemma keeps_zoom_other {V A} (k k' : string) (o : option V) (m : M V A) :
  k <> k' -> keeps (fun d => dict_get k d = o) (zoom k' m).
Proof.
  intros Hne d Hd. unfold zoom.
  destruct (dict_get k' d) as [v|]; [|exact Hd].
  destruct (m v) as [v' r]. cbn [fst].
  now rewrite dict_get_set_other.
Qed.

Lemma keeps_setitem_other {V} (k k' : string) (o : option V) (v : V) :
  k <> k' -> keeps (fun d => dict_get k d = o) (setitem k' v).
Proof.
  intros Hne d Hd. unfold setitem, modify. cbn [fst].
  now rewrite dict_get_set_other.
Qed.

Lemma keeps_zoom_all {V A} (J : V -> Prop) (k : string) (m : M V A) :
  keeps J m -> keeps (all_vals J) (zoom k m).
Proof.
  intros H d Hd. unfold zoom.
  destruct (dict_get k d) as [v|] eqn:E; [|exact Hd].
  specialize (H v (Hd k v (dict_get_In k v d E))).
  destruct (m v) as [v' r]. cbn [fst] in *.
  intros k0 v0 Hin. apply dict_set_In in Hin.
  destruct Hin as [[_ ->]|Hin]; [exact H|eapply Hd; exact Hin].
Qed.

Lemma keeps_setitem_all {V} (J : V -> Prop) (k : string) (v : V) :
  J v -> keeps (all_vals J) (setitem k v).
Proof.
  intros H d Hd. unfold setitem, modify. cbn [fst].
  intros k0 v0 Hin. apply dict_set_In in Hin.
  destruct Hin as [[_ ->]|Hin]; [exact H|eapply Hd; exact Hin].
Qed.

(** ** [get_misfits] *)

Lemma get_misfits_keeps (ext : Externals) (ds : ASDFDataSet)
    (P : Inspector -> Prop) :
  (forall A (m : M _ A), keeps P (on_misfits (zoom (event_id ext ds) m))) ->
  keeps P (on_misfits (setitem (event_id ext ds) [])) ->
  keeps P (get_misfits ext ds).
Proof.
  intros Hz Hs. unfold get_misfits. cbv zeta.
  apply keeps_bind; [exact Hs|]. intros _.
  apply keeps_for_each. intros [model steps] _.
  unfold get_misfits_model.
  apply keeps_bind; [apply Hz|]. intros _.
  apply keeps_for_each. intros [step stations] _.
  unfold get_misfits_step. cbv zeta.
  apply keeps_bind; [apply Hz|]. intros _.
  apply keeps_bind; [apply keeps_for_each; intros; apply Hz|]. intros _.
  apply keeps_bind; [now apply keeps_pure|]. intros sta_ids.
  apply keeps_for_each; intros; apply Hz.
Qed.

(** X6.  [get_misfits] writes to the misfit records of the event of the
    dataset and to nothing else, also when it raises: the misfit records
    of every other event, the mappings [srcrcv] and [windows] and the
    derived attributes are afterwards what they were. *)
Theorem get_misfits_frame (ext : Externals) (ds : ASDFDataSet)
    (self : Inspector) (event : string) :
  event <> event_id ext ds ->
  let self' := fst (get_misfits ext ds self) in
  dict_get event (misfits self') = dict_get event (misfits self)
  /\ srcrcv self' = srcrcv self
  /\ windows self' = windows self
  /\ derived self' = derived self.
Proof.
  intros Hne. cbv zeta.
  refine (get_misfits_keeps ext ds
            (fun s => dict_get event (misfits s) = dict_get event (misfits self)
                      /\ srcrcv s = srcrcv self
                      /\ windows s = windows self
                      /\ derived s = derived self) _ _ self _).
  - intros A m. apply keeps_conj.
    + apply (keeps_on_misfits (fun d => dict_get event d = _)).
      now apply keeps_zoom_other.
    + now apply frame_on_misfits.
  - apply keeps_conj.
    + apply (keeps_on_misfits (fun d => dict_get event d = _)).
      now apply keeps_setitem_other.
    + now apply frame_on_misfits.
  - repeat split.
Qed.

Lemma get_misfits_frame_witness :
  dict_get "2019p738432" (misfits (fst (get_misfits sample_ext sample_ds
                                                    sample_index)))
  = dict_get "2019p738432" (misfits sample_index).
Proof.
  assert ("2019p738432" <> event_id sample_ext sample_ds) as Hne
      by discriminate.
  exact (proj1 (get_misfits_frame sample_ext sample_ds sample_index
                  "2019p738432" Hne)).
Defined.

(** ** [get_windows] *)

Lemma get_windows_keeps (ext : Externals) (ds : ASDFDataSet)
    (P : Inspector -> Prop) :
  (forall A (m : M _ A), keeps P (on_windows (zoom (event_id ext ds) m))) ->
  keeps P (on_windows (setitem (event_id ext ds) [])) ->
  keeps P (get_windows ext ds).
Proof.
  intros Hz Hs. unfold get_windows. cbv zeta.
  apply keeps_bind; [exact Hs|]. intros _.
  apply keeps_for_each. intros [model steps] _.
  apply keeps_bind; [apply Hz|]. intros _.
  apply keeps_for_each. intros [step wins] _.
  apply keeps_bind; [apply Hz|]. intros _.
  apply keeps_for_each; intros; apply Hz.
Qed.

(** X7.  [get_windows] writes to the window records of the event of the
    dataset and to nothing else, also when it raises on a channel id
    that has not four parts: the window records of every other event,
    the mappings [srcrcv] and [misfits] and the derived attributes are
    afterwards what they were. *)
Theorem get_windows_frame (ext : Externals) (ds : ASDFDataSet)
    (self : Inspector) (event : string) :
  event <> event_id ext ds ->
  let self' := fst (get_windows ext ds self) in
  dict_get event (windows self') = dict_get event (windows self)
  /\ srcrcv self' = srcrcv self
  /\ misfits self' = misfits self
  /\ derived self' = derived self.
Proof.
  intros Hne. cbv zeta.
  refine (get_windows_keeps ext ds
            (fun s => dict_get event (windows s) = dict_get event (windows self)
                      /\ srcrcv s = srcrcv self
                      /\ misfits s = misfits self
                      /\ derived s = derived self) _ _ self _).
  - intros A m. apply keeps_conj.
    + apply (keeps_on_windows (fun d => dict_get event d = _)).
      now apply keeps_zoom_other.
    + now apply frame_on_windows.
  - apply keeps_conj.
    + apply (keeps_on_windows (fun d => dict_get event d = _)).
      now apply keeps_setitem_other.
    + now apply frame_on_windows.
  - repeat split.
Qed.

Lemma get_windows_frame_witness :
  dict_get "2019p738432" (windows (fst (get_windows sample_ext sample_ds
                                                    sample_index)))
  = dict_get "2019p738432" (windows sample_index).
Proof.
  assert ("2019p738432" <> event_id sample_ext sample_ds) as Hne
      by discriminate.
  exact (proj1 (get_windows_frame sample_ext sample_ds sample_index
                  "2019p738432" Hne)).
Defined.

(* ================================================================== *)
(** ** [get_srcrcv] and [append] *)

Lemma dict_in_Some {V} (k : string) (v : V) (d : dict V) :
  dict_get k d = Some v -> dict_in k d = true.
Proof. unfold dict_in. now intros ->. Qed.

(** The body of the loop of [get_srcrcv] over the stations keeps a
    record that is there, unless it is the one of the event. *)
Lemma get_srcrcv_keeps_record (ext : Externals) (ds : ASDFDataSet)
    (key : string) (rec : dict srcrcv_val) :
  key <> event_id ext ds ->
  keeps (fun s => dict_get key (srcrcv s) = Some rec) (get_srcrcv ext ds).
Proof.
  intros Hne. unfold get_srcrcv. cbv zeta.
  apply keeps_bind; [apply keeps_lift|]. intros ev.
  apply keeps_bind; [apply keeps_read|]. intros utm.
  destruct (lonlat_utm ext _ _ utm) as [ev_x ev_y].
  apply keeps_bind.
  { apply (keeps_on_srcrcv (fun d => dict_get key d = Some rec)).
    now apply keeps_setitem_other. }
  intros _. apply keeps_for_each. intros [sta sta_info] _.
  apply (keeps_bind_val _ (fun known => sta = key -> known = true)).
  { intros s Hs. split; [exact Hs|].
    intros known [= <-] ->. exact (dict_in_Some _ _ _ Hs). }
  intros known Hknown.
  apply keeps_bind.
  { destruct known; cbn [negb when]; [apply keeps_ret|].
    destruct (lonlat_utm ext _ _ utm) as [sta_x sta_y].
    apply (keeps_on_srcrcv (fun d => dict_get key d = Some rec)).
    apply keeps_setitem_other. intros ->.
    specialize (Hknown eq_refl). discriminate. }
  intros _.
  apply keeps_bind; [now apply keeps_pure|]. intros lat1.
  apply keeps_bind; [now apply keeps_pure|]. intros lon1.
  apply keeps_bind; [now apply keeps_pure|]. intros lat2.
  apply keeps_bind; [now apply keeps_pure|]. intros lon2.
  destruct (gps2dist_azimuth ext lat1 lon1 lat2 lon2) as [[gcd az] baz].
  apply (keeps_on_srcrcv (fun d => dict_get key d = Some rec)).
  now apply keeps_zoom_other.
Qed.

Lemma get_srcrcv_keeps_rest (ext : Externals) (ds : ASDFDataSet)
    (R : Inspector -> Prop) :
  (forall s x, R s -> R (with_srcrcv x s)) ->
  keeps R (get_srcrcv ext ds).
Proof.
  intros HR. unfold get_srcrcv. cbv zeta.
  apply keeps_bind; [apply keeps_lift|]. intros ev.
  apply keeps_bind; [apply keeps_read|]. intros utm.
  destruct (lonlat_utm ext _ _ utm) as [ev_x ev_y].
  apply keeps_bind; [now apply frame_on_srcrcv|].
  intros _. apply keeps_for_each. intros [sta sta_info] _.
  apply keeps_bind; [apply keeps_read|]. intros known.
  apply keeps_bind.
  { apply keeps_when. destruct (lonlat_utm ext _ _ utm) as [sta_x sta_y].
    now apply frame_on_srcrcv. }
  intros _.
  apply keeps_bind; [now apply keeps_pure|]. intros lat1.
  apply keeps_bind; [now apply keeps_pure|]. intros lon1.
  apply keeps_bind; [now apply keeps_pure|]. intros lat2.
  apply keeps_bind; [now apply keeps_pure|]. intros lon2.
  destruct (gps2dist_azimuth ext lat1 lon1 lat2 lon2) as [[gcd az] baz].
  now apply frame_on_srcrcv.
Qed.

(** X8.  [get_srcrcv] never overwrites a record it finds, except the one
    of the dataset's event: a station known from an earlier dataset
    keeps its coordinates, and every other event keeps its record and
    its links to the stations.  The mappings [misfits] and [windows] and
    the derived attributes are not touched, also when it raises. *)
Theorem get_srcrcv_frame (ext : Externals) (ds : ASDFDataSet)
    (self : Inspector) (key : string) (rec : dict srcrcv_val) :
  key <> event_id ext ds ->
  dict_get key (srcrcv self) = Some rec ->
  let self' := fst (get_srcrcv ext ds self) in
  dict_get key (srcrcv self') = Some rec
  /\ misfits self' = misfits self
  /\ windows self' = windows self
  /\ derived self' = derived self.
Proof.
  intros Hne Hrec. cbv zeta. split.
  - exact (get_srcrcv_keeps_record ext ds key rec Hne self Hrec).
  - refine (get_srcrcv_keeps_rest ext ds
              (fun s => misfits s = misfits self /\ windows s = windows self
                        /\ derived s = derived self) _ self _);
      [|repeat split].
    intros s x H. exact H.
Qed.

Lemma get_srcrcv_frame_witness :
  dict_get "NZ.BFZ"
    (srcrcv (fst (get_srcrcv reading_ext sample_full_ds sample_index)))
  = Some sample_station.
Proof.
  assert ("NZ.BFZ" <> event_id reading_ext sample_full_ds) as Hne
      by discriminate.
  exact (proj1 (get_srcrcv_frame reading_ext sample_full_ds sample_index
                  "NZ.BFZ" sample_station Hne eq_refl)).
Defined.

Lemma append_keeps (ext : Externals) (dsfid : string)
    (windows srcrcv misfits : bool) (P : Inspector -> Prop) :
  (forall ds, pyasdf_ASDFDataSet ext dsfid = Ok ds ->
              keeps P (get_windows ext ds) /\ keeps P (get_srcrcv ext ds)
              /\ keeps P (get_misfits ext ds)) ->
  keeps P (append ext dsfid windows srcrcv misfits).
Proof.
  intros H. unfold append. apply keeps_try_status.
  apply (keeps_bind_val _ (fun ds => pyasdf_ASDFDataSet ext dsfid = Ok ds)).
  { intros s Hs. split; [exact Hs|]. intros ds E. exact E. }
  intros ds Hds. destruct (H ds Hds) as (Hw & Hs & Hm).
  apply keeps_bind; [now apply keeps_when|]. intros _.
  apply keeps_bind; [now apply keeps_when|]. intros _.
  now apply keeps_when.
Qed.

Lemma rest_keeps_windows (ext : Externals) (ds : ASDFDataSet)
    (R : Inspector -> Prop) :
  (forall s x, R s -> R (with_windows x s)) -> keeps R (get_windows ext ds).
Proof.
  intros HR. apply get_windows_keeps; [intros A m|];
    now apply frame_on_windows.
Qed.

Lemma rest_keeps_misfits (ext : Externals) (ds : ASDFDataSet)
    (R : Inspector -> Prop) :
  (forall s x, R s -> R (with_misfits x s)) -> keeps R (get_misfits ext ds).
Proof.
  intros HR. apply get_misfits_keeps; [intros A m|];
    now apply frame_on_misfits.
Qed.

(** X9.  [append] of a dataset writes to the records of the dataset's
    event only: under every other key the misfit and window records are
    afterwards what they were, and a record of [srcrcv] that was there
    is kept as it was, whatever the three flags are and whether [append]
    returns 1, returns 0 or raises. *)
Theorem append_frame (ext : Externals) (dsfid : string)
    (windows_ srcrcv_ misfits_ : bool) (ds : ASDFDataSet)
    (self : Inspector) (key : string) :
  pyasdf_ASDFDataSet ext dsfid = Ok ds ->
  key <> event_id ext ds ->
  let self' := fst (append ext dsfid windows_ srcrcv_ misfits_ self) in
  dict_get key (misfits self') = dict_get key (misfits self)
  /\ dict_get key (windows self') = dict_get key (windows self)
  /\ forall rec, dict_get key (srcrcv self) = Some rec ->
                 dict_get key (srcrcv self') = Some rec.
Proof.
  intros Hds Hne. cbv zeta. split; [|split].
  - refine (append_keeps ext dsfid _ _ _
              (fun s => dict_get key (misfits s) = dict_get key (misfits self))
              _ self eq_refl).
    intros ds' E. rewrite Hds in E. injection E as <-. split; [|split].
    + now apply rest_keeps_windows.
    + now apply get_srcrcv_keeps_rest.
    + apply get_misfits_keeps; [intros A m|];
        apply (keeps_on_misfits (fun d => dict_get key d = _));
        [now apply keeps_zoom_other|now apply keeps_setitem_other].
  - refine (append_keeps ext dsfid _ _ _
              (fun s => dict_get key (windows s) = dict_get key (windows self))
              _ self eq_refl).
    intros ds' E. rewrite Hds in E. injection E as <-. split; [|split].
    + apply get_windows_keeps; [intros A m|];
        apply (keeps_on_windows (fun d => dict_get key d = _));
        [now apply keeps_zoom_other|now apply keeps_setitem_other].
    + now apply get_srcrcv_keeps_rest.
    + now apply rest_keeps_misfits.
  - intros rec Hrec.
    refine (append_keeps ext dsfid _ _ _
              (fun s => dict_get key (srcrcv s) = Some rec) _ self Hrec).
    intros ds' E. rewrite Hds in E. injection E as <-. split; [|split].
    + now apply rest_keeps_windows.
    + now apply get_srcrcv_keeps_record.
    + now apply rest_keeps_misfits.
Qed.

Lemma append_frame_witness :
  snd (append reading_ext "2018p130600.h5" true true true sample_index)
  = Ok 1%Z
  /\ dict_get "2019p738432"
       (misfits (fst (append reading_ext "2018p130600.h5" true true true
                             sample_index)))
     = dict_get "2019p738432" (misfits sample_index)
  /\ dict_get "2019p738432"
       (windows (fst (append reading_ext "2018p130600.h5" true true true
                             sample_index)))
     = dict_get "2019p738432" (windows sample_index).
Proof.
  assert ("2019p738432" <> event_id reading_ext sample_full_ds) as Hne
      by discriminate.
  destruct (append_frame reading_ext "2018p130600.h5" true true true
              sample_full_ds sample_index "2019p738432" eq_refl Hne)
    as (H1 & H2 & _).
  split; [vm_compute; reflexivity|]. split; assumption.
Defined.


(* ================================================================== *)
(** ** The seven lists of a window record *)

Lemma all_valsb_spec {V} (p : V -> bool) (d : dict V) :
  all_valsb p d = true <-> all_vals (fun v => p v = true) d.
Proof.
  unfold all_valsb, all_vals. rewrite forallb_forall. split.
  - intros H k v Hin. exact (H (k, v) Hin).
  - intros H [k v] Hin. exact (H k v Hin).
Qed.

Lemma keeps_zoom_allb {V A} (p : V -> bool) (k : string) (m : M V A) :
  keeps (fun v => p v = true) m ->
  keeps (fun d => all_valsb p d = true) (zoom k m).
Proof.
  intros H d Hd. apply all_valsb_spec. apply all_valsb_spec in Hd.
  exact (keeps_zoom_all _ k m H d Hd).
Qed.

Lemma keeps_setitem_allb {V} (p : V -> bool) (k : string) (v : V) :
  p v = true -> keeps (fun d => all_valsb p d = true) (setitem k v).
Proof.
  intros H d Hd. apply all_valsb_spec. apply all_valsb_spec in Hd.
  exact (keeps_setitem_all _ k v H d Hd).
Qed.

Lemma aligned_append (w : window_rec) (a b c d e f g : float) :
  aligned w = true ->
  aligned {| cc_shift_sec := cc_shift_sec w ++ [a];
             dlna := dlna w ++ [b];
             weight := weight w ++ [c];
             max_cc := max_cc w ++ [d];
             length_s := length_s w ++ [e];
             rel_start := rel_start w ++ [f];
             rel_end := rel_end w ++ [g] |} = true.
Proof.
  unfold aligned. cbn [cc_shift_sec dlna weight max_cc length_s rel_start
                       rel_end].
  rewrite !andb_true_iff, !Nat.eqb_eq, !length_app. cbn [length]. lia.
Qed.

(** One window added keeps the records of the step aligned. *)
Lemma add_window_aligned (window : MisfitWindow) :
  keeps (fun win => all_valsb (all_valsb aligned) win = true)
        (add_window window).
Proof.
  unfold add_window.
  destruct (split_on "." (channel_id window)) as [|net [|sta [|loc [|cha [|x l]]]]];
    try apply keeps_raise.
  apply keeps_bind.
  { intros win Hwin. cbv beta.
    match goal with
    | |- context [if ?c then _ else _] => destruct c
    end; [exact Hwin|].
    exact (keeps_setitem_allb (all_valsb aligned) _ [] eq_refl win Hwin). }
  intros _. apply keeps_bind.
  { apply keeps_zoom_allb. intros chans Hc. cbv beta.
    match goal with
    | |- context [if ?c then _ else _] => destruct c
    end; [exact Hc|].
    exact (keeps_setitem_allb aligned cha empty_window eq_refl chans Hc). }
  intros _. apply keeps_zoom_allb. apply keeps_zoom_allb.
  intros w Hw. cbn [modify fst]. now apply aligned_append.
Qed.

Lemma get_windows_aligned (ext : Externals) (ds : ASDFDataSet) :
  keeps (fun s => windows_aligned (windows s) = true) (get_windows ext ds).
Proof.
  unfold get_windows, windows_aligned. cbv zeta.
  apply keeps_bind.
  { apply (keeps_on_windows (fun d => all_valsb _ d = true)).
    now apply keeps_setitem_allb. }
  intros _. apply keeps_for_each. intros [model steps] _.
  apply keeps_bind.
  { apply (keeps_on_windows (fun d => all_valsb _ d = true)).
    apply keeps_zoom_allb. now apply keeps_setitem_allb. }
  intros _. apply keeps_for_each. intros [step wins] _.
  apply keeps_bind.
  { apply (keeps_on_windows (fun d => all_valsb _ d = true)).
    do 2 apply keeps_zoom_allb. now apply keeps_setitem_allb. }
  intros _. apply keeps_for_each. intros window _.
  apply (keeps_on_windows (fun d => all_valsb _ d = true)).
  do 3 apply keeps_zoom_allb. apply add_window_aligned.
Qed.

Lemma appends_keeps (ext : Externals)
    (calls : list (string * bool * bool * bool)) (P : Inspector -> Prop) :
  (forall ds, keeps P (get_windows ext ds) /\ keeps P (get_srcrcv ext ds)
              /\ keeps P (get_misfits ext ds)) ->
  keeps P (appends ext calls).
Proof.
  intros H. unfold appends. apply keeps_for_each.
  intros [[[dsfid w] s] m] _.
  apply keeps_bind; [|intros; apply keeps_ret].
  apply append_keeps. intros ds _. apply H.
Qed.

(** X11.  Reading datasets keeps the window records aligned: when in
    every window record the seven lists have the same length, they still
    have after any number of calls of [append], whatever these return.
    So they have in an Inspector filled from nothing. *)
Theorem appends_windows_aligned (ext : Externals)
    (calls : list (string * bool * bool * bool)) (self : Inspector) :
  windows_aligned (windows self) = true ->
  windows_aligned (windows (fst (appends ext calls self))) = true.
Proof.
  intros H.
  refine (appends_keeps ext calls
            (fun s => windows_aligned (windows s) = true) _ self H).
  intros ds. split; [|split].
  - apply get_windows_aligned.
  - now apply get_srcrcv_keeps_rest.
  - now apply rest_keeps_misfits.
Qed.

Lemma appends_windows_aligned_witness :
  windows_aligned
    (windows (fst (appends reading_ext
                           [("2018p130600.h5", true, true, true);
                            ("missing.h5", true, true, true)]
                           (new_Inspector (-60))))) = true.
Proof.
  exact (appends_windows_aligned reading_ext _ (new_Inspector (-60)) eq_refl).
Defined.

(** The records of a view of [sort_by_model] are records of the mapping
    it slices. *)
Lemma view_loop_values {V} (m s : string) (d : dict (dict (dict V)))
    (acc view : dict V) (P : V -> Prop) :
  foldM (fun view '(e, by_model) =>
           if dict_in m by_model
           then x <~ (by_step <~ getitem m by_model ;; getitem s by_step) ;;
                Ok (dict_set e x view)
           else Ok view) d acc = Ok view ->
  (forall e by_model x, In (e, by_model) d ->
                        lookup2 m s by_model = Some x -> P x) ->
  all_vals P acc -> all_vals P view.
Proof.
  revert acc. induction d as [|[e by_model] d IH]; intros acc H HP Hacc.
  - simpl in H. now injection H as <-.
  - cbn [foldM] in H.
    destruct (dict_in m by_model).
    + destruct (by_step <~ getitem m by_model ;; getitem s by_step)
        as [x|] eqn:E; cbn [rbind] in H; [|discriminate].
      apply (IH _ H); [intros; eapply HP; [right|]; eassumption|].
      intros k v Hin. apply dict_set_In in Hin.
      destruct Hin as [[_ ->]|Hin]; [|eapply Hacc; exact Hin].
      apply (HP e by_model); [now left|].
      unfold lookup2. unfold getitem in E.
      destruct (dict_get m by_model) as [by_step|]; [|discriminate].
      cbn [rbind] in E. destruct (dict_get s by_step); [|discriminate].
      congruence.
    + cbn [rbind] in H.
      apply (IH _ H); [intros; eapply HP; [right|]; eassumption|exact Hacc].
Qed.

Lemma sort_by_model_values {V} (d : dict (dict (dict V))) (self : Inspector)
    (view : dict (dict (dict V))) (P : V -> Prop) :
  sort_by_model_of d self = Ok view ->
  all_vals (all_vals (all_vals P)) d ->
  all_vals (all_vals (all_vals P)) view.
Proof.
  unfold sort_by_model_of. intros H Hd.
  destruct (not_None (_models self)) as [models|]; [|discriminate].
  cbn [rbind] in H. intros m by_step Hm.
  destruct (dict_comp_values _ _ _ _ _ H Hm) as [_ Hstep].
  destruct (all_steps <~ not_None (_steps self) ;; getitem m all_steps)
    as [steps|]; [|discriminate].
  cbn [rbind] in Hstep. intros s by_event Hs.
  destruct (dict_comp_values _ _ _ _ _ Hstep Hs) as [_ Hview].
  apply (view_loop_values m s d [] by_event P Hview); [|intros ? ? []].
  intros e by_model x Hin Hlook. unfold lookup2 in Hlook.
  destruct (dict_get m by_model) as [bs|] eqn:E1; [|discriminate].
  exact (Hd e by_model Hin m bs (dict_get_In _ _ _ E1) s x
            (dict_get_In _ _ _ Hlook)).
Qed.

Lemma aligned_lengths (w : window_rec) :
  aligned w = true -> length (dlna w) = length (length_s w).
Proof.
  unfold aligned. rewrite !andb_true_iff, !Nat.eqb_eq. lia.
Qed.

Lemma channel_items_In (by_event : dict (dict (dict window_rec)))
    (item : string * window_rec) :
  In item (channel_items by_event) ->
  exists e by_sta sta by_cha,
    In (e, by_sta) by_event /\ In (sta, by_cha) by_sta /\ In item by_cha.
Proof.
  unfold channel_items. rewrite in_flat_map.
  intros ([e by_sta] & He & Hin). rewrite in_flat_map in Hin.
  destruct Hin as ([sta by_cha] & Hs & Hin).
  exists e, by_sta, sta, by_cha. auto.
Qed.

(** X12.  In an Inspector whose window records are aligned, each view of
    [sort_by_model("windows")] has as many windows, counted as
    [measurements("num_windows")] counts them, as it has window lengths,
    the numbers [measurements("cum_win_len")] adds up. *)
Theorem aligned_count_lengths (self : Inspector)
    (view : dict (dict (dict (dict (dict window_rec)))))
    (model step : string) (by_event : dict (dict (dict window_rec))) :
  windows_aligned (windows self) = true ->
  sort_by_model_windows self = Ok view ->
  lookup2 model step view = Some by_event ->
  window_count by_event = Z.of_nat (length (window_lengths by_event)).
Proof.
  intros Ha Hview Hlook. apply window_count_lengths.
  intros [cha w] Hin. cbn [snd]. apply aligned_lengths.
  destruct (channel_items_In by_event _ Hin)
    as (e & by_sta & sta & by_cha & He & Hs & Hc).
  assert (all_vals (all_vals (all_vals
            (fun x : dict (dict window_rec) =>
               all_valsb (all_valsb aligned) x = true))) (windows self))
    as Hd.
  { unfold windows_aligned in Ha. apply all_valsb_spec in Ha.
    intros k1 v1 H1. specialize (Ha k1 v1 H1). apply all_valsb_spec in Ha.
    intros k2 v2 H2. specialize (Ha k2 v2 H2). apply all_valsb_spec in Ha.
    intros k3 v3 H3. exact (Ha k3 v3 H3). }
  pose proof (sort_by_model_values (windows self) self view _ Hview Hd) as Hv.
  unfold lookup2 in Hlook.
  destruct (dict_get model view) as [by_step|] eqn:Em; [|discriminate].
  pose proof (Hv model by_step (dict_get_In _ _ _ Em) step by_event
                 (dict_get_In _ _ _ Hlook) e by_sta He) as Hx.
  apply all_valsb_spec in Hx. specialize (Hx sta by_cha Hs).
  apply all_valsb_spec in Hx. exact (Hx cha w Hc).
Qed.

Lemma aligned_count_lengths_witness :
  window_count [("2018p130600",
                 [("NZ.BFZ", [("HHZ", sample_window [1.5%float; 2%float]);
                              ("HHN", sample_window [3%float])])]);
                ("2019p738432", [])]
  = 3%Z.
Proof.
  exact (aligned_count_lengths sample_index _ "m00" "s00" _
           eq_refl eq_refl eq_refl).
Defined.

(* ================================================================== *)
(** ** [exclude_events] *)

Lemma dict_remove_In {V} (k : string) (d : dict V) (kv : string * V) :
  In kv (dict_remove k d) -> In kv d.
Proof.
  induction d as [|[k' v'] d IH]; simpl; [tauto|].
  destruct (String.eqb k k'); simpl; [tauto|].
  intros [H|H]; [now left|right; auto].
Qed.

Lemma dict_get_remove_other {V} (k k' : string) (d : dict V) :
  k <> k' -> dict_get k (dict_remove k' d) = dict_get k d.
Proof.
  intros Hne. induction d as [|[k0 v0] d IH]; simpl; [reflexivity|].
  destruct (String.eqb_spec k' k0) as [->|Hne0]; simpl.
  - apply String.eqb_neq in Hne. now rewrite Hne.
  - now rewrite IH.
Qed.

Lemma keeps_delitem_incl {V} (k : string) (l0 : dict V) :
  keeps (fun d => incl d l0) (delitem k).
Proof.
  intros d Hd. unfold delitem. destruct (dict_in k d); [|exact Hd].
  cbn [fst]. intros kv Hin. apply Hd. eapply dict_remove_In. exact Hin.
Qed.

Lemma keeps_delitem_other {V} (k k' : string) (o : option V) :
  k <> k' -> keeps (fun d => dict_get k d = o) (delitem k').
Proof.
  intros Hne d Hd. unfold delitem. destruct (dict_in k' d); [|exact Hd].
  cbn [fst]. now rewrite dict_get_remove_other.
Qed.

Lemma get_info_mappings (self : Inspector) :
  srcrcv (fst (_get_info self)) = srcrcv self
  /\ misfits (fst (_get_info self)) = misfits self
  /\ windows (fst (_get_info self)) = windows self.
Proof.
  unfold _get_info. rewrite get_info_lists.
  match goal with
  | |- context [match ?r with Ok _ => _ | Raise _ => _ end] =>
      destruct r as [[[models steps] iterations]|]
  end; repeat split.
Qed.

Lemma get_str_mappings (ext : Externals) (self : Inspector) :
  srcrcv (fst (_get_str ext self)) = srcrcv self
  /\ misfits (fst (_get_str ext self)) = misfits self
  /\ windows (fst (_get_str ext self)) = windows self.
Proof.
  unfold _get_str.
  match goal with
  | |- context [match ?r with Ok _ => _ | Raise _ => _ end] =>
      destruct r
  end; repeat split.
Qed.

Lemma keeps_mappings {A} (Q : srcrcv_t -> misfits_t -> windows_t -> Prop)
    (m : M Inspector A) :
  (forall s, srcrcv (fst (m s)) = srcrcv s
             /\ misfits (fst (m s)) = misfits s
             /\ windows (fst (m s)) = windows s) ->
  keeps (fun s => Q (srcrcv s) (misfits s) (windows s)) m.
Proof.
  intros H s Hs. destruct (H s) as (-> & -> & ->). exact Hs.
Qed.

Lemma foldM_inv {A B} (I : B -> Prop) (f : B -> A -> result B)
    (xs : list A) :
  (forall b x b', In x xs -> I b -> f b x = Ok b' -> I b') ->
  forall b b', I b -> foldM f xs b = Ok b' -> I b'.
Proof.
  induction xs as [|x xs IH]; intros Hf b b' Hb H; simpl in H.
  - now injection H as <-.
  - destruct (f b x) as [b1|] eqn:E; cbn [rbind] in H; [|discriminate].
    apply (IH (fun b0 y b0' Hy => Hf b0 y b0' (or_intror Hy)) b1 b');
      [|exact H].
    exact (Hf b x b1 (or_introl eq_refl) Hb E).
Qed.

(** One pass of the first loop adds nothing, or the key it looks at,
    which then is no station. *)
Lemma exclude_step_adds (ext : Externals) (coords : list float)
    (depth_min depth_max mag_min mag_max : option float)
    (starttime endtime : option Z) (acc acc' : list string)
    (item : string * dict srcrcv_val) :
  exclude_step ext coords depth_min depth_max mag_min mag_max
               starttime endtime acc item = Ok acc' ->
  acc' = acc \/ (acc' = acc ++ [fst item] /\ has_dot (fst item) = false).
Proof.
  unfold exclude_step. destruct item as [event rec]. cbn [fst].
  destruct (has_dot event) eqn:Hdot; [intros [= <-]; now left|].
  destruct (outside_box coords rec) as [[|]|]; cbn [rbind];
    [intros [= <-]; now right| |discriminate].
  destruct (truthy depth_min || truthy depth_max).
  { destruct (coord_of "depth_m" rec); cbn [rbind]; [|discriminate].
    destruct (outside_range depth_min depth_max _); intros [= <-]; auto. }
  destruct (truthy mag_min || truthy mag_max).
  { destruct (coord_of "mag" rec); cbn [rbind]; [|discriminate].
    destruct (outside_range mag_min mag_max _); intros [= <-]; auto. }
  destruct starttime, endtime; try (intros [= <-]; now left);
    (destruct (v <~ getitem "time" rec ;; as_str v); cbn [rbind];
     [|discriminate]);
    repeat match goal with
           | |- context [if ?c then _ else _] => destruct c
           end; intros [= <-]; auto.
Qed.

Lemma events_outside_no_station (ext : Externals) (coords : list float)
    (depth_min depth_max mag_min mag_max : option float)
    (starttime endtime : option Z) (self : Inspector)
    (outside : list string) :
  events_outside ext coords depth_min depth_max mag_min mag_max
                 starttime endtime self = Ok outside ->
  Forall (fun e => has_dot e = false) outside.
Proof.
  unfold events_outside.
  apply (foldM_inv (Forall (fun e => has_dot e = false))); [|constructor].
  intros b x b' _ Hb E. apply exclude_step_adds in E.
  destruct E as [->|[-> Hdot]]; [exact Hb|].
  apply Forall_app. split; [exact Hb|]. now constructor.
Qed.

(** X13.  [exclude_events] only removes: every entry of [misfits], of
    [windows] and of [srcrcv] afterwards was an entry before, with the
    same value, and the record of every station is afterwards what it
    was.  This holds whatever the arguments are and also when the call
    raises. *)
Theorem exclude_events_only_removes (ext : Externals)
    (coords : option (list float))
    (depth_min depth_max mag_min mag_max : option float)
    (starttime endtime : option Z) (self : Inspector) :
  let self' := fst (exclude_events ext coords depth_min depth_max
                                   mag_min mag_max starttime endtime self) in
  incl (misfits self') (misfits self)
  /\ incl (windows self') (windows self)
  /\ incl (srcrcv self') (srcrcv self)
  /\ forall key, has_dot key = true ->
                 dict_get key (srcrcv self') = dict_get key (srcrcv self).
Proof.
  cbv zeta.
  set (P := fun s : Inspector =>
              incl (misfits s) (misfits self)
              /\ incl (windows s) (windows self)
              /\ incl (srcrcv s) (srcrcv self)
              /\ forall key, has_dot key = true ->
                             dict_get key (srcrcv s)
                             = dict_get key (srcrcv self)).
  assert (keeps P (exclude_events ext coords depth_min depth_max mag_min
                                  mag_max starttime endtime)) as K.
  { unfold exclude_events. cbv zeta.
    apply (keeps_bind_val _ (Forall (fun e => has_dot e = false))).
    { intros s Hs. split; [exact Hs|]. cbn [snd].
      intros outside E. eapply events_outside_no_station. exact E. }
    intros outside Hout. rewrite Forall_forall in Hout.
    apply keeps_bind.
    { apply keeps_for_each. intros event Hev. specialize (Hout event Hev).
      assert (forall A (m : M _ A),
                 keeps (fun s => incl (srcrcv s) (srcrcv self)
                                 /\ forall key, has_dot key = true ->
                                      dict_get key (srcrcv s)
                                      = dict_get key (srcrcv self))
                       m ->
                 keeps (fun s => incl (misfits s) (misfits self)) m ->
                 keeps (fun s => incl (windows s) (windows self)) m ->
                 keeps P m) as Hsplit.
      { intros A m H1 H2 H3 s (Ha & Hb & Hc & Hd).
        repeat split.
        - now apply H2.
        - now apply H3.
        - now apply (H1 s (conj Hc Hd)).
        - now apply (H1 s (conj Hc Hd)). }
      apply keeps_bind; [|intros _; apply keeps_bind; [|intros _]];
        apply Hsplit.
      - now apply frame_on_misfits.
      - apply (keeps_on_misfits (fun d => incl d _)).
        apply keeps_delitem_incl.
      - now apply frame_on_misfits.
      - now apply frame_on_windows.
      - now apply frame_on_windows.
      - apply (keeps_on_windows (fun d => incl d _)).
        apply keeps_delitem_incl.
      - apply (keeps_on_srcrcv
                 (fun d => incl d (srcrcv self)
                           /\ forall key, has_dot key = true ->
                                dict_get key d = dict_get key (srcrcv self))).
        intros d [Hi Hk]. split; [now apply keeps_delitem_incl|].
        intros key Hdot.
        apply (keeps_delitem_other key event (dict_get key (srcrcv self)));
          [|now apply Hk].
        intros ->. congruence.
      - now apply frame_on_srcrcv.
      - now apply frame_on_srcrcv. }
    intros _. apply keeps_bind.
    - apply (keeps_mappings
               (fun sr mi wi =>
                  incl mi (misfits self) /\ incl wi (windows self)
                  /\ incl sr (srcrcv self)
                  /\ forall key, has_dot key = true ->
                       dict_get key sr = dict_get key (srcrcv self))).
      apply get_info_mappings.
    - intros _.
      apply (keeps_mappings
               (fun sr mi wi =>
                  incl mi (misfits self) /\ incl wi (windows self)
                  /\ incl sr (srcrcv self)
                  /\ forall key, has_dot key = true ->
                       dict_get key sr = dict_get key (srcrcv self))).
      apply get_str_mappings. }
  apply K. unfold P. repeat split; try apply incl_refl.
Qed.

Lemma foldM_ext {A B} (f g : B -> A -> result B) (xs : list A) (b : B) :
  (forall b x, f b x = g b x) -> foldM f xs b = foldM g xs b.
Proof.
  intros H. revert b. induction xs as [|x xs IH]; intros b; simpl;
    [reflexivity|].
  rewrite H. destruct (g b x); simpl; auto.
Qed.

(** X14.  The criteria of [exclude_events] are tried in a fixed order and
    only the first one given counts for an event inside the box: with a
    depth bound given, the magnitude and time bounds are ignored, and
    with a magnitude bound given, the time bounds are. *)
Theorem exclude_events_first_criterion (ext : Externals)
    (coords : option (list float))
    (depth_min depth_max mag_min mag_max : option float)
    (starttime endtime : option Z) (self : Inspector) :
  let by_depth := truthy depth_min || truthy depth_max in
  let by_mag := truthy mag_min || truthy mag_max in
  exclude_events ext coords depth_min depth_max mag_min mag_max
                 starttime endtime self
  = exclude_events ext coords depth_min depth_max
      (if by_depth then None else mag_min)
      (if by_depth then None else mag_max)
      (if by_depth || by_mag then None else starttime)
      (if by_depth || by_mag then None else endtime) self.
Proof.
  cbv zeta. unfold exclude_events, bind.
  set (c := match coords with Some (c :: l) => c :: l | _ => [] end).
  assert (events_outside ext c depth_min depth_max mag_min mag_max
                         starttime endtime self
          = events_outside ext c depth_min depth_max
              (if truthy depth_min || truthy depth_max then None else mag_min)
              (if truthy depth_min || truthy depth_max then None else mag_max)
              (if truthy depth_min || truthy depth_max
                  || (truthy mag_min || truthy mag_max)
               then None else starttime)
              (if truthy depth_min || truthy depth_max
                  || (truthy mag_min || truthy mag_max)
               then None else endtime) self) as ->; [|reflexivity].
  unfold events_outside. apply foldM_ext. intros acc [event rec].
  unfold exclude_step.
  destruct (has_dot event); [reflexivity|].
  destruct (outside_box c rec) as [[|]|]; cbn [rbind]; try reflexivity.
  destruct (truthy depth_min || truthy depth_max); [reflexivity|].
  cbn [orb].
  destruct (truthy mag_min || truthy mag_max); reflexivity.
Qed.

(** ** What [exclude_events] removes *)

Lemma events_outside_keys (ext : Externals) (coords : list float)
    (depth_min depth_max mag_min mag_max : option float)
    (starttime endtime : option Z) (d : srcrcv_t) :
  forall acc out,
    foldM (exclude_step ext coords depth_min depth_max mag_min mag_max
                        starttime endtime) d acc = Ok out ->
    NoDup (acc ++ dict_keys d) ->
    NoDup out /\ forall e, In e out -> In e acc \/ In e (dict_keys d).
Proof.
  induction d as [|[k rec] d IH]; intros acc out H Hnd.
  - simpl in H. injection H as <-. rewrite app_nil_r in Hnd.
    split; [exact Hnd|]. intros e He. now left.
  - cbn [foldM] in H.
    destruct (exclude_step ext coords depth_min depth_max mag_min mag_max
                           starttime endtime acc (k, rec)) as [acc'|] eqn:E;
      cbn [rbind] in H; [|discriminate].
    cbn [dict_keys map fst] in *. fold (dict_keys d) in *.
    apply exclude_step_adds in E. cbn [fst] in E.
    destruct E as [->|[-> _]].
    + destruct (IH acc out H (NoDup_remove_1 _ _ _ Hnd)) as [H1 H2].
      split; [exact H1|]. intros e He.
      destruct (H2 e He) as [?|?]; [now left|right; now right].
    + assert (NoDup ((acc ++ [k]) ++ dict_keys d)) as Hnd'
          by (rewrite <- app_assoc; exact Hnd).
      destruct (IH (acc ++ [k]) out H Hnd') as [H1 H2].
      split; [exact H1|]. intros e He.
      destruct (H2 e He) as [Hin|?]; [|right; now right].
      apply in_app_or in Hin. destruct Hin as [?|[<-|[]]];
        [now left|right; now left].
Qed.

Lemma dict_in_remove_other {V} (k k' : string) (d : dict V) :
  k <> k' -> dict_in k (dict_remove k' d) = dict_in k d.
Proof.
  intros Hne. unfold dict_in. now rewrite dict_get_remove_other.
Qed.

(** The second loop of [exclude_events], when every event to remove has
    a record in each of the three mappings. *)
Lemma delete_loop (outside : list string) :
  NoDup outside ->
  forall self,
    (forall e, In e outside ->
               dict_in e (misfits self) = true
               /\ dict_in e (windows self) = true
               /\ dict_in e (srcrcv self) = true) ->
    exists s',
      for_each outside (fun event =>
        on_misfits (delitem event) ;;
        on_windows (delitem event) ;;
        on_srcrcv (delitem event)) self = (s', Ok tt)
      /\ misfits s' = fold_left (fun d e => dict_remove e d) outside
                                (misfits self)
      /\ windows s' = fold_left (fun d e => dict_remove e d) outside
                                (windows self)
      /\ srcrcv s' = fold_left (fun d e => dict_remove e d) outside
                               (srcrcv self)
      /\ derived s' = derived self.
Proof.
  induction outside as [|e outside IH]; intros Hnd self Hin.
  - exists self. repeat split.
  - inversion Hnd as [|? ? Hnot Hnd']; subst.
    destruct (Hin e (or_introl eq_refl)) as (Hm & Hw & Hs).
    set (s1 := with_srcrcv (dict_remove e (srcrcv self))
                 (with_windows (dict_remove e (windows self))
                    (with_misfits (dict_remove e (misfits self)) self))).
    destruct (IH Hnd' s1) as (s' & Hrun & H1 & H2 & H3 & H4).
    { intros e' He'. assert (e' <> e) as Hne by (intros ->; contradiction).
      destruct (Hin e' (or_intror He')) as (Hm' & Hw' & Hs').
      unfold s1. cbn [misfits windows srcrcv with_srcrcv with_windows
                      with_misfits].
      now rewrite !dict_in_remove_other. }
    exists s'. split; [|repeat split; assumption].
    cbn [for_each]. unfold bind at 1. unfold bind at 1.
    unfold on_misfits at 1, delitem at 1. rewrite Hm.
    unfold bind at 1.
    unfold on_windows at 1, delitem at 1.
    cbn [windows with_misfits]. rewrite Hw.
    unfold on_srcrcv at 1, delitem at 1.
    cbn [srcrcv with_windows with_misfits]. rewrite Hs.
    exact Hrun.
Qed.

Lemma filter_filter {A} (f g : A -> bool) (l : list A) :
  filter f (filter g l) = filter (fun x => g x && f x) l.
Proof.
  induction l as [|x l IH]; simpl; [reflexivity|].
  destruct (g x); simpl; [destruct (f x)|]; now rewrite IH.
Qed.

Lemma dict_remove_filter {V} (k : string) (d : dict V) :
  NoDup (dict_keys d) ->
  dict_remove k d = filter (fun kv => negb (fst kv =? k)) d.
Proof.
  induction d as [|[k' v'] d IH]; intros Hnd; simpl; [reflexivity|].
  inversion Hnd as [|? ? Hnot Hnd']; subst.
  rewrite (String.eqb_sym k' k).
  destruct (String.eqb_spec k k') as [->|Hne]; cbn [negb].
  - symmetry. apply forallb_filter_id. apply forallb_forall.
    intros [k0 v0] H0. cbn [fst].
    destruct (String.eqb_spec k0 k') as [->|]; [|reflexivity].
    exfalso. apply Hnot. apply (in_map fst) in H0. exact H0.
  - f_equal. now apply IH.
Qed.

Lemma filter_keys_NoDup {V} (f : string * V -> bool) (d : dict V) :
  NoDup (dict_keys d) -> NoDup (dict_keys (filter f d)).
Proof.
  induction d as [|[k v] d IH]; intros Hnd; simpl; [constructor|].
  inversion Hnd as [|? ? Hnot Hnd']; subst.
  destruct (f (k, v)); [|now apply IH].
  cbn [dict_keys map fst]. constructor; [|now apply IH].
  intros Hin. apply Hnot. apply in_map_iff in Hin.
  destruct Hin as ([k0 v0] & E & Hin). cbn [fst] in E. subst k0.
  apply filter_In in Hin. destruct Hin as [Hin _].
  apply (in_map fst) in Hin. exact Hin.
Qed.

Lemma remove_all_filter {V} (outside : list string) (d : dict V) :
  NoDup (dict_keys d) ->
  fold_left (fun d e => dict_remove e d) outside d
  = filter (fun kv => negb (str_in (fst kv) outside)) d.
Proof.
  revert d. induction outside as [|e outside IH]; intros d Hnd.
  - cbn [fold_left]. symmetry. apply forallb_filter_id.
    apply forallb_forall. reflexivity.
  - cbn [fold_left]. rewrite (dict_remove_filter e d Hnd).
    rewrite IH by (now apply filter_keys_NoDup).
    rewrite filter_filter. apply filter_ext. intros [k v]. cbn [fst].
    unfold str_in. cbn [existsb]. now rewrite negb_orb.
Qed.

Lemma foldM_total {A B} (f : B -> A -> result B) (xs : list A) :
  (forall b x, In x xs -> exists b', f b x = Ok b') ->
  forall b, exists b', foldM f xs b = Ok b'.
Proof.
  induction xs as [|x xs IH]; intros H b; simpl; [eauto|].
  destruct (H b x (or_introl eq_refl)) as [b1 ->]. cbn [rbind].
  apply IH. intros b0 y Hy. apply H. now right.
Qed.

Lemma dict_in_set {V} (k k' : string) (v : V) (d : dict V) :
  dict_in k (dict_set k' v d) = (k =? k') || dict_in k d.
Proof.
  unfold dict_in. rewrite dict_get_set.
  now destruct (k =? k').
Qed.

Lemma foldM_set_keys {V} (f : string -> result V) (ks : list string) :
  forall (acc d : dict V),
    foldM (fun d k => v <~ f k ;; Ok (dict_set k v d)) ks acc = Ok d ->
    forall k, In k ks \/ dict_in k acc = true -> dict_in k d = true.
Proof.
  induction ks as [|k0 ks IH]; intros acc d H k Hk; simpl in H.
  - injection H as <-. destruct Hk as [[]|Hk]. exact Hk.
  - destruct (f k0) as [v|]; cbn [rbind] in H; [|discriminate].
    apply (IH _ _ H). rewrite dict_in_set.
    destruct Hk as [[->|Hk]|Hk].
    + right. now rewrite String.eqb_refl.
    + now left.
    + right. rewrite Hk. apply orb_true_r.
Qed.

Lemma getitem_In {V} (k : string) (d : dict V) :
  In k (dict_keys d) -> exists v, getitem k d = Ok v.
Proof.
  intros H. unfold getitem. destruct (dict_get k d) as [v|] eqn:E; [eauto|].
  apply dict_get_None in E. contradiction.
Qed.

(** [_get_info] returns whenever there is a misfit record. *)
Lemma get_info_returns (self : Inspector) :
  misfits self <> [] -> snd (_get_info self) = Ok tt.
Proof.
  intros Hne. unfold _get_info. rewrite get_info_lists.
  cbn [with_stations_events misfits].
  destruct (misfits self) as [|[event by_model] rest]; [congruence|].
  cbn [dict_keys map fst first rbind].
  unfold getitem at 1. cbn [dict_get]. rewrite String.eqb_refl.
  cbn [rbind]. fold (dict_keys by_model).
  destruct (foldM_total
              (fun d k => v <~ (by_step <~ getitem k by_model ;;
                                Ok (dict_keys by_step)) ;;
                          Ok (dict_set k v d))
              (dict_keys by_model)) with (b := @nil (string * list string))
    as [steps Hsteps].
  { intros b x Hx. destruct (getitem_In x by_model Hx) as [v ->].
    cbn [rbind]. eauto. }
  unfold dict_comp. rewrite Hsteps. cbn [rbind].
  destruct (foldM_total
              (fun (iterations : Z) (m : string) =>
                 l <~ getitem m steps ;;
                 Ok (iterations + Z.of_nat (length l))%Z)
              (dict_keys by_model)) with (b := 0%Z) as [n Hn].
  { intros b x Hx.
    pose proof (foldM_set_keys _ _ _ _ Hsteps x (or_introl Hx)) as Hin.
    unfold dict_in in Hin. unfold getitem.
    destruct (dict_get x steps); [|discriminate]. cbn [rbind]. eauto. }
  rewrite Hn. reflexivity.
Qed.

Lemma get_info_sets (self : Inspector) :
  snd (_get_info self) = Ok tt ->
  exists events stations models,
    _events (fst (_get_info self)) = Some events
    /\ _stations (fst (_get_info self)) = Some stations
    /\ _models (fst (_get_info self)) = Some models.
Proof.
  unfold _get_info. rewrite get_info_lists.
  match goal with
  | |- context [match ?r with Ok _ => _ | Raise _ => _ end] =>
      destruct r as [[[models steps] iterations]|]
  end; cbn; intros H; [|discriminate].
  do 3 eexists. repeat split.
Qed.

Lemma get_str_events (ext : Externals) (self : Inspector) :
  _events (fst (_get_str ext self)) = _events self
  /\ _stations (fst (_get_str ext self)) = _stations self.
Proof.
  unfold _get_str.
  match goal with
  | |- context [match ?r with Ok _ => _ | Raise _ => _ end] =>
      destruct r
  end; split; reflexivity.
Qed.

(** X15.  When every event that [exclude_events] finds outside has a
    record in each of the three mappings, the call removes exactly these
    events from [misfits], [windows] and [srcrcv] and keeps all other
    entries in their order; it sets the list of events to the events
    left in [srcrcv], and it returns unless no misfit record is left,
    when it raises [IndexError]. *)
Theorem exclude_events_removes (ext : Externals) (coords : list float)
    (depth_min depth_max mag_min mag_max : option float)
    (starttime endtime : option Z) (self : Inspector)
    (outside : list string) :
  events_outside ext coords depth_min depth_max mag_min mag_max
                 starttime endtime self = Ok outside ->
  unique (dict_keys (srcrcv self)) = true ->
  unique (dict_keys (misfits self)) = true ->
  unique (dict_keys (windows self)) = true ->
  forallb (fun e => dict_in e (misfits self) && dict_in e (windows self))
          outside = true ->
  let kept := fun {V} (d : dict V) =>
                filter (fun kv => negb (str_in (fst kv) outside)) d in
  let out := exclude_events ext (Some coords) depth_min depth_max
                            mag_min mag_max starttime endtime self in
  misfits (fst out) = kept (misfits self)
  /\ windows (fst out) = kept (windows self)
  /\ srcrcv (fst out) = kept (srcrcv self)
  /\ _events (fst out)
     = Some (filter (fun k => negb (has_dot k))
                    (dict_keys (kept (srcrcv self))))
  /\ snd out = if is_empty (kept (misfits self)) then Raise IndexError
               else Ok tt.
Proof.
  intros Hout Hus Hum Huw Hin. cbv zeta.
  apply unique_NoDup in Hus, Hum, Huw.
  destruct (events_outside_keys ext coords depth_min depth_max mag_min
              mag_max starttime endtime (srcrcv self) [] outside Hout Hus)
    as [Hnd Hkeys].
  rewrite forallb_forall in Hin.
  destruct (delete_loop outside Hnd self) as (s1 & Hrun & H1 & H2 & H3 & H4).
  { intros e He. specialize (Hin e He). apply andb_prop in Hin.
    destruct Hin as [Hm Hw]. repeat split; try assumption.
    destruct (Hkeys e He) as [[]|Hk]. unfold dict_in.
    destruct (dict_get e (srcrcv self)) eqn:E; [reflexivity|].
    apply dict_get_None in E. contradiction. }
  rewrite remove_all_filter in H1 by assumption.
  rewrite remove_all_filter in H2 by assumption.
  rewrite remove_all_filter in H3 by assumption.
  assert (exclude_events ext (Some coords) depth_min depth_max mag_min
                         mag_max starttime endtime self
          = (_get_info ;; _get_str ext) s1) as E.
  { unfold exclude_events. unfold bind at 1.
    assert (match coords with c :: l => c :: l | [] => [] end = coords)
      as -> by (now destruct coords).
    rewrite Hout. unfold bind at 1. rewrite Hrun. reflexivity. }
  rewrite E. clear E.
  destruct (get_info_mappings s1) as (G1 & G2 & G3).
  destruct (get_info_events_stations s1) as (G4 & _).
  unfold bind.
  destruct (_get_info s1) as [s2 [[]|e]] eqn:Einfo; cbn [fst snd] in *.
  - destruct (get_str_mappings ext s2) as (S1 & S2 & S3).
    destruct (get_str_events ext s2) as (S4 & _).
    pose proof (get_info_sets s1) as Hsets. rewrite Einfo in Hsets.
    destruct (Hsets eq_refl) as (ev & st & mo & Hev & Hst & Hmo).
    cbn [fst] in Hev, Hst, Hmo.
    destruct (get_str_defined ext s2 ev st mo Hev Hst Hmo) as [str Hstr].
    rewrite Hstr in *. cbn [fst snd] in *.
    rewrite S2, S3, S1, S4, G2, G3, G1, G4, H1, H2, H3.
    repeat split.
    destruct (filter _ (misfits self)) eqn:Ef; [|reflexivity].
    exfalso. pose proof (get_info_no_misfits s1) as Hno.
    rewrite Einfo in Hno. cbn [snd] in Hno.
    rewrite H1 in Hno. destruct (Hno eq_refl) as [Hno' _]. discriminate.
  - rewrite G2, G3, G1, G4, H1, H2, H3. repeat split.
    destruct (is_empty _) eqn:Ee.
    + pose proof (get_info_no_misfits s1) as Hno.
      rewrite Einfo in Hno. cbn [snd] in Hno. rewrite H1 in Hno.
      destruct (filter _ (misfits self)); [|discriminate].
      now destruct (Hno eq_refl) as [-> _].
    + exfalso. pose proof (get_info_returns s1) as Hret.
      rewrite Einfo in Hret. cbn [snd] in Hret. rewrite H1 in Hret.
      destruct (filter _ (misfits self)); [discriminate|].
      assert (Raise e = Ok tt) by (apply Hret; discriminate). discriminate.
Qed.

(** X16.  When the first event to remove has a misfit record and no
    window record, as in an Inspector filled without windows,
    [exclude_events] raises [KeyError] for it after it has removed its
    misfit record: the event is then gone from [misfits] and still in
    [srcrcv], and the derived attributes are not refreshed. *)
Theorem exclude_events_half_removed (ext : Externals) (coords : list float)
    (depth_min depth_max mag_min mag_max : option float)
    (starttime endtime : option Z) (self : Inspector)
    (event : string) (rest : list string) :
  events_outside ext coords depth_min depth_max mag_min mag_max
                 starttime endtime self = Ok (event :: rest) ->
  dict_in event (misfits self) = true ->
  dict_in event (windows self) = false ->
  exclude_events ext (Some coords) depth_min depth_max mag_min mag_max
                 starttime endtime self
  = (with_misfits (dict_remove event (misfits self)) self,
     Raise (KeyError event)).
Proof.
  intros Hout Hm Hw. unfold exclude_events. unfold bind at 1.
  assert (match coords with c :: l => c :: l | [] => [] end = coords)
    as -> by (now destruct coords).
  rewrite Hout. cbn [for_each]. unfold bind.
  unfold on_misfits at 1, delitem at 1. rewrite Hm.
  unfold on_windows at 1, delitem at 1. cbn [windows with_misfits].
  rewrite Hw. reflexivity.
Qed.

Lemma exclude_events_removes_witness :
  let out := exclude_events sample_ext
               (Some [(-42)%float; (-40)%float; 170%float; 180%float])
               None None (Some 5%float) None None None sample_index in
  dict_keys (misfits (fst out)) = ["2019p738432"]
  /\ dict_keys (srcrcv (fst out)) = ["NZ.BFZ"; "2019p738432"]
  /\ _events (fst out) = Some ["2019p738432"]
  /\ snd out = Ok tt.
Proof.
  destruct (exclude_events_removes sample_ext
              [(-42)%float; (-40)%float; 170%float; 180%float]
              None None (Some 5%float) None None None sample_index
              ["2018p130600"] eq_refl eq_refl eq_refl eq_refl eq_refl)
    as (H1 & _ & H3 & H4 & H5).
  cbv zeta. rewrite H1, H3, H4, H5. repeat split.
Defined.

Lemma exclude_events_half_removed_witness :
  let out := exclude_events sample_ext
               (Some [0%float; 1%float; 0%float; 1%float])
               None None None None None None
               (with_windows [] sample_index) in
  snd out = Raise (KeyError "2018p130600")
  /\ dict_keys (misfits (fst out)) = ["2019p738432"]
  /\ dict_keys (srcrcv (fst out)) = ["2018p130600"; "NZ.BFZ"; "2019p738432"].
Proof.
  cbv zeta.
  rewrite (exclude_events_half_removed sample_ext
             [0%float; 1%float; 0%float; 1%float]
             None None None None None None (with_windows [] sample_index)
             "2018p130600" ["2019p738432"] eq_refl eq_refl eq_refl).
  repeat split.
Defined.

(** ** The time criterion of [exclude_events] *)

(** What one pass of the first loop appends does not depend on what was
    collected before. *)
Lemma exclude_step_verdict (ext : Externals) (coords : list float)
    (depth_min depth_max mag_min mag_max : option float)
    (starttime endtime : option Z) (acc : list string)
    (item : string * dict srcrcv_val) :
  exclude_step ext coords depth_min depth_max mag_min mag_max
               starttime endtime acc item
  = (v <~ exclude_step ext coords depth_min depth_max mag_min mag_max
                       starttime endtime [] item ;;
     Ok (acc ++ v)).
Proof.
  unfold exclude_step. destruct item as [event rec].
  destruct (has_dot event); [cbn; now rewrite app_nil_r|].
  destruct (outside_box coords rec) as [[|]|]; cbn [rbind];
    [reflexivity| |reflexivity].
  destruct (truthy depth_min || truthy depth_max).
  { destruct (coord_of "depth_m" rec); cbn [rbind]; [|reflexivity].
    destruct (outside_range depth_min depth_max _); cbn;
      now rewrite ?app_nil_r. }
  destruct (truthy mag_min || truthy mag_max).
  { destruct (coord_of "mag" rec); cbn [rbind]; [|reflexivity].
    destruct (outside_range mag_min mag_max _); cbn;
      now rewrite ?app_nil_r. }
  destruct starttime, endtime; try (cbn; now rewrite app_nil_r);
    (destruct (v <~ getitem "time" rec ;; as_str v); cbn [rbind];
     [|reflexivity]);
    repeat match goal with
           | |- context [if ?c then _ else _] => destruct c
           end; cbn; now rewrite ?app_nil_r.
Qed.

Lemma events_outside_In (ext : Externals) (coords : list float)
    (depth_min depth_max mag_min mag_max : option float)
    (starttime endtime : option Z) (d : srcrcv_t) :
  forall acc out,
    foldM (exclude_step ext coords depth_min depth_max mag_min mag_max
                        starttime endtime) d acc = Ok out ->
    forall e,
      In e out
      <-> In e acc
          \/ exists rec,
               In (e, rec) d
               /\ exclude_step ext coords depth_min depth_max mag_min
                               mag_max starttime endtime [] (e, rec)
                  = Ok [e].
Proof.
  induction d as [|[k rec] d IH]; intros acc out H e.
  - cbn in H. injection H as <-. split; [auto|].
    intros [H|(rec & [] & _)]. exact H.
  - cbn [foldM] in H. rewrite exclude_step_verdict in H.
    destruct (exclude_step ext coords depth_min depth_max mag_min mag_max
                           starttime endtime [] (k, rec)) as [v|] eqn:Ev;
      cbn [rbind] in H; [|discriminate].
    rewrite (IH _ _ H e). rewrite in_app_iff.
    pose proof (exclude_step_adds ext coords depth_min depth_max mag_min
                  mag_max starttime endtime [] v (k, rec) Ev) as Hv.
    cbn [app fst] in Hv.
    split.
    + intros [[Ha|Hin]|(rec' & Hin & Hm)].
      * now left.
      * right. exists rec. destruct Hv as [->|[-> _]]; [destruct Hin|].
        destruct Hin as [<-|[]]. split; [now left|exact Ev].
      * right. exists rec'. split; [now right|exact Hm].
    + intros [Ha|(rec' & [[= <- <-]|Hin] & Hm)].
      * left. now left.
      * left. right. rewrite Ev in Hm. injection Hm as ->. now left.
      * right. exists rec'. now split.
Qed.

(** X28.  With no depth, magnitude or start-time bound, an event that
    lies inside the box is removed by [exclude_events(endtime=t)] exactly
    when its origin time is earlier than [t]: the end time bounds the
    events from below, as a start time does. *)
Theorem exclude_events_endtime (ext : Externals) (coords : list float)
    (t : Z) (self : Inspector) (outside : list string)
    (event time : string) (rec : dict srcrcv_val) :
  events_outside ext coords None None None None None (Some t) self
  = Ok outside ->
  unique (dict_keys (srcrcv self)) = true ->
  In (event, rec) (srcrcv self) ->
  has_dot event = false ->
  outside_box coords rec = Ok false ->
  dict_get "time" rec = Some (VStr time) ->
  In event outside <-> (UTCDateTime ext time < t)%Z.
Proof.
  intros Hout Hu Hin Hdot Hbox Htime. apply unique_NoDup in Hu.
  rewrite (events_outside_In ext coords None None None None None (Some t)
             (srcrcv self) [] outside Hout event).
  assert (exclude_step ext coords None None None None None (Some t) []
                       (event, rec)
          = Ok (if (UTCDateTime ext time <? t)%Z then [event] else []))
    as Hstep.
  { unfold exclude_step. rewrite Hdot, Hbox. cbn [rbind truthy orb].
    unfold getitem. rewrite Htime. reflexivity. }
  split.
  - intros [[]|(rec' & Hin' & Hm)].
    assert (rec' = rec) as ->.
    { pose proof (dict_get_NoDup_In event rec _ Hu Hin) as E1.
      pose proof (dict_get_NoDup_In event rec' _ Hu Hin') as E2.
      congruence. }
    rewrite Hstep in Hm.
    destruct (Z.ltb_spec (UTCDateTime ext time) t); [assumption|discriminate].
  - intros Hlt. right. exists rec. split; [exact Hin|].
    rewrite Hstep. apply Z.ltb_lt in Hlt. now rewrite Hlt.
Qed.

Lemma exclude_events_endtime_witness :
  In "2018p130600" ["2018p130600"; "2019p738432"]
  <-> (UTCDateTime sample_ext "2018-02-18T07:43:48.0Z" < 5)%Z.
Proof.
  exact (exclude_events_endtime sample_ext
           [(-42)%float; (-40)%float; 170%float; 180%float] 5 sample_index
           _ "2018p130600" _ (sample_event 4.5)
           eq_refl eq_refl (or_introl eq_refl) eq_refl eq_refl eq_refl).
Defined.

(* ================================================================== *)
(** ** [event_stats] *)

Lemma dict_get_key {V} (k : string) (d : dict V) :
  In k (dict_keys d) ->
  exists v, dict_get k d = Some v /\ getitem k d = Ok v.
Proof.
  intros H. unfold getitem.
  destruct (dict_get k d) as [v|] eqn:E; [eauto|].
  apply dict_get_None in E. contradiction.
Qed.

Lemma component_loop_values (choice : string) (by_comp : dict window_rec) :
  valid_choice choice = true ->
  forall comps misfit,
    (forall c, In c comps -> In c (dict_keys by_comp)) ->
    let vals := flat_map (fun comp =>
                            match dict_get comp by_comp with
                            | Some w => window_field choice w
                            | None => []
                            end) comps in
    foldM (fun '(misfit, nwin) comp =>
             w <~ getitem comp by_comp ;;
             vals <~ window_getitem choice w ;;
             vals' <~ window_getitem choice w ;;
             Ok (misfit ++ vals, (nwin + Z.of_nat (length vals'))%Z))
          comps (misfit, Z.of_nat (length misfit))
    = Ok (misfit ++ vals, Z.of_nat (length (misfit ++ vals))).
Proof.
  intros Hv. induction comps as [|c comps IH]; intros misfit Hin; cbv zeta.
  - cbn [flat_map foldM]. now rewrite app_nil_r.
  - cbn [foldM flat_map].
    destruct (dict_get_key c by_comp (Hin c (or_introl eq_refl)))
      as (w & -> & ->).
    cbn [rbind]. rewrite (window_getitem_valid choice w Hv). cbn [rbind].
    replace (Z.of_nat (length misfit)
             + Z.of_nat (length (window_field choice w)))%Z
      with (Z.of_nat (length (misfit ++ window_field choice w)))
      by (rewrite length_app; lia).
    rewrite (IH (misfit ++ window_field choice w))
      by (intros c' Hc'; apply Hin; now right).
    cbv zeta. now rewrite <- app_assoc.
Qed.

Lemma station_loop_values (choice : string) (sta_code : option string)
    (by_sta : dict (dict window_rec)) :
  valid_choice choice = true ->
  forall stas misfit,
    (forall s, In s stas -> In s (dict_keys by_sta)) ->
    let vals :=
      flat_map (fun sta =>
                  if truthy_str sta_code && differs sta_code sta then []
                  else match dict_get sta by_sta with
                       | Some by_comp =>
                           flat_map (fun comp =>
                                       match dict_get comp by_comp with
                                       | Some w => window_field choice w
                                       | None => []
                                       end) (dict_keys by_comp)
                       | None => []
                       end) stas in
    foldM (fun acc sta =>
             if truthy_str sta_code && differs sta_code sta then Ok acc
             else
               by_comp <~ getitem sta by_sta ;;
               foldM (fun '(misfit, nwin) comp =>
                        w <~ getitem comp by_comp ;;
                        vals <~ window_getitem choice w ;;
                        vals' <~ window_getitem choice w ;;
                        Ok (misfit ++ vals,
                            (nwin + Z.of_nat (length vals'))%Z))
                     (dict_keys by_comp) acc)
          stas (misfit, Z.of_nat (length misfit))
    = Ok (misfit ++ vals, Z.of_nat (length (misfit ++ vals))).
Proof.
  intros Hv. induction stas as [|sta stas IH]; intros misfit Hin; cbv zeta.
  - cbn [flat_map foldM]. now rewrite app_nil_r.
  - cbn [foldM flat_map].
    destruct (truthy_str sta_code && differs sta_code sta).
    + cbn [rbind app]. apply IH. intros s Hs. apply Hin. now right.
    + destruct (dict_get_key sta by_sta (Hin sta (or_introl eq_refl)))
        as (by_comp & -> & ->).
      cbn [rbind].
      rewrite (component_loop_values choice by_comp Hv (dict_keys by_comp)
                 misfit (fun c H => H)).
      cbn [rbind]. cbv zeta.
      rewrite IH by (intros s Hs; apply Hin; now right).
      cbv zeta. now rewrite <- app_assoc.
Qed.

(** The loops over the stations and components of one event gather its
    values and count them. *)
Lemma event_measurements_values (choice : string) (sta_code : option string)
    (by_sta : dict (dict window_rec)) :
  valid_choice choice = true ->
  event_measurements choice sta_code by_sta
  = Ok (event_values choice sta_code by_sta,
        Z.of_nat (length (event_values choice sta_code by_sta))).
Proof.
  intros Hv. unfold event_measurements, event_values.
  exact (station_loop_values choice sta_code by_sta Hv (dict_keys by_sta) []
           (fun s H => H)).
Qed.

(** The loop of [event_stats] over the events. *)
Lemma event_loop_stats (choice : string) (sta_code eventid : option string)
    (misfits : dict (dict (dict window_rec))) :
  valid_choice choice = true ->
  forall events (zipped : list stat_t),
    (forall e, In e events -> In e (dict_keys misfits)) ->
    foldM (fun zipped event =>
             if truthy_str eventid && differs eventid event
             then Ok zipped
             else
               by_sta <~ getitem event misfits ;;
               '(misfit, nwin) <~
                 event_measurements choice sta_code by_sta ;;
               Ok (zipped ++ [(nwin, event, misfit)]))
          events zipped
    = Ok (zipped
          ++ map (event_stat choice sta_code misfits)
                 (filter (fun e => negb (truthy_str eventid
                                         && differs eventid e))
                         events)).
Proof.
  intros Hv. induction events as [|e events IH]; intros zipped Hin.
  - cbn [foldM filter map]. now rewrite app_nil_r.
  - cbn [foldM filter].
    destruct (truthy_str eventid && differs eventid e); cbn [negb].
    + cbn [rbind]. apply IH. intros e' He'. apply Hin. now right.
    + destruct (dict_get_key e misfits (Hin e (or_introl eq_refl)))
        as (by_sta & Hby & ->).
      cbn [rbind].
      rewrite (event_measurements_values choice sta_code by_sta Hv).
      cbn [rbind].
      rewrite IH by (intros e' He'; apply Hin; now right).
      cbn [map]. unfold event_stat at 2. rewrite Hby. cbv zeta.
      now rewrite <- app_assoc.
Qed.

Lemma stat_lt_le (a b : stat_t) :
  stat_lt b a = true -> (fst (fst b) <= fst (fst a))%Z.
Proof.
  destruct a as [[n1 e1] l1], b as [[n2 e2] l2]. cbn [stat_lt fst].
  destruct (Z.eqb_spec n2 n1); [lia|]. intros H. apply Z.ltb_lt in H. lia.
Qed.

Lemma stat_not_lt_le (a b : stat_t) :
  stat_lt b a = false -> (fst (fst a) <= fst (fst b))%Z.
Proof.
  destruct a as [[n1 e1] l1], b as [[n2 e2] l2]. cbn [stat_lt fst].
  destruct (Z.eqb_spec n2 n1); [lia|]. intros H. apply Z.ltb_ge in H. lia.
Qed.

Lemma sorted_stats (l : list stat_t) :
  StronglySorted Z.le (map (fun t => fst (fst t)) (sorted stat_lt l)).
Proof.
  pose proof (sorted_sorted stat_lt
                (fun a b : stat_t => (fst (fst a) <= fst (fst b))%Z)
                (fun _ => True)
                (fun x y _ _ H => stat_lt_le x y H)
                (fun x y _ _ H => stat_not_lt_le x y H)) as Hs.
  assert (StronglySorted
            (fun a b : stat_t => (fst (fst a) <= fst (fst b))%Z)
            (sorted stat_lt l)) as H.
  { apply Hs.
    - intros x y z _ _ _ H1 H2. lia.
    - apply Forall_forall. auto. }
  induction H as [|a l' H IH Hall]; cbn [map]; constructor; [exact IH|].
  apply Forall_map. exact Hall.
Qed.

(** X17.  When [sort_by_model("windows")] returns, for a (model, step)
    of its views, a measurement kind of the window records and a [print_choice] that
    returns a number for every list, [event_stats] returns when at least
    one event is selected.  Each triple it returns, read across its
    three lists, is the triple of one selected event: the event's id,
    the values of that kind that the window records of this event hold
    for the stations selected, in the order of the records, and the
    number of these values.  Every selected event has its triple, once,
    and the triples come in the order of their numbers, the smallest
    first. *)
Theorem event_stats_counts (self : Inspector) (model step choice : string)
    (sta_code eventid : option string)
    (print_choice : list float -> result float)
    (by_model : dict (dict (dict (dict (dict window_rec)))))
    (windows : dict (dict (dict window_rec))) :
  sort_by_model_windows self = Ok by_model ->
  lookup2 model step by_model = Some windows ->
  valid_choice choice = true ->
  (forall l, exists x, print_choice l = Ok x) ->
  let selected :=
    filter (fun e => negb (truthy_str eventid && differs eventid e))
           (dict_keys windows) in
  is_empty selected = false ->
  exists stats : list stat_t,
    event_stats model step choice sta_code eventid print_choice self
    = Ok (map (fun t => snd (fst t)) stats,
          map (fun t => fst (fst t)) stats,
          map snd stats)
    /\ Permutation stats (map (event_stat choice sta_code windows) selected)
    /\ StronglySorted Z.le (map (fun t => fst (fst t)) stats).
Proof.
  intros Hview Hlook Hv Hprint selected Hsel.
  pose proof (event_loop_stats choice sta_code eventid windows Hv
                (dict_keys windows) [] (fun e H => H)) as Hrun.
  cbn [app] in Hrun. fold selected in Hrun.
  set (zipped := map (event_stat choice sta_code windows) selected) in *.
  pose proof (sorted_perm stat_lt zipped) as Hperm.
  exists (sorted stat_lt zipped).
  split; [|split; [exact Hperm|apply sorted_stats]].
  unfold event_stats. rewrite Hview. cbn [rbind].
  unfold lookup2 in Hlook. unfold getitem at 1.
  destruct (dict_get model by_model) as [by_step|]; [|discriminate].
  cbn [rbind]. unfold getitem at 1. rewrite Hlook. cbn [rbind].
  unfold stat_t in Hrun. rewrite Hrun. cbn [rbind].
  assert (sorted stat_lt zipped <> []) as Hne.
  { intros E. rewrite E in Hperm. apply Permutation_nil in Hperm.
    unfold zipped in Hperm. apply map_eq_nil in Hperm.
    rewrite Hperm in Hsel. discriminate. }
  unfold unzip_stats.
  destruct (sorted stat_lt zipped) as [|t srt']; [congruence|].
  cbn [rbind].
  destruct (foldM_total (fun (_ : unit) msft =>
                           _ <~ print_choice msft ;; Ok tt)
                        (map snd (t :: srt'))) with (b := tt) as [[] Hp].
  { intros [] l _. destruct (Hprint l) as [x ->]. cbn [rbind]. eauto. }
  rewrite Hp. reflexivity.
Qed.

Lemma event_stats_counts_witness :
  exists stats : list stat_t,
    event_stats "m00" "s00" "cc_shift_sec" None None (fun _ => Ok 0%float)
                sample_index
    = Ok (map (fun t => snd (fst t)) stats,
          map (fun t => fst (fst t)) stats,
          map snd stats)
    /\ Permutation stats
         [(3%Z, "2018p130600", [1.5%float; 2%float; 3%float]);
          (0%Z, "2019p738432", [])]
    /\ StronglySorted Z.le (map (fun t => fst (fst t)) stats).
Proof.
  exact (event_stats_counts sample_index "m00" "s00" "cc_shift_sec"
           None None (fun _ => Ok 0%float) _ _ eq_refl eq_refl eq_refl
           (fun l => ex_intro _ 0%float eq_refl) eq_refl).
Defined.

(** X18.  When no event is selected, because the view has no event or
    none has the id asked for, [event_stats] raises [ValueError] where
    it takes the sorted triples apart. *)
Theorem event_stats_nothing_selected (self : Inspector)
    (model step choice : string) (sta_code eventid : option string)
    (print_choice : list float -> result float)
    (by_model : dict (dict (dict (dict (dict window_rec)))))
    (windows : dict (dict (dict window_rec))) :
  sort_by_model_windows self = Ok by_model ->
  lookup2 model step by_model = Some windows ->
  is_empty (filter (fun e => negb (truthy_str eventid && differs eventid e))
                   (dict_keys windows)) = true ->
  event_stats model step choice sta_code eventid print_choice self
  = Raise ValueError.
Proof.
  intros Hview Hlook Hsel.
  unfold event_stats. rewrite Hview. cbn [rbind].
  unfold lookup2 in Hlook. unfold getitem at 1.
  destruct (dict_get model by_model) as [by_step|]; [|discriminate].
  cbn [rbind]. unfold getitem at 1. rewrite Hlook. cbn [rbind].
  rewrite foldM_skip; [reflexivity|].
  intros e He.
  destruct (truthy_str eventid && differs eventid e) eqn:E; [reflexivity|].
  exfalso.
  assert (In e (filter (fun e => negb (truthy_str eventid
                                       && differs eventid e))
                       (dict_keys windows))) as Hin
      by (apply filter_In; split; [exact He|now rewrite E]).
  destruct (filter _ (dict_keys windows)); [destruct Hin|discriminate].
Qed.

Lemma event_stats_nothing_selected_witness :
  event_stats "m00" "s00" "cc_shift_sec" None (Some "2020p000000")
              (fun _ => Ok 0%float) sample_index
  = Raise ValueError.
Proof.
  exact (event_stats_nothing_selected sample_index "m00" "s00" "cc_shift_sec"
           None (Some "2020p000000") (fun _ => Ok 0%float) _ _
           eq_refl eq_refl eq_refl).
Defined.

(* ================================================================== *)
(** ** [__init__] *)

Lemma load_saved (tag path : string) (self : Inspector) (fs : files)
    (utm : Z) :
  endswith tag ".json" = false ->
  wf_index self = true ->
  exists fs' self',
    save tag path self fs = Ok fs'
    /\ load tag path fs' (new_Inspector utm) = (self', Ok 1%Z)
    /\ srcrcv_eqv (srcrcv self') (srcrcv self)
    /\ misfits_eqv (misfits self') (misfits self)
    /\ windows_eqv (windows self') (windows self).
Proof.
  intros Htag Hwf. unfold wf_index in Hwf.
  apply andb_prop in Hwf. destruct Hwf as [Hwf Hw].
  apply andb_prop in Hwf. destruct Hwf as [Hs Hm].
  destruct (srcrcv_roundtrip _ Hs) as (s' & Es & Rs).
  destruct (misfits_roundtrip _ Hm) as (m' & Em & Rm).
  destruct (windows_roundtrip _ Hw) as (w' & Ew & Rw).
  eexists. exists (with_windows w' (with_misfits m'
                     (with_srcrcv s' (new_Inspector utm)))).
  split; [apply save_document|].
  split; [|split; [exact Rs|split; [exact Rm|exact Rw]]].
  unfold load. rewrite Htag. rewrite dict_get_set_same.
  cbn [filter no_underscore vars_self str_contains Ascii.eqb Bool.eqb
       negb orb for_each].
  unfold bind, lift, json_getitem, from_items, getitem, setattr.
  cbn [fold_left dict_set dict_get String.eqb Ascii.eqb Bool.eqb].
  rewrite Es. cbn [fold_left dict_set dict_get String.eqb Ascii.eqb Bool.eqb].
  rewrite Em. cbn [fold_left dict_set dict_get String.eqb Ascii.eqb Bool.eqb].
  rewrite Ew. reflexivity.
Qed.

Lemma dict_eqv_nonempty {V} (R : V -> V -> Prop) (d1 d2 : dict V) :
  dict_eqv R d1 d2 -> d2 <> [] -> d1 <> [].
Proof.
  intros H Hne ->. destruct d2 as [|[k v] d2]; [congruence|].
  specialize (H k). cbn [dict_get] in H. now rewrite String.eqb_refl in H.
Qed.

(** X19.  An Inspector with at least one misfit record (its
    dictionaries holding each key once, as every Python dict does:
    [wf_index]), saved in the
    working directory under a tag that does not end in [".json"] and
    made again with [Inspector(tag=...)], comes back with three mappings
    equal to the saved ones and with its derived attributes set from
    them: the constructor returns, the events and the stations are the
    keys of the loaded [srcrcv] without and with a dot, and the models
    and the summary are there.  The tag takes precedence: the path and
    the three flags play no part. *)
Theorem init_from_saved (ext : Externals) (glob : string -> list string)
    (tag : string) (path : option string) (misfits_ srcrcv_ windows_ : bool)
    (self : Inspector) (fs : files) (utm : Z) :
  endswith tag ".json" = false ->
  wf_index self = true ->
  is_empty (misfits self) = false ->
  exists fs' self',
    save tag "./" self fs = Ok fs'
    /\ __init__ ext fs' glob (Some tag) path misfits_ srcrcv_ windows_ utm
       = (self', Ok tt)
    /\ srcrcv_eqv (srcrcv self') (srcrcv self)
    /\ misfits_eqv (misfits self') (misfits self)
    /\ windows_eqv (windows self') (windows self)
    /\ _events self'
       = Some (filter (fun k => negb (has_dot k)) (dict_keys (srcrcv self')))
    /\ _stations self' = Some (filter has_dot (dict_keys (srcrcv self')))
    /\ _models self' <> None
    /\ _str self' <> None.
Proof.
  intros Htag Hwf Hne.
  destruct (load_saved tag "./" self fs utm Htag Hwf)
    as (fs' & s1 & Hsave & Hload & Rs & Rm & Rw).
  assert (misfits s1 <> []) as Hne1.
  { apply (dict_eqv_nonempty _ _ _ Rm). now destruct (misfits self). }
  pose proof (get_info_returns s1 Hne1) as Hret.
  destruct (get_info_sets s1 Hret) as (ev & st & mo & Hev & Hst & Hmo).
  destruct (get_info_mappings s1) as (G1 & G2 & G3).
  destruct (get_info_events_stations s1) as (G4 & G5 & _).
  destruct (_get_info s1) as [s2 r2] eqn:Einfo. cbn [fst snd] in *.
  subst r2.
  destruct (get_str_defined ext s2 ev st mo Hev Hst Hmo) as [str Hstr].
  exists fs', (with_str str s2).
  split; [exact Hsave|]. split.
  - unfold __init__. unfold bind at 1. rewrite Hload.
    cbn [Z.eqb]. unfold bind. rewrite Einfo. exact Hstr.
  - cbn [srcrcv misfits windows _events _stations _models _str with_str].
    rewrite G1, G2, G3, G4, G5, Hmo.
    repeat split; try assumption; discriminate.
Qed.

Lemma init_from_saved_witness :
  exists fs' self',
    save "run" "./" sample_index [] = Ok fs'
    /\ __init__ sample_ext fs' (fun _ => []) (Some "run") None
                true true true (-60) = (self', Ok tt)
    /\ _events self'
       = Some (filter (fun k => negb (has_dot k)) (dict_keys (srcrcv self'))).
Proof.
  destruct (init_from_saved sample_ext (fun _ => []) "run" None
              true true true sample_index [] (-60) eq_refl eq_refl eq_refl)
    as (fs' & self' & H1 & H2 & _ & _ & _ & H3 & _).
  exists fs', self'. repeat split; assumption.
Defined.

Lemma append_all_app (ext : Externals) (xs ys : list string)
    (w s m : bool) (status : Z) (self : Inspector) :
  append_all ext (xs ++ ys) w s m status self
  = (status' <- append_all ext xs w s m status ;;
     append_all ext ys w s m status') self.
Proof.
  revert status self. induction xs as [|x xs IH]; intros status self.
  - reflexivity.
  - cbn [app append_all]. unfold bind.
    destruct (append ext x w s m self) as [s1 [st|e]]; [|reflexivity].
    rewrite IH. reflexivity.
Qed.

Lemma append_all_derived (ext : Externals) (xs : list string)
    (w s m : bool) (self0 : Inspector) :
  forall status,
    keeps (fun self => derived self = derived self0)
          (append_all ext xs w s m status).
Proof.
  induction xs as [|x xs IH]; intros status; cbn [append_all].
  - apply keeps_ret.
  - apply keeps_bind; [|intros st; apply IH].
    apply append_keeps. intros ds _. split; [|split].
    + now apply rest_keeps_windows.
    + now apply get_srcrcv_keeps_rest.
    + now apply rest_keeps_misfits.
Qed.



(* ================================================================== *)
(** ** [get_srcrcv]: the records written *)

Lemma for_each_inv {S A} (I : list A -> S -> Prop) (body : A -> M S unit)
    (total : list A) :
  (forall done x todo s,
      total = done ++ x :: todo -> I done s ->
      exists s', body x s = (s', Ok tt) /\ I (done ++ [x]) s') ->
  forall todo done s,
    total = done ++ todo -> I done s ->
    exists s', for_each todo body s = (s', Ok tt) /\ I total s'.
Proof.
  intros Hstep. induction todo as [|x todo IH]; intros done s E HI.
  - exists s. split; [reflexivity|]. rewrite app_nil_r in E. now subst.
  - destruct (Hstep done x todo s E HI) as (s1 & Hrun & HI1).
    destruct (IH (done ++ [x]) s1) as (s' & Hrun' & HI').
    + now rewrite <- app_assoc.
    + exact HI1.
    + exists s'. split; [|exact HI'].
      cbn [for_each]. unfold bind. now rewrite Hrun.
Qed.

Lemma has_dot_neq (a b : string) :
  has_dot a = true -> has_dot b = false -> a <> b.
Proof. intros Ha Hb ->. congruence. Qed.

Lemma coord_of_float (key : string) (rec : dict srcrcv_val) (x : float) :
  coord_of key rec = Ok x -> dict_get key rec = Some (VFloat x).
Proof.
  unfold coord_of, getitem. destruct (dict_get key rec) as [[f|s|d]|];
    cbn; congruence.
Qed.

(** A link made stays when a later pass writes another station. *)
Lemma linked_kept (ext : Externals) (lat lon : float) (eid sta : string)
    (info : Coordinates) (before d d' : srcrcv_t)
    (rec rec' : dict srcrcv_val) :
  dict_get sta d' = dict_get sta d ->
  dict_get eid d = Some rec -> dict_get eid d' = Some rec' ->
  dict_get sta rec' = dict_get sta rec ->
  linked ext lat lon eid sta info before d ->
  linked ext lat lon eid sta info before d'.
Proof.
  intros Hsta He He' Hrec (lat2 & lon2 & H1 & H2 & H3 & H4).
  exists lat2, lon2. unfold lookup2 in *.
  rewrite Hsta, He'. rewrite He in H4. rewrite Hrec. auto.
Qed.

(** X25.  For a dataset with an event whose id has no dot and with
    stations whose ids have one, each listed once, [get_srcrcv] returns
    when the stations the Inspector already knows have numbers as
    coordinates.  It stores the latitude, longitude, depth, time and
    magnitude of the first event under the event's id, and it links the
    event to every station of the dataset.  A station not known before
    gets the coordinates of the dataset; a known one keeps its record,
    and the distance and backazimuth are computed from it. *)
Theorem get_srcrcv_records (ext : Externals) (ds : ASDFDataSet)
    (self : Inspector) (ev : Event) (rest : list Event) :
  ds_events ds = ev :: rest ->
  has_dot (event_id ext ds) = false ->
  forallb has_dot (dict_keys (get_all_coordinates ds)) = true ->
  unique (dict_keys (get_all_coordinates ds)) = true ->
  located (dict_keys (get_all_coordinates ds)) (srcrcv self) = true ->
  let eid := event_id ext ds in
  let o := preferred_origin ev in
  exists self',
    get_srcrcv ext ds self = (self', Ok tt)
    /\ lookup2 eid "lat" (srcrcv self') = Some (VFloat (latitude o))
    /\ lookup2 eid "lon" (srcrcv self') = Some (VFloat (longitude o))
    /\ lookup2 eid "depth_m" (srcrcv self') = Some (VFloat (depth o))
    /\ lookup2 eid "time" (srcrcv self') = Some (VStr (time o))
    /\ lookup2 eid "mag" (srcrcv self')
       = Some (VFloat (preferred_magnitude ev))
    /\ forall sta info,
        In (sta, info) (get_all_coordinates ds) ->
        linked ext (latitude o) (longitude o) eid sta info
               (srcrcv self) (srcrcv self').
Proof.
  intros Hev Heid Hdots Huniq Hloc eid o.
  apply unique_NoDup in Huniq. rewrite forallb_forall in Hdots.
  unfold located in Hloc. rewrite forallb_forall in Hloc.
  unfold get_srcrcv. cbv zeta. rewrite Hev. fold eid.
  unfold bind at 1. cbn [lift first]. unfold bind at 1. cbn [read].
  fold o. destruct (lonlat_utm ext _ _ (_utm self)) as [ev_x ev_y].
  unfold bind at 1. unfold on_srcrcv at 1, setitem at 1, modify.
  match goal with
  | |- context [for_each _ ?b ?s] => set (body := b); set (s0 := s)
  end.
  set (I := fun (done : dict Coordinates) (s : Inspector) =>
              (exists rec,
                  dict_get eid (srcrcv s) = Some rec
                  /\ dict_get "lat" rec = Some (VFloat (latitude o))
                  /\ dict_get "lon" rec = Some (VFloat (longitude o))
                  /\ dict_get "depth_m" rec = Some (VFloat (depth o))
                  /\ dict_get "time" rec = Some (VStr (time o))
                  /\ dict_get "mag" rec
                     = Some (VFloat (preferred_magnitude ev)))
              /\ (forall sta, has_dot sta = true ->
                              ~ In sta (dict_keys done) ->
                              dict_get sta (srcrcv s)
                              = dict_get sta (srcrcv self))
              /\ (forall sta info, In (sta, info) done ->
                    linked ext (latitude o) (longitude o) eid sta info
                           (srcrcv self) (srcrcv s))).
  assert (I [] s0) as HI0.
  { split; [|split].
    - eexists. unfold s0. cbn [srcrcv with_srcrcv].
      rewrite dict_get_set_same. repeat split.
    - intros sta Hdot _. unfold s0. cbn [srcrcv with_srcrcv].
      apply dict_get_set_other. now apply has_dot_neq.
    - intros sta info []. }
  destruct (for_each_inv I body (get_all_coordinates ds)) with
      (todo := get_all_coordinates ds) (done := @nil (string * Coordinates))
      (s := s0) as (s' & Hrun & (Hrec & _ & Hlinks)); [|reflexivity|exact HI0|].
  2:{ exists s'. split; [exact Hrun|].
      destruct Hrec as (rec & Hr & H1 & H2 & H3 & H4 & H5).
      unfold lookup2. rewrite Hr. repeat split; assumption. }
  clear HI0. intros done [sta info] todo s Etotal (Hrec & Hother & Hlinks).
  destruct Hrec as (rec & Hr & H1 & H2 & H3 & H4 & H5).
  assert (In sta (dict_keys (get_all_coordinates ds))) as Hin.
  { rewrite Etotal. unfold dict_keys. rewrite map_app. apply in_or_app.
    right. now left. }
  pose proof (Hdots sta Hin) as Hdot.
  assert (~ In sta (dict_keys done)) as Hfresh.
  { rewrite Etotal in Huniq. unfold dict_keys in *. rewrite map_app in Huniq.
    cbn [map fst] in Huniq. apply NoDup_remove_2 in Huniq.
    intros H. apply Huniq. apply in_or_app. now left. }
  assert (sta <> eid) as Hne by (now apply has_dot_neq).
  assert (sta <> "lat" /\ sta <> "lon" /\ sta <> "depth_m" /\ sta <> "time"
          /\ sta <> "mag") as (N1 & N2 & N3 & N4 & N5)
      by (repeat split; apply has_dot_neq; auto).
  pose proof (Hother sta Hdot Hfresh) as Hsame.
  pose proof (Hloc sta Hin) as Hlocated.
  set (link := fun lat2 lon2 =>
                VDict [("dist_km",
                        (fst (fst (gps2dist_azimuth ext (latitude o)
                                     (longitude o) lat2 lon2))
                         * 0.001)%float);
                       ("baz", snd (gps2dist_azimuth ext (latitude o)
                                      (longitude o) lat2 lon2))]).
  assert (forall s1 srec lat2 lon2,
             dict_get eid (srcrcv s1) = Some rec ->
             dict_get sta (srcrcv s1) = Some srec ->
             dict_get "lat" srec = Some (VFloat lat2) ->
             dict_get "lon" srec = Some (VFloat lon2) ->
             body (sta, info) s1
             = (with_srcrcv (dict_set eid (dict_set sta (link lat2 lon2) rec)
                                      (srcrcv s1)) s1, Ok tt)) as Htail.
  { intros s1 srec lat2 lon2 Hr1 Hs1 L1 L2.
    unfold body, bind, read, getitem. unfold dict_in. rewrite Hs1.
    cbn [negb when ret]. rewrite Hr1. cbn [rbind]. rewrite H1, H2.
    cbn [rbind as_float]. rewrite Hs1. cbn [rbind]. rewrite L1, L2.
    cbn [rbind as_float]. unfold link.
    destruct (gps2dist_azimuth ext (latitude o) (longitude o) lat2 lon2)
      as [[gcd az] baz].
    unfold on_srcrcv, zoom, setitem, modify. rewrite Hr1. reflexivity. }
  assert (forall s1 srec lat2 lon2,
             dict_get eid (srcrcv s1) = Some rec ->
             dict_get sta (srcrcv s1) = Some srec ->
             dict_get "lat" srec = Some (VFloat lat2) ->
             dict_get "lon" srec = Some (VFloat lon2) ->
             (forall k, k <> sta ->
                        dict_get k (srcrcv s1) = dict_get k (srcrcv s)) ->
             (dict_in sta (srcrcv self) = false ->
              lat2 = coord_latitude info /\ lon2 = coord_longitude info) ->
             I (done ++ [(sta, info)])
               (with_srcrcv (dict_set eid (dict_set sta (link lat2 lon2) rec)
                                      (srcrcv s1)) s1)) as Hinv.
  { intros s1 srec lat2 lon2 Hr1 Hs1 L1 L2 Hk Hnew.
    unfold I. cbn [srcrcv with_srcrcv]. split; [|split].
    - exists (dict_set sta (link lat2 lon2) rec).
      rewrite dict_get_set_same.
      rewrite !dict_get_set_other by (intros E; symmetry in E; auto).
      repeat split; assumption.
    - intros sta' Hdot' Hnot.
      assert (sta' <> sta) as Hne'.
      { intros ->. apply Hnot. unfold dict_keys. rewrite map_app.
        apply in_or_app. right. now left. }
      rewrite dict_get_set_other by (now apply has_dot_neq).
      rewrite Hk by exact Hne'. apply Hother; [exact Hdot'|].
      intros H. apply Hnot. unfold dict_keys in *. rewrite map_app.
      apply in_or_app. now left.
    - intros sta0 info0 Hin0. apply in_app_or in Hin0.
      destruct Hin0 as [Hin0|[[= <- <-]|[]]].
      + assert (sta0 <> sta) as Hne0.
        { intros ->. apply Hfresh. apply (in_map fst) in Hin0. exact Hin0. }
        assert (has_dot sta0 = true) as Hdot0.
        { apply Hdots. rewrite Etotal. unfold dict_keys. rewrite map_app.
          apply in_or_app. left. apply (in_map fst) in Hin0. exact Hin0. }
        apply (linked_kept ext _ _ eid sta0 info0 (srcrcv self) (srcrcv s)
                 _ rec (dict_set sta (link lat2 lon2) rec)).
        * rewrite dict_get_set_other by (now apply has_dot_neq).
          now apply Hk.
        * exact Hr.
        * apply dict_get_set_same.
        * now apply dict_get_set_other.
        * now apply Hlinks.
      + exists lat2, lon2. unfold lookup2.
        rewrite dict_get_set_same.
        rewrite (dict_get_set_other sta eid) by exact Hne.
        rewrite Hs1, dict_get_set_same.
        split; [exact L1|split; [exact L2|split; [exact Hnew|reflexivity]]]. }
  destruct (dict_get sta (srcrcv self)) as [srec|] eqn:Eself.
  - destruct (coord_of "lat" srec) as [lat2|] eqn:L1; [|discriminate].
    destruct (coord_of "lon" srec) as [lon2|] eqn:L2; [|discriminate].
    apply coord_of_float in L1, L2.
    eexists. split.
    + apply (Htail s srec lat2 lon2); assumption.
    + apply (Hinv s srec lat2 lon2); try assumption; [reflexivity|].
      unfold dict_in. rewrite Eself. discriminate.
  - set (new := [("lat", VFloat (coord_latitude info));
                 ("lon", VFloat (coord_longitude info));
                 ("elv_m", VFloat (elevation_in_m info));
                 ("utm_x", VFloat (fst (lonlat_utm ext (coord_longitude info)
                                          (coord_latitude info) (_utm self))));
                 ("utm_y", VFloat (snd (lonlat_utm ext (coord_longitude info)
                                          (coord_latitude info) (_utm self))))]).
    set (s1 := with_srcrcv (dict_set sta new (srcrcv s)) s).
    assert (body (sta, info) s = body (sta, info) s1) as Ebody.
    { unfold body, bind, read. unfold dict_in at 1 2.
      rewrite Hsame. unfold s1 at 1. cbn [srcrcv with_srcrcv].
      rewrite dict_get_set_same. cbn [negb when ret].
      unfold new.
      destruct (lonlat_utm ext (coord_longitude info) (coord_latitude info)
                           (_utm self)) as [sta_x sta_y].
      reflexivity. }
    eexists. split.
    + rewrite Ebody.
      apply (Htail s1 new (coord_latitude info) (coord_longitude info));
        unfold s1; cbn [srcrcv with_srcrcv];
        [rewrite dict_get_set_other by (intros E; symmetry in E; auto);
         exact Hr
        |apply dict_get_set_same|reflexivity|reflexivity].
    + apply (Hinv s1 new (coord_latitude info) (coord_longitude info));
        unfold s1; cbn [srcrcv with_srcrcv].
      * rewrite dict_get_set_other by (intros E; symmetry in E; auto).
        exact Hr.
      * apply dict_get_set_same.
      * reflexivity.
      * reflexivity.
      * intros k Hk. now apply dict_get_set_other.
      * auto.
Qed.

Lemma get_srcrcv_records_witness :
  exists self',
    get_srcrcv reading_ext sample_full_ds sample_index = (self', Ok tt)
    /\ lookup2 "2018p130600" "mag" (srcrcv self') = Some (VFloat 5)
    /\ linked reading_ext (-41.5) 174 "2018p130600" "NZ.KNZ"
              {| coord_latitude := (-39.5)%float;
                 coord_longitude := 177.5%float;
                 elevation_in_m := 20%float |}
              (srcrcv sample_index) (srcrcv self').
Proof.
  destruct (get_srcrcv_records reading_ext sample_full_ds sample_index
              _ _ eq_refl eq_refl eq_refl eq_refl eq_refl)
    as (self' & Hrun & _ & _ & _ & _ & Hmag & Hlinks).
  exists self'. split; [exact Hrun|]. split; [exact Hmag|].
  apply Hlinks. right. left. reflexivity.
Defined.

(* ================================================================== *)
(** ** [get_windows]: the records written *)

Lemma extend_window_cons (r : window_rec) (w : MisfitWindow)
    (ws : list MisfitWindow) :
  extend_window (extend_window r [w]) ws = extend_window r (w :: ws).
Proof.
  unfold extend_window. cbn [cc_shift_sec dlna weight max_cc length_s
                             rel_start rel_end map].
  now rewrite <- !app_assoc.
Qed.

Lemma lookup2_set {X} (s c s' c' : string) (x : X) (d : dict (dict X)) :
  lookup2 s c (dict_set s' (dict_set c' x
                              match dict_get s' d with
                              | Some chans => chans
                              | None => []
                              end) d)
  = if (s =? s') && (c =? c') then Some x else lookup2 s c d.
Proof.
  unfold lookup2. rewrite dict_get_set.
  destruct (String.eqb_spec s s') as [->|Hs]; cbn [andb]; [|reflexivity].
  rewrite dict_get_set.
  destruct (String.eqb_spec c c') as [->|Hc]; [reflexivity|].
  now destruct (dict_get s' d).
Qed.

(** One window filed. *)
Lemma add_window_step (w : MisfitWindow) (s' c' : string)
    (win : dict (dict window_rec)) :
  channel_of w = Some (s', c') ->
  let chans := match dict_get s' win with
               | Some chans => chans
               | None => []
               end in
  let r := match dict_get c' chans with
           | Some r => r
           | None => empty_window
           end in
  add_window w win
  = (dict_set s' (dict_set c' (extend_window r [w]) chans) win, Ok tt).
Proof.
  unfold channel_of, add_window.
  destruct (split_on "." (channel_id w))
    as [|net [|sta [|loc [|cha [|x l]]]]]; try discriminate.
  intros [= <- <-]. cbv zeta.
  unfold bind, zoom, modify, dict_in. unfold dict in *.
  cbn [String.append].
  set (sid := (net ++ String "." sta)%string).
  destruct (dict_get sid win) as [chans|] eqn:Es.
  - rewrite Es.
    destruct (dict_get cha chans) as [r|] eqn:Ec.
    + rewrite dict_get_set_same, Ec. now rewrite !dict_set_set.
    + rewrite !dict_get_set_same. now rewrite !dict_set_set.
  - rewrite !dict_get_set_same. cbn [dict_get dict_set].
    rewrite !dict_get_set_same. cbn [dict_get dict_set].
    rewrite ?String.eqb_refl. now rewrite !dict_set_set.
Qed.

Lemma lookup_or_empty (s c : string) (win : dict (dict window_rec)) :
  match dict_get c match dict_get s win with
                   | Some chans => chans
                   | None => []
                   end with
  | Some r => r
  | None => empty_window
  end
  = match lookup2 s c win with
    | Some r => r
    | None => empty_window
    end.
Proof. unfold lookup2. now destruct (dict_get s win). Qed.

(** The loop over the windows of one step. *)
Lemma add_window_loop (wins : list MisfitWindow) :
  forallb (fun w => match channel_of w with
                    | Some _ => true
                    | None => false
                    end) wins = true ->
  forall win,
  exists win',
    for_each wins add_window win = (win', Ok tt)
    /\ forall s c,
        lookup2 s c win'
        = match windows_of s c wins with
          | [] => lookup2 s c win
          | ws => Some (extend_window
                          match lookup2 s c win with
                          | Some r => r
                          | None => empty_window
                          end ws)
          end.
Proof.
  induction wins as [|w wins IH]; intros Hwf win.
  - exists win. split; [reflexivity|]. intros s c. reflexivity.
  - cbn [forallb] in Hwf. apply andb_prop in Hwf. destruct Hwf as [Hw Hwf].
    destruct (channel_of w) as [[s' c']|] eqn:Ech; [|discriminate].
    pose proof (add_window_step w s' c' win Ech) as Hstep. cbv zeta in Hstep.
    rewrite lookup_or_empty in Hstep.
    destruct (IH Hwf (fst (add_window w win))) as (win' & Hrun & Hget).
    exists win'. split.
    + cbn [for_each]. unfold bind. rewrite Hstep in *. exact Hrun.
    + intros s c. rewrite Hget. rewrite Hstep. cbn [fst].
      rewrite lookup2_set.
      unfold windows_of. cbn [filter]. rewrite Ech.
      rewrite (String.eqb_sym s' s), (String.eqb_sym c' c).
      destruct ((s =? s') && (c =? c')) eqn:E.
      * apply andb_prop in E. destruct E as [Es Ec].
        apply String.eqb_eq in Es, Ec. subst s' c'.
        fold (windows_of s c wins).
        destruct (windows_of s c wins) as [|w1 ws]; [reflexivity|].
        now rewrite extend_window_cons.
      * reflexivity.
Qed.

(** ** Loops on a part of a mapping *)

Lemma zoom_run {V A} (k : string) (m : M V A) (d : dict V) v v' r :
  dict_get k d = Some v -> m v = (v', r) ->
  zoom k m d = (dict_set k v' d, r).
Proof. intros Hd Hm. unfold zoom. now rewrite Hd, Hm. Qed.

Lemma zoom_loop {V A} (k : string) (body : A -> M (dict V) unit)
    (g : A -> M V unit) (xs : list A) :
  (forall x d v, In x xs -> dict_get k d = Some v ->
                 body x d = zoom k (g x) d) ->
  forall d v, dict_get k d = Some v ->
              for_each xs body d = zoom k (for_each xs g) d.
Proof.
  intros Hbody d v Hd. rewrite zoom_focus.
  apply (focus_for_each (getitem k) (dict_set k) body g xs (lens_key k))
    with (v := v).
  - intros x d0 v0 Hx H0. rewrite <- zoom_focus.
    unfold getitem in H0. destruct (dict_get k d0) as [v1|] eqn:E;
      [|discriminate].
    now apply (Hbody x d0 v1).
  - unfold getitem. now rewrite Hd.
Qed.

(** [d[k] = {}] followed by a loop that fills [d[k]]. *)
Lemma fill_key {V A} (k : string) (body : A -> M (dict (dict V)) unit)
    (g : A -> M (dict V) unit) (xs : list A) (d : dict (dict V)) table :
  (forall x d v, In x xs -> dict_get k d = Some v ->
                 body x d = zoom k (g x) d) ->
  for_each xs g [] = (table, Ok tt) ->
  (setitem k [] ;; for_each xs body) d = (dict_set k table d, Ok tt).
Proof.
  intros Hbody Hrun. unfold bind, setitem, modify.
  rewrite (zoom_loop k body g xs Hbody (dict_set k [] d) []
             (dict_get_set_same k [] d)).
  rewrite <- (dict_set_set k table [] d).
  apply zoom_run with (v := []); [apply dict_get_set_same|exact Hrun].
Qed.

Lemma zoom_keeps_key {V A} (k : string) (m : M V A) (d : dict V) :
  dict_in k d = true -> dict_in k (fst (zoom k m d)) = true.
Proof.
  unfold dict_in, zoom. destruct (dict_get k d) as [v|]; [|discriminate].
  intros _. destruct (m v) as [v' r]. cbn [fst].
  now rewrite dict_get_set_same.
Qed.

(** As [zoom_loop], for bodies that are statements on [d[k]] only while
    [d[k]] satisfies [P], which the statements keep. *)
Lemma zoom_loop_inv {V A} (k : string) (P : V -> Prop)
    (body : A -> M (dict V) unit) (g : A -> M V unit) (xs : list A) :
  (forall x v, P v -> P (fst (g x v))) ->
  (forall x d v, In x xs -> dict_get k d = Some v -> P v ->
                 body x d = zoom k (g x) d) ->
  forall d v, dict_get k d = Some v -> P v ->
              for_each xs body d = zoom k (for_each xs g) d.
Proof.
  intros Hg. induction xs as [|x xs IH]; intros Hbody d v Hd HP.
  - cbn [for_each]. unfold zoom, ret. rewrite Hd.
    now rewrite (dict_set_same k v d Hd).
  - cbn [for_each]. unfold bind at 1.
    rewrite (Hbody x d v (or_introl eq_refl) Hd HP).
    unfold zoom. rewrite Hd. unfold bind.
    pose proof (Hg x v HP) as HP1.
    destruct (g x v) as [v1 [[]|e]]; [|reflexivity].
    cbn [fst] in HP1.
    rewrite (IH (fun y d0 v0 Hy => Hbody y d0 v0 (or_intror Hy))
                (dict_set k v1 d) v1 (dict_get_set_same k v1 d) HP1).
    unfold zoom. rewrite dict_get_set_same.
    destruct (for_each xs g v1) as [v2 r2]. now rewrite dict_set_set.
Qed.

(** [d[k0][k] = {}] followed by a loop that fills [d[k0][k]]. *)
Lemma zoom_fill_key {V A} (k0 k : string)
    (body : A -> M (dict (dict (dict V))) unit)
    (g : A -> M (dict V) unit) (xs : list A)
    (d : dict (dict (dict V))) v table :
  dict_get k0 d = Some v ->
  (forall x d v, In x xs -> dict_get k0 d = Some v -> dict_in k v = true ->
                 body x d = zoom k0 (zoom k (g x)) d) ->
  for_each xs g [] = (table, Ok tt) ->
  (zoom k0 (setitem k []) ;; for_each xs body) d
  = zoom k0 (setitem k table) d.
Proof.
  intros Hd Hbody Hrun. unfold bind at 1.
  rewrite (zoom_run k0 (setitem k []) d v (dict_set k [] v) (Ok tt) Hd eq_refl).
  rewrite (zoom_loop_inv k0 (fun v => dict_in k v = true) body
             (fun x => zoom k (g x)) xs
             (fun x v0 => zoom_keeps_key k (g x) v0) Hbody
             _ _ (dict_get_set_same k0 _ d)).
  2:{ unfold dict_in. now rewrite dict_get_set_same. }
  rewrite (zoom_run k0 (setitem k table) d v (dict_set k table v)
             (Ok tt) Hd eq_refl).
  rewrite <- (dict_set_set k0 (dict_set k table v) (dict_set k [] v) d).
  apply zoom_run with (v := dict_set k [] v); [apply dict_get_set_same|].
  rewrite (zoom_loop k (fun x => zoom k (g x)) g xs
             (fun x d0 v0 _ _ => eq_refl) (dict_set k [] v) []
             (dict_get_set_same k [] v)).
  rewrite <- (dict_set_set k table [] v).
  apply zoom_run with (v := []); [apply dict_get_set_same|exact Hrun].
Qed.

(** The same under two keys. *)
Lemma zoom2_fill_key {V A} (k0 k1 k : string)
    (body : A -> M (dict (dict (dict (dict V)))) unit)
    (g : A -> M (dict V) unit) (xs : list A)
    (d : dict (dict (dict (dict V)))) v table :
  dict_get k0 d = Some v -> dict_in k1 v = true ->
  (forall x d, In x xs -> body x d = zoom k0 (zoom k1 (zoom k (g x))) d) ->
  for_each xs g [] = (table, Ok tt) ->
  (zoom k0 (zoom k1 (setitem k [])) ;; for_each xs body) d
  = zoom k0 (zoom k1 (setitem k table)) d.
Proof.
  intros Hd Hin Hbody Hrun. unfold dict_in in Hin.
  destruct (dict_get k1 v) as [v1|] eqn:Hv; [|discriminate]. clear Hin.
  assert (forall t, zoom k0 (zoom k1 (setitem k t)) d
                    = (dict_set k0 (dict_set k1 (dict_set k t v1) v) d, Ok tt))
    as Hset.
  { intros t. apply zoom_run with (v := v); [exact Hd|].
    now apply zoom_run with (v := v1). }
  unfold bind at 1. rewrite !Hset.
  rewrite (zoom_loop k0 body (fun x => zoom k1 (zoom k (g x))) xs
             (fun x d0 v0 Hx _ => Hbody x d0 Hx)
             _ _ (dict_get_set_same k0 _ d)).
  rewrite <- (dict_set_set k0 (dict_set k1 (dict_set k table v1) v)
                (dict_set k1 (dict_set k [] v1) v) d).
  apply zoom_run with (v := dict_set k1 (dict_set k [] v1) v);
    [apply dict_get_set_same|].
  rewrite (zoom_loop k1 (fun x => zoom k1 (zoom k (g x)))
             (fun x => zoom k (g x)) xs (fun x d0 v0 _ _ => eq_refl)
             _ _ (dict_get_set_same k1 _ v)).
  rewrite <- (dict_set_set k1 (dict_set k table v1) (dict_set k [] v1) v).
  apply zoom_run with (v := dict_set k [] v1); [apply dict_get_set_same|].
  rewrite (zoom_loop k (fun x => zoom k (g x)) g xs
             (fun x d0 v0 _ _ => eq_refl) _ _ (dict_get_set_same k [] v1)).
  rewrite <- (dict_set_set k table [] v1).
  apply zoom_run with (v := []); [apply dict_get_set_same|exact Hrun].
Qed.

Lemma on_windows_loop {A} (body : A -> M Inspector unit)
    (g : A -> M windows_t unit) (xs : list A) :
  (forall x s, In x xs -> body x s = on_windows (g x) s) ->
  forall s, for_each xs body s = on_windows (for_each xs g) s.
Proof.
  induction xs as [|x xs IH]; intros Hbody s.
  - unfold on_windows. cbn [for_each ret]. now destruct s.
  - cbn [for_each]. unfold bind at 1.
    rewrite (Hbody x s (or_introl eq_refl)).
    unfold on_windows at 1 2. unfold bind.
    destruct (g x (windows s)) as [d1 [[]|e]]; [|reflexivity].
    rewrite (IH (fun y s0 Hy => Hbody y s0 (or_intror Hy))).
    unfold on_windows. cbn [windows with_windows].
    now destruct (for_each xs g d1).
Qed.

Lemma on_windows_seq {A} (m : M windows_t unit)
    (body : A -> M Inspector unit) (g : A -> M windows_t unit)
    (xs : list A) :
  (forall x s, In x xs -> body x s = on_windows (g x) s) ->
  forall s,
    (on_windows m ;; for_each xs body) s
    = on_windows (m ;; for_each xs g) s.
Proof.
  intros Hbody s. unfold bind. unfold on_windows at 1 2.
  destruct (m (windows s)) as [d1 [[]|e]]; [|reflexivity].
  rewrite (on_windows_loop body g xs Hbody).
  unfold on_windows. cbn [windows with_windows].
  now destruct (for_each xs g d1).
Qed.

Lemma step_windows_runs (wins : list MisfitWindow) :
  forallb (fun w => match channel_of w with
                    | Some _ => true
                    | None => false
                    end) wins = true ->
  for_each wins add_window [] = (step_windows wins, Ok tt).
Proof.
  intros Hwf. unfold step_windows.
  destruct (add_window_loop wins Hwf []) as (win' & Hrun & _).
  now rewrite Hrun.
Qed.

(** [get_windows] on a dataset it ingests whole. *)
Lemma get_windows_runs (ext : Externals) (ds : ASDFDataSet)
    (self : Inspector) :
  forallb (fun '(model, steps) =>
             forallb (fun '(step, wins) =>
                        forallb (fun w => match channel_of w with
                                          | Some _ => true
                                          | None => false
                                          end) wins) steps)
          (MisfitWindows ds) = true ->
  get_windows ext ds self
  = (with_windows (dict_set (event_id ext ds) (event_windows ds)
                            (windows self)) self, Ok tt).
Proof.
  intros Hwf. rewrite forallb_forall in Hwf.
  set (eid := event_id ext ds).
  pose (G2 := fun (model : string) '((step, wins) : string * list MisfitWindow) =>
                zoom eid (zoom model (setitem step [])) ;;
                for_each wins (fun w =>
                  zoom eid (zoom model (zoom step (add_window w))))).
  pose (G1 := fun '((model, steps) : string * dict (list MisfitWindow)) =>
                zoom eid (setitem model []) ;;
                for_each steps (G2 model)).
  assert (get_windows ext ds self
          = on_windows (setitem eid [] ;; for_each (MisfitWindows ds) G1) self)
    as ->.
  { unfold get_windows. cbv zeta. fold eid.
    apply on_windows_seq. intros [model steps] s _.
    apply on_windows_seq. intros [step wins] s' _.
    apply on_windows_seq. intros w s'' _. reflexivity. }
  assert ((setitem eid [] ;; for_each (MisfitWindows ds) G1) (windows self)
          = (dict_set eid (event_windows ds) (windows self), Ok tt)) as E.
  { apply (fill_key eid G1
             (fun '(model, steps) => setitem model (model_windows steps))).
    - intros [model steps] d v Hin Hd. unfold G1.
      apply (zoom_fill_key eid model (G2 model)
               (fun '(step, wins) => setitem step (step_windows wins))
               steps d v (model_windows steps) Hd).
      + intros [step wins] d0 v0 Hin0 Hd0 Hm. unfold G2.
        apply (zoom2_fill_key eid model step _ add_window wins d0 v0
                 (step_windows wins) Hd0 Hm).
        * intros w d1 _. reflexivity.
        * apply step_windows_runs.
          specialize (Hwf (model, steps) Hin). cbn beta iota in Hwf.
          rewrite forallb_forall in Hwf. exact (Hwf (step, wins) Hin0).
      + apply (for_each_setitem (fun _ wins => step_windows wins)).
    - apply (for_each_setitem (fun _ steps => model_windows steps)). }
  unfold on_windows. now rewrite E.
Qed.

(** X26.  On a dataset whose models and steps are named once each and
    whose channel ids have four parts, [get_windows] returns, and under
    the event, model and step it leaves for each station and component
    one record with the measurements of the windows of that channel, in
    the order of the dataset: time shifts, amplitude ratios, weights,
    correlations, the lengths (end minus start), starts and ends.  A
    channel without a window has no record. *)
Theorem get_windows_records (ext : Externals) (ds : ASDFDataSet)
    (self : Inspector) (model step sta_id cha : string)
    (steps : dict (list MisfitWindow)) (wins : list MisfitWindow) :
  wf_windows ds = true ->
  In (model, steps) (MisfitWindows ds) ->
  In (step, wins) steps ->
  exists self' by_sta,
    get_windows ext ds self = (self', Ok tt)
    /\ lookup3 (event_id ext ds) model step (windows self') = Some by_sta
    /\ lookup2 sta_id cha by_sta
       = match windows_of sta_id cha wins with
         | [] => None
         | ws => Some (record_of ws)
         end.
Proof.
  unfold wf_windows. intros Hwf Hm Hs.
  apply andb_prop in Hwf. destruct Hwf as [Hum Hwf].
  apply unique_NoDup in Hum.
  assert (forallb (fun '(model, steps) =>
             forallb (fun '(step, wins) =>
                        forallb (fun w => match channel_of w with
                                          | Some _ => true
                                          | None => false
                                          end) wins) steps)
            (MisfitWindows ds) = true) as Hch.
  { rewrite forallb_forall in *. intros [m st] Hin.
    specialize (Hwf (m, st) Hin). cbn beta iota in Hwf.
    apply andb_prop in Hwf. exact (proj2 Hwf). }
  rewrite forallb_forall in Hwf. specialize (Hwf (model, steps) Hm).
  cbn beta iota in Hwf. apply andb_prop in Hwf. destruct Hwf as [Hus Hw].
  apply unique_NoDup in Hus.
  rewrite forallb_forall in Hw. specialize (Hw (step, wins) Hs).
  cbn beta iota in Hw.
  eexists. exists (step_windows wins).
  split; [apply (get_windows_runs ext ds self Hch)|]. split.
  - cbn [windows with_windows]. unfold lookup3, lookup2.
    rewrite dict_get_set_same. unfold event_windows.
    rewrite (fold_set_get (fun _ steps => model_windows steps)) by exact Hum.
    rewrite (dict_get_NoDup_In model steps _ Hum Hm).
    unfold model_windows.
    rewrite (fold_set_get (fun _ wins => step_windows wins)) by exact Hus.
    now rewrite (dict_get_NoDup_In step wins _ Hus Hs).
  - unfold step_windows.
    destruct (add_window_loop wins Hw []) as (win' & Hrun & Hget).
    rewrite Hrun. cbn [fst]. rewrite Hget.
    now destruct (windows_of sta_id cha wins).
Qed.

Lemma get_windows_records_witness :
  exists self' by_sta,
    get_windows reading_ext sample_full_ds sample_index = (self', Ok tt)
    /\ lookup3 "2018p130600" "m00" "s00" (windows self') = Some by_sta
    /\ lookup2 "NZ.BFZ" "HHZ" by_sta
       = Some {| cc_shift_sec := [1.5%float; (-0.5)%float];
                 dlna := [0.5%float; 0.25%float];
                 weight := [1%float; 2%float];
                 max_cc := [0.9%float; 0.8%float];
                 length_s := [20%float; 10%float];
                 rel_start := [10%float; 40%float];
                 rel_end := [30%float; 50%float] |}.
Proof.
  exact (get_windows_records reading_ext sample_full_ds sample_index
           "m00" "s00" "NZ.BFZ" "HHZ" _ _ eq_refl
           (or_introl eq_refl) (or_introl eq_refl)).
Defined.

(* ================================================================== *)
(** ** When [get_misfits] returns *)

Lemma for_each_Ok_inv {S A} (body : A -> M S unit) (xs : list A) :
  forall s,
    snd (for_each xs body s) = Ok tt ->
    forall x, In x xs -> exists s', snd (body x s') = Ok tt.
Proof.
  induction xs as [|y xs IH]; intros s H x Hin; [destruct Hin|].
  cbn [for_each] in H. unfold bind in H.
  destruct (body y s) as [s1 [[]|e]] eqn:E; [|discriminate].
  destruct Hin as [->|Hin].
  - exists s. now rewrite E.
  - now apply (IH s1 H).
Qed.

(** The window count of a record is the one [count_misfit_windows]
    gives for its station. *)
Lemma add_misfit_counts (num_win : dict Z) (station : AdjointSource)
    (d d1 : dict misfit_rec) :
  (forall sta r, dict_get sta d = Some r ->
                 dict_get sta num_win = Some (nwin r)) ->
  add_misfit num_win station d = (d1, Ok tt) ->
  (forall sta r, dict_get sta d1 = Some r ->
                 dict_get sta num_win = Some (nwin r))
  /\ dict_in (station_id station) d1 = true
  /\ forall k, dict_in k d = true -> dict_in k d1 = true.
Proof.
  intros Hinv. unfold add_misfit, bind, zoom, modify, dict_in, getitem.
  destruct (dict_get (station_id station) d) as [r0|] eqn:E0.
  - rewrite E0. intros [= <-]. split; [|split].
    + intros sta r. rewrite dict_get_set.
      destruct (String.eqb_spec sta (station_id station)) as [->|Hne];
        [|apply Hinv].
      intros [= <-]. cbn [nwin]. now apply Hinv.
    + now rewrite dict_get_set_same.
    + intros k. rewrite dict_get_set.
      destruct (k =? station_id station); auto.
  - destruct (dict_get (station_id station) num_win) as [n|] eqn:En;
      [|discriminate].
    rewrite dict_get_set_same. rewrite dict_set_set. intros [= <-].
    split; [|split].
    + intros sta r. rewrite dict_get_set.
      destruct (String.eqb_spec sta (station_id station)) as [->|Hne];
        [|apply Hinv].
      intros [= <-]. exact En.
    + now rewrite dict_get_set_same.
    + intros k. rewrite dict_get_set.
      destruct (k =? station_id station); auto.
Qed.

Lemma add_misfit_loop_counts (num_win : dict Z)
    (stations : list AdjointSource) :
  forall d d1,
    (forall sta r, dict_get sta d = Some r ->
                   dict_get sta num_win = Some (nwin r)) ->
    for_each stations (add_misfit num_win) d = (d1, Ok tt) ->
    (forall sta r, dict_get sta d1 = Some r ->
                   dict_get sta num_win = Some (nwin r))
    /\ (forall k, dict_in k d = true -> dict_in k d1 = true)
    /\ forall st, In st stations -> dict_in (station_id st) d1 = true.
Proof.
  induction stations as [|st stations IH]; intros d d1 Hinv Hrun.
  - cbn in Hrun. injection Hrun as <-. repeat split; auto; intros ? [].
  - cbn [for_each] in Hrun. unfold bind in Hrun.
    destruct (add_misfit num_win st d) as [d0 [[]|e]] eqn:E;
      [|discriminate].
    destruct (add_misfit_counts num_win st d d0 Hinv E) as (H1 & H2 & H3).
    destruct (IH d0 d1 H1 Hrun) as (I1 & I2 & I3).
    split; [exact I1|]. split; [auto|].
    intros st' [<-|Hin]; [now apply I2|now apply I3].
Qed.

Lemma scale_loop_nonzero (ks : list string) :
  forall d d2,
    for_each ks (fun sta_id => zoom sta_id scale_misfit) d = (d2, Ok tt) ->
    forall k r, In k ks -> dict_get k d = Some r -> nwin r <> 0%Z.
Proof.
  induction ks as [|k0 ks IH]; intros d d2 Hrun k r Hin Hr; [destruct Hin|].
  cbn [for_each] in Hrun. unfold bind, zoom in Hrun.
  destruct (dict_get k0 d) as [r0|] eqn:E0; [|discriminate].
  unfold scale_misfit, truediv_int in Hrun.
  destruct (Z.eqb_spec (2 * nwin r0) 0) as [|Hn0]; [discriminate|].
  destruct (String.eqb_spec k k0) as [->|Hne].
  - rewrite E0 in Hr. injection Hr as <-. lia.
  - destruct Hin as [->|Hin]; [congruence|].
    apply (IH _ _ Hrun k r Hin).
    now rewrite dict_get_set_other.
Qed.

Lemma zoom_model_Ok (eid model : string) {A} (m : M _ A)
    (self : Inspector) (a : A) :
  snd (on_misfits (zoom eid (zoom model m)) self) = Ok a ->
  exists by_step, get_model eid model self = Ok by_step.
Proof.
  unfold on_misfits, zoom, get_model, get_in, get_event, getitem.
  destruct (dict_get eid (misfits self)) as [by_model|]; [|discriminate].
  cbn [rbind].
  destruct (dict_get model by_model) as [by_step|]; [eauto|discriminate].
Qed.

(** The body of the loop over the steps returns only for a step all of
    whose stations are counted. *)
Lemma get_misfits_step_Ok (ext : Externals) (ds : ASDFDataSet)
    (eid model step : string) (stations : list AdjointSource)
    (self : Inspector) :
  snd (get_misfits_step ext ds eid model (step, stations) self) = Ok tt ->
  counted (count_misfit_windows ext ds model step) stations = true.
Proof.
  intros Hok.
  set (nw := count_misfit_windows ext ds model step) in *.
  assert (exists by_step, get_model eid model self = Ok by_step)
    as [by_step Hm].
  { unfold get_misfits_step, bind in Hok.
    match type of Hok with
    | context [on_misfits ?m self] =>
        destruct (on_misfits m self) as [s1 [[]|e]] eqn:E; [|discriminate]
    end.
    exact (zoom_model_Ok eid model (setitem step []) self tt
             (f_equal snd E)). }
  pose proof (lens_model eid model) as Lm.
  pose proof (lens_step eid model step) as Ls.
  set (s1 := put_model eid model (dict_set step [] by_step) self).
  assert (get_model eid model s1 = Ok (dict_set step [] by_step)) as Hm1
      by (apply (get_put _ _ Lm self by_step); exact Hm).
  assert (get_step eid model step s1 = Ok []) as Hs1.
  { unfold get_step, get_in. rewrite Hm1. cbn [rbind].
    unfold getitem. now rewrite dict_get_set_same. }
  assert (on_misfits (zoom eid (zoom model (setitem step []))) self
          = (s1, Ok tt)) as E1.
  { rewrite (on_model eid model _ self by_step Hm).
    now apply focus_run with (v := by_step). }
  destruct (for_each stations (add_misfit nw) []) as [d1 r1] eqn:Erun1.
  set (s2 := put_step eid model step d1 s1).
  assert (get_step eid model step s2 = Ok d1) as Hs2
      by (apply (get_put _ _ Ls s1 []); exact Hs1).
  assert (for_each stations (fun station =>
            on_misfits (zoom eid (zoom model (zoom step
              (add_misfit nw station))))) s1 = (s2, r1)) as E2.
  { rewrite (focus_for_each (get_step eid model step)
               (put_step eid model step) _ (add_misfit nw) stations Ls)
      with (v := []);
      [now apply focus_run with (v := [])| |exact Hs1].
    intros x s v _ Hs. now apply on_step with (v := v). }
  assert ((by_model <~ getitem eid (misfits s2) ;;
           by_step <~ getitem model by_model ;;
           by_sta <~ getitem step by_step ;;
           Ok (dict_keys by_sta)) = Ok (dict_keys d1)) as E3.
  { unfold get_step, get_model, get_event, get_in in Hs2.
    destruct (getitem eid (misfits s2)) as [bm|]; [|discriminate].
    cbn [rbind] in *.
    destruct (getitem model bm) as [bs|]; [|discriminate].
    cbn [rbind] in *. now rewrite Hs2. }
  destruct (for_each (dict_keys d1)
              (fun sta_id => zoom sta_id scale_misfit) d1)
    as [d2 r2] eqn:Erun2.
  assert (for_each (dict_keys d1) (fun sta_id =>
            on_misfits (zoom eid (zoom model (zoom step
              (zoom sta_id scale_misfit))))) s2
          = (put_step eid model step d2 s2, r2)) as E4.
  { rewrite (focus_for_each (get_step eid model step)
               (put_step eid model step) _
               (fun sta_id => zoom sta_id scale_misfit) (dict_keys d1) Ls)
      with (v := d1);
      [now apply focus_run with (v := d1)| |exact Hs2].
    intros x s v _ Hs. now apply on_step with (v := v). }
  unfold get_misfits_step in Hok. fold nw in Hok. unfold bind in Hok.
  rewrite E1, E2 in Hok.
  destruct r1 as [[]|e1]; [|discriminate].
  rewrite E3, E4 in Hok. cbn [snd] in Hok. subst r2.
  destruct (add_misfit_loop_counts nw stations [] d1) as (C1 & _ & C3);
    [intros sta r; discriminate|exact Erun1|].
  unfold counted. apply forallb_forall. intros st Hst.
  specialize (C3 st Hst). unfold dict_in in C3.
  destruct (dict_get (station_id st) d1) as [r|] eqn:Er; [|discriminate].
  rewrite (C1 _ r Er).
  pose proof (scale_loop_nonzero (dict_keys d1) d1 d2 Erun2
                (station_id st) r (dict_get_Some_key _ _ _ Er) Er) as Hn.
  now destruct (Z.eqb_spec (nwin r) 0).
Qed.

(** X27.  [get_misfits] returns only when, for every model and step of
    the dataset, each station that has an adjoint source has a window
    count, and the count is not zero: otherwise it raises. *)
Theorem get_misfits_returns_only (ext : Externals) (ds : ASDFDataSet)
    (self : Inspector) (model step : string)
    (steps : dict (list AdjointSource)) (stations : list AdjointSource) :
  snd (get_misfits ext ds self) = Ok tt ->
  In (model, steps) (AdjointSources ds) ->
  In (step, stations) steps ->
  counted (count_misfit_windows ext ds model step) stations = true.
Proof.
  intros Hok Hm Hs. unfold get_misfits in Hok. cbv zeta in Hok.
  unfold bind in Hok.
  destruct (on_misfits (setitem (event_id ext ds) []) self)
    as [s0 [[]|e]]; [|discriminate].
  destruct (for_each_Ok_inv _ _ s0 Hok (model, steps) Hm) as [s1 H1].
  unfold get_misfits_model, bind in H1.
  destruct (on_misfits (zoom (event_id ext ds) (setitem model [])) s1)
    as [s2 [[]|e]]; [|discriminate].
  destruct (for_each_Ok_inv _ _ s2 H1 (step, stations) Hs) as [s3 H3].
  exact (get_misfits_step_Ok ext ds _ model step stations s3 H3).
Qed.

Lemma get_misfits_returns_only_witness :
  counted [("NZ.BFZ", 5%Z)]
          [{| station_id := "NZ.BFZ"; misfit_value := 2 |};
           {| station_id := "NZ.BFZ"; misfit_value := 3 |}] = true.
Proof.
  exact (get_misfits_returns_only sample_ext sample_ds sample_index
           "m00" "s00" _ _ eq_refl (or_introl eq_refl) (or_introl eq_refl)).
Defined.
